(** * kube-doctor-mcp: health predicates, topology resolvers and diagnostic engines

    A shallow embedding of the Go MCP server's diagnosis code
    (pkg/k8s, pkg/mermaid, pkg/tools) together with the properties the
    specification states about it.

    Conventions
    - Go [string] is [string] (a sequence of bytes); non-ASCII literals of the
      source are kept as their UTF-8 bytes.
    - Go [int] is a [Z] kept in the signed 64-bit range by [wrap64], [int32]
      by [wrap32].
    - A Go [error] is the text of its message; a call that may fail returns
      a [result].
    - A strings.Builder is the list of the pieces written to it, in order:
      the report is their concatenation ([render]). *)

From Stdlib Require Import ZArith List String Ascii Bool Lia.
From Stdlib Require Import Numbers.DecimalString.
Import ListNotations.

Local Open Scope string_scope.
Local Open Scope Z_scope.

(* ===================================================================== *)
(** ** Machine integers and results *)
(* ===================================================================== *)

Definition wrap (bits : Z) (x : Z) : Z :=
  (x + 2 ^ (bits - 1)) mod 2 ^ bits - 2 ^ (bits - 1).

Definition wrap64 (x : Z) : Z := wrap 64 x.
Definition wrap32 (x : Z) : Z := wrap 32 x.

(** [x++] on an [int]. *)
Definition incr (x : Z) : Z := wrap64 (x + 1).

(** [len] of a slice, as an [int]. *)
Definition len {A : Type} (l : list A) : Z := Z.of_nat (List.length l).

Inductive result (A : Type) : Type :=
| Ok (a : A)
| Err (e : string).
Arguments Ok {A} a.
Arguments Err {A} e.

(* ===================================================================== *)
(** ** Package strings and fmt *)
(* ===================================================================== *)

Module strings.

(** strings.HasPrefix(s, prefix) *)
Definition HasPrefix (s prefix : string) : bool := String.prefix prefix s.

(** strings.Contains(s, substr) *)
Fixpoint Contains (s substr : string) : bool :=
  String.prefix substr s
  || match s with
     | EmptyString => false
     | String _ rest => Contains rest substr
     end.

(** strings.Join(elems, sep) *)
Fixpoint Join (elems : list string) (sep : string) : string :=
  match elems with
  | [] => ""
  | [e] => e
  | e :: rest => e ++ sep ++ Join rest sep
  end.

(** strings.ReplaceAll(s, old, new) for a one-byte [old]. *)
Fixpoint ReplaceAllByte (s : string) (old : ascii) (new : string) : string :=
  match s with
  | EmptyString => ""
  | String c rest =>
      (if Ascii.eqb c old then new else String c "") ++ ReplaceAllByte rest old new
  end.

(** strings.Split(s, "\n"): the pieces between line feeds. *)
Fixpoint SplitLines_aux (cur : string) (s : string) : list string :=
  match s with
  | EmptyString => [cur]
  | String c rest =>
      if Ascii.eqb c "010"%char
      then cur :: SplitLines_aux "" rest
      else SplitLines_aux (cur ++ String c "") rest
  end.

Definition SplitLines (s : string) : list string := SplitLines_aux "" s.

End strings.

(** fmt.Sprintf("%d", n) *)
Definition itoa (n : Z) : string := NilZero.string_of_int (Z.to_int n).

(** s[:n] when len(s) > n *)
Definition slice_to (s : string) (n : nat) : string := String.substring 0 n s.

Definition strlen (s : string) : Z := Z.of_nat (String.length s).

(** The line feed the source writes as a backslash followed by n. *)
Definition LF : string := String "010"%char "".

(** The double quote. *)
Definition QUOTE : string := String "034"%char "".

(* ===================================================================== *)
(** ** The Kubernetes objects the engines read (k8s.io/api) *)
(* ===================================================================== *)

Definition PodPhase := string.
Definition PodPending : PodPhase := "Pending".
Definition PodRunning : PodPhase := "Running".
Definition PodSucceeded : PodPhase := "Succeeded".
Definition PodFailed : PodPhase := "Failed".

Record ContainerStateWaiting := { WaitingReason : string }.
Record ContainerStateTerminated := { TerminatedReason : string }.

(** The Waiting and Terminated members are pointers: [None] is nil. *)
Record ContainerState := {
  Waiting : option ContainerStateWaiting;
  Terminated : option ContainerStateTerminated
}.

Record ContainerStatus := {
  csName : string;
  Ready : bool;
  RestartCount : Z;
  State : ContainerState;
  LastTerminationState : ContainerState
}.

(** Resources.Limits: [None] is a nil map, otherwise the CPU quantity in
    millicores and the memory quantity in bytes (zero when the key is
    missing, as Cpu() and Memory() give). *)
Record Container := {
  cName : string;
  Limits : option (Z * Z);
  ReadinessProbe : bool;
  LivenessProbe : bool
}.

Record PodCondition := {
  condType : string;
  condStatus : string;
  condMessage : string
}.

Record Pod := {
  podName : string;
  podLabels : list (string * string);
  NodeName : string;
  Containers : list Container;
  Phase : PodPhase;
  StatusReason : string;
  Conditions : list PodCondition;
  ContainerStatuses : list ContainerStatus;
  InitContainerStatuses : list ContainerStatus;
  podCreationTimestamp : Z
}.

(* ===================================================================== *)
(** ** Health predicates (pkg/tools) *)
(* ===================================================================== *)

(** The loop of [isPodHealthy] over the container statuses: [false] at the
    first status that is not ready or is waiting. *)
Fixpoint containersHealthy (css : list ContainerStatus) : bool :=
  match css with
  | [] => true
  | cs :: rest =>
      if negb (Ready cs) then false
      else match Waiting (State cs) with
           | Some _ => false
           | None => containersHealthy rest
           end
  end.

(** isPodHealthy returns true if the pod is in a healthy state. *)
Definition isPodHealthy (p : Pod) : bool :=
  if String.eqb (Phase p) PodRunning then containersHealthy (ContainerStatuses p)
  else if String.eqb (Phase p) PodSucceeded then true
  else false.

(** What one iteration of a status loop of [podPhaseReason] returns, if it
    returns: the waiting reason when there is a non-empty one, else the
    terminated reason when there is a non-empty one. *)
Definition statusReason (cs : ContainerStatus) : option string :=
  match Waiting (State cs) with
  | Some w =>
      if negb (String.eqb (WaitingReason w) "") then Some (WaitingReason w)
      else match Terminated (State cs) with
           | Some t =>
               if negb (String.eqb (TerminatedReason t) "")
               then Some (TerminatedReason t) else None
           | None => None
           end
  | None =>
      match Terminated (State cs) with
      | Some t =>
          if negb (String.eqb (TerminatedReason t) "")
          then Some (TerminatedReason t) else None
      | None => None
      end
  end.

(** A status loop: the first status, in slice order, that returns. *)
Fixpoint firstStatusReason (css : list ContainerStatus) : option string :=
  match css with
  | [] => None
  | cs :: rest =>
      match statusReason cs with
      | Some r => Some r
      | None => firstStatusReason rest
      end
  end.

(** podPhaseReason returns the most informative status string for a pod. *)
Definition podPhaseReason (p : Pod) : string :=
  match firstStatusReason (ContainerStatuses p) with
  | Some r => r
  | None =>
      match firstStatusReason (InitContainerStatuses p) with
      | Some r => "Init:" ++ r
      | None =>
          if negb (String.eqb (StatusReason p) "") then StatusReason p
          else Phase p
      end
  end.

(** The restart total of [podContainerSummary], an int32. *)
Fixpoint sumRestarts (acc : Z) (css : list ContainerStatus) : Z :=
  match css with
  | [] => acc
  | cs :: rest => sumRestarts (wrap32 (acc + RestartCount cs)) rest
  end.

Fixpoint countReady (acc : Z) (css : list ContainerStatus) : Z :=
  match css with
  | [] => acc
  | cs :: rest => countReady (if Ready cs then incr acc else acc) rest
  end.

(** podContainerSummary returns (ready, total, restarts) for a pod. *)
Definition podContainerSummary (p : Pod) : Z * Z * Z :=
  (countReady 0 (ContainerStatuses p),
   len (Containers p),
   sumRestarts 0 (ContainerStatuses p)).

(* ===================================================================== *)
(** ** Networking objects (k8s.io/api/core/v1, networking/v1) *)
(* ===================================================================== *)

Definition PathType := string.
Definition PathTypeExact : PathType := "Exact".
Definition PathTypePrefix : PathType := "Prefix".
Definition PathTypeImplementationSpecific : PathType := "ImplementationSpecific".

Record ServiceBackendPort := { PortName : string; PortNumber : Z }.

Record IngressServiceBackend := {
  BackendServiceName : string;
  BackendServicePort : ServiceBackendPort
}.

Record HTTPIngressPath := {
  Path : string;
  PathTypeOf : option PathType;
  BackendService : option IngressServiceBackend
}.

(** [HTTP] is a pointer to the rule's list of paths. *)
Record IngressRule := { Host : string; HTTP : option (list HTTPIngressPath) }.

Record IngressTLS := { Hosts : list string; SecretName : string }.

(** [Annotations] holds the entries of the annotation map in the order a
    range loop over it visits them. *)
Record Ingress := {
  ingName : string;
  ingNamespace : string;
  Annotations : list (string * string);
  IngressClassName : option string;
  TLS : list IngressTLS;
  Rules : list IngressRule
}.

Record ServicePort := {
  spName : string;
  spPort : Z;
  spTargetPort : string;
  spProtocol : string
}.

(** [Selector] is a map: [None] is nil, [Some []] an empty map. *)
Record Service := {
  svcName : string;
  svcNamespace : string;
  svcType : string;
  ClusterIP : string;
  Ports : list ServicePort;
  Selector : option (list (string * string));
  SessionAffinity : string;
  svcCreationTimestamp : Z
}.

Record ObjectReference := { refName : string }.

Record corev1_EndpointAddress := {
  addrIP : string;
  TargetRef : option ObjectReference;
  addrNodeName : option string
}.

Record EndpointSubset := {
  Addresses : list corev1_EndpointAddress;
  NotReadyAddresses : list corev1_EndpointAddress
}.

Record Endpoints := { Subsets : list EndpointSubset }.

Record Event := {
  evType : string;
  evReason : string;
  evMessage : string;
  evCount : Z
}.

Definition PolicyType := string.
Definition PolicyTypeIngress : PolicyType := "Ingress".
Definition PolicyTypeEgress : PolicyType := "Egress".

(** A label selector: its matchLabels entries and the number of its
    matchExpressions. *)
Record LabelSelector := {
  MatchLabels : list (string * string);
  MatchExpressions : Z
}.

(** An ingress or egress rule of a network policy, by what the audit reads
    of it: the parts describeIngressRule / describeEgressRule give, the
    peers describeIngressSources / describeEgressDests give, and for each
    port entry the text of its Port when that is not nil. *)
Record NetworkPolicyRule := {
  ruleParts : list string;
  rulePeers : list string;
  rulePorts : list (option string)
}.

Record NetworkPolicy := {
  npName : string;
  PodSelector : LabelSelector;
  PolicyTypes : list PolicyType;
  IngressRules : list NetworkPolicyRule;
  EgressRules : list NetworkPolicyRule
}.

(** Usage of one container as the metrics API reports it: CPU in
    millicores, memory in bytes. *)
Record ContainerMetrics := { cmName : string; cmCPU : Z; cmMemory : Z }.

Record PodMetrics := { pmName : string; pmContainers : list ContainerMetrics }.

(* ===================================================================== *)
(** ** The cluster as one invocation sees it *)
(* ===================================================================== *)

(** The calls on the API server that the modelled functions make, each with
    the answer it gets.  The first three are Clientset calls made by
    pkg/k8s functions modelled below; the others are ClusterClient methods
    that wrap one Clientset call, taken with the result they hand to the
    engines. *)
Record ClusterClient := {
  Ingresses_List : string -> result (list Ingress);
  Endpoints_Get : string -> string -> result Endpoints;
  Pods_List : string -> list (string * string) -> result (list Pod);
  GetService : string -> string -> result Service;
  GetEventsForObject : string -> string -> result (list Event);
  ListPods : string -> string -> result (list Pod);
  ListIngresses : string -> result (list Ingress);
  ListNetworkPolicies : string -> result (list NetworkPolicy);
  GetPodLogs : string -> string -> string -> result string;
  GetPodMetrics : string -> result (list PodMetrics)
}.

(** A slice result whose error is dropped ([x, _ := f()]): nil on error. *)
Definition orNil {A : Type} (r : result (list A)) : list A :=
  match r with
  | Ok l => l
  | Err _ => []
  end.

(* ===================================================================== *)
(** ** Package k8s: topology resolvers *)
(* ===================================================================== *)

Module k8s.

(** EndpointAddress is an individual endpoint address with pod info. *)
Record EndpointAddress := {
  IP : string;
  PodName : string;
  NodeName : string
}.

(** EndpointHealth summarizes the health of endpoints for a service. *)
Record EndpointHealth := {
  ServiceName : string;
  ServiceNS : string;
  TotalEndpoints : Z;
  ReadyCount : Z;
  NotReadyCount : Z;
  ReadyAddresses : list EndpointAddress;
  NotReadyPods : list EndpointAddress
}.

(** The address record built for one endpoint address: pod and node names
    stay empty when the references are nil. *)
Definition toAddress (addr : corev1_EndpointAddress) : EndpointAddress :=
  {| IP := addrIP addr;
     PodName := match TargetRef addr with Some r => refName r | None => "" end;
     NodeName := match addrNodeName addr with Some n => n | None => "" end |}.

Definition addReady (health : EndpointHealth) (addr : corev1_EndpointAddress)
  : EndpointHealth :=
  {| ServiceName := ServiceName health;
     ServiceNS := ServiceNS health;
     TotalEndpoints := TotalEndpoints health;
     ReadyCount := incr (ReadyCount health);
     NotReadyCount := NotReadyCount health;
     ReadyAddresses := ReadyAddresses health ++ [toAddress addr];
     NotReadyPods := NotReadyPods health |}.

Definition addNotReady (health : EndpointHealth) (addr : corev1_EndpointAddress)
  : EndpointHealth :=
  {| ServiceName := ServiceName health;
     ServiceNS := ServiceNS health;
     TotalEndpoints := TotalEndpoints health;
     ReadyCount := ReadyCount health;
     NotReadyCount := incr (NotReadyCount health);
     ReadyAddresses := ReadyAddresses health;
     NotReadyPods := NotReadyPods health ++ [toAddress addr] |}.

(** One iteration of the loop over the subsets. *)
Definition addSubset (health : EndpointHealth) (subset : EndpointSubset)
  : EndpointHealth :=
  fold_left addNotReady (NotReadyAddresses subset)
    (fold_left addReady (Addresses subset) health).

Definition setTotal (health : EndpointHealth) : EndpointHealth :=
  {| ServiceName := ServiceName health;
     ServiceNS := ServiceNS health;
     TotalEndpoints := wrap64 (ReadyCount health + NotReadyCount health);
     ReadyCount := ReadyCount health;
     NotReadyCount := NotReadyCount health;
     ReadyAddresses := ReadyAddresses health;
     NotReadyPods := NotReadyPods health |}.

(** GetServiceEndpointHealth returns endpoint health for a service. *)
Definition GetServiceEndpointHealth (c : ClusterClient) (namespace serviceName : string)
  : result EndpointHealth :=
  match Endpoints_Get c namespace serviceName with
  | Err e => Err e
  | Ok ep =>
      let health :=
        {| ServiceName := serviceName;
           ServiceNS := namespace;
           TotalEndpoints := 0;
           ReadyCount := 0;
           NotReadyCount := 0;
           ReadyAddresses := [];
           NotReadyPods := [] |} in
      Ok (setTotal (fold_left addSubset (Subsets ep) health))
  end.


(** GetPodsForService returns pods matching a service's selector. *)
Definition GetPodsForService (c : ClusterClient) (svc : Service) : result (list Pod) :=
  match Selector svc with
  | None => Ok []
  | Some m =>
      if len m =? 0 then Ok []
      else match Pods_List c (svcNamespace svc) m with
           | Err e => Err e
           | Ok items => Ok items
           end
  end.

Definition matchPath (pattern path : string) (pathType : PathType) : bool :=
  if String.eqb pathType PathTypeExact then String.eqb path pattern
  else if String.eqb pathType PathTypePrefix then strings.HasPrefix path pattern
  else strings.HasPrefix path pattern.

(** The innermost loop of FindIngressForHostPath: the first path of a rule
    that matches. *)
Fixpoint findPath (paths : list HTTPIngressPath) (path : string)
  : option HTTPIngressPath :=
  match paths with
  | [] => None
  | p :: rest =>
      let pathType :=
        match PathTypeOf p with
        | Some t => t
        | None => PathTypePrefix
        end in
      if matchPath (Path p) path pathType then Some p
      else findPath rest path
  end.

Fixpoint findRule (rules : list IngressRule) (host path : string)
  : option (IngressRule * HTTPIngressPath) :=
  match rules with
  | [] => None
  | rule :: rest =>
      if negb (String.eqb (Host rule) host) then findRule rest host path
      else match HTTP rule with
           | None => findRule rest host path
           | Some paths =>
               match findPath paths path with
               | Some p => Some (rule, p)
               | None => findRule rest host path
               end
           end
  end.

Fixpoint findIngress (items : list Ingress) (host path : string)
  : option (Ingress * IngressRule * HTTPIngressPath) :=
  match items with
  | [] => None
  | ing :: rest =>
      match findRule (Rules ing) host path with
      | Some (rule, p) => Some (ing, rule, p)
      | None => findIngress rest host path
      end
  end.

(** FindIngressForHostPath searches ingresses for a matching host+path. *)
Definition FindIngressForHostPath (c : ClusterClient) (namespace host path : string)
  : result (Ingress * IngressRule * HTTPIngressPath) :=
  match Ingresses_List c namespace with
  | Err e => Err e
  | Ok ingresses =>
      let again :=
        if String.eqb namespace "" then Ingresses_List c "" else Ok ingresses in
      match again with
      | Err e => Err e
      | Ok ingresses =>
          match findIngress ingresses host path with
          | Some found => Ok found
          | None => Err ("no ingress found for " ++ host ++ path)
          end
      end
  end.

(** AGICAnnotation represents a parsed AGIC annotation. *)
Record AGICAnnotation := { Key : string; Value : string }.

Definition AGICAnnotationPrefix : string := "appgw.ingress.kubernetes.io/".

(** strings.TrimPrefix for a string known to have the prefix. *)
Definition trimPrefix (s prefix : string) : string :=
  if strings.HasPrefix s prefix
  then String.substring (String.length prefix)
         (String.length s - String.length prefix) s
  else s.

(** ParseAGICAnnotations extracts AGIC annotations from an Ingress. *)
Fixpoint parseAnnotations (entries : list (string * string)) : list AGICAnnotation :=
  match entries with
  | [] => []
  | (k, v) :: rest =>
      if strings.HasPrefix k AGICAnnotationPrefix
      then {| Key := trimPrefix k AGICAnnotationPrefix; Value := v |}
           :: parseAnnotations rest
      else parseAnnotations rest
  end.

Definition ParseAGICAnnotations (ingress : Ingress) : list AGICAnnotation :=
  parseAnnotations (Annotations ingress).

End k8s.

(* ===================================================================== *)
(** ** Package mermaid: diagram emitter *)
(* ===================================================================== *)

Module mermaid.

Definition Direction := string.
Definition DirectionTB : Direction := "TB".
Definition DirectionLR : Direction := "LR".

Definition Shape := string.
Definition ShapeRect : Shape := "rect".
Definition ShapeRound : Shape := "round".
Definition ShapeStadium : Shape := "stadium".
Definition ShapeCircle : Shape := "circle".
Definition ShapeDiamond : Shape := "diamond".
Definition ShapeHex : Shape := "hex".
Definition ShapeTrapAlt : Shape := "trapalt".
Definition ShapeCyl : Shape := "cyl".

Definition EdgeStyle := string.
Definition EdgeSolid : EdgeStyle := "solid".
Definition EdgeDotted : EdgeStyle := "dotted".
Definition EdgeThick : EdgeStyle := "thick".

Definition Severity := string.
Definition SeverityCritical : Severity := "critical".
Definition SeverityWarning : Severity := "warning".
Definition SeverityHealthy : Severity := "healthy".
Definition SeverityInfo : Severity := "info".

(** Pre-defined style strings for severity levels: the lookup in the
    severityStyles map, [None] when the key is absent. *)
Definition severityStyles (sev : Severity) : option string :=
  if String.eqb sev SeverityCritical
  then Some "fill:#ffcccc,stroke:#cc0000,stroke-width:2px"
  else if String.eqb sev SeverityWarning
  then Some "fill:#ffffcc,stroke:#cccc00,stroke-width:2px"
  else if String.eqb sev SeverityHealthy
  then Some "fill:#ccffcc,stroke:#00cc00,stroke-width:2px"
  else if String.eqb sev SeverityInfo
  then Some "fill:#cce5ff,stroke:#4a90d9,stroke-width:2px"
  else None.

Definition byteOf (c : ascii) : Z := Z.of_N (N_of_ascii c).

Definition inRange (lo hi : Z) (c : ascii) : bool :=
  (lo <=? byteOf c) && (byteOf c <=? hi).

Definition isDigit (c : ascii) : bool := inRange 48 57 c.

(** The bytes outside the class the safeIDRegexp negates: a-z, A-Z, 0-9
    and the underscore. *)
Definition isIDByte (c : ascii) : bool :=
  inRange 97 122 c || inRange 65 90 c || isDigit c || Ascii.eqb c "_"%char.

(** The number of bytes of the rune that starts with byte [c] followed by
    [rest], as the regexp engine steps over its input: one for an ASCII
    byte, the length of a well-formed UTF-8 sequence, and one for a byte
    that starts no such sequence (read as the replacement rune). *)
Definition runeWidth (c : ascii) (rest : string) : nat :=
  let b := byteOf c in
  if b <? 128 then 1%nat
  else if (194 <=? b) && (b <=? 223) then
    match rest with
    | String c1 _ => if inRange 128 191 c1 then 2%nat else 1%nat
    | _ => 1%nat
    end
  else if (224 <=? b) && (b <=? 239) then
    let lo := if b =? 224 then 160 else 128 in
    let hi := if b =? 237 then 159 else 191 in
    match rest with
    | String c1 (String c2 _) =>
        if inRange lo hi c1 && inRange 128 191 c2 then 3%nat else 1%nat
    | _ => 1%nat
    end
  else if (240 <=? b) && (b <=? 244) then
    let lo := if b =? 240 then 144 else 128 in
    let hi := if b =? 244 then 143 else 191 in
    match rest with
    | String c1 (String c2 (String c3 _)) =>
        if inRange lo hi c1 && inRange 128 191 c2 && inRange 128 191 c3
        then 4%nat else 1%nat
    | _ => 1%nat
    end
  else 1%nat.

(** safeIDRegexp.ReplaceAllString(s, "_"): every rune outside the class
    becomes one underscore.  [skip] counts the bytes still to pass of a
    rune already replaced. *)
Fixpoint replaceUnsafe (skip : nat) (s : string) : string :=
  match s with
  | EmptyString => ""
  | String c rest =>
      match skip with
      | S k => replaceUnsafe k rest
      | O =>
          if isIDByte c then String c (replaceUnsafe 0 rest)
          else String "_"%char (replaceUnsafe (runeWidth c rest - 1) rest)
      end
  end.

(** SafeID converts a string to a safe Mermaid node ID. *)
Definition SafeID (s : string) : string :=
  let id := replaceUnsafe 0 s in
  match id with
  | EmptyString => "_"
  | String c _ => if isDigit c then "_" ++ id else id
  end.

(** WrapBlock wraps Mermaid code in a fenced code block. *)
Definition WrapBlock (code : string) : string :=
  "```mermaid" ++ LF ++ code ++ LF ++ "```".

(** nodeShape wraps text in the appropriate shape delimiters. *)
Definition nodeShape (id label : string) (shape : Shape) : string :=
  if String.eqb shape ShapeRound then id ++ "(" ++ label ++ ")"
  else if String.eqb shape ShapeStadium then id ++ "([" ++ label ++ "])"
  else if String.eqb shape ShapeCircle then id ++ "((" ++ label ++ "))"
  else if String.eqb shape ShapeDiamond then id ++ "{" ++ label ++ "}"
  else if String.eqb shape ShapeHex then id ++ "{{" ++ label ++ "}}"
  else if String.eqb shape ShapeTrapAlt then id ++ "[/" ++ label ++ "/]"
  else if String.eqb shape ShapeCyl then id ++ "[(" ++ label ++ ")]"
  else id ++ "[" ++ label ++ "]".

(** edgeArrow returns the arrow string for an edge style. *)
Definition edgeArrow (style : EdgeStyle) (label : string) : string :=
  if String.eqb style EdgeDotted then
    if negb (String.eqb label "") then "-.->|" ++ label ++ "|" else "-.->"
  else if String.eqb style EdgeThick then
    if negb (String.eqb label "") then "==>|" ++ label ++ "|" else "==>"
  else
    if negb (String.eqb label "") then "-->|" ++ label ++ "|" else "-->".

(** EscapeLabel escapes special characters in Mermaid labels. *)
Definition EscapeLabel (s : string) : string :=
  strings.ReplaceAllByte s "034"%char "#quot;".

(** BR returns a Mermaid line break. *)
Definition BR : string := "<br/>".

(** Flowchart builds a Mermaid flowchart diagram. *)
Record Flowchart := {
  direction : Direction;
  lines : list string;
  styles : list string
}.

Definition NewFlowchart (dir : Direction) : Flowchart :=
  {| direction := dir; lines := []; styles := [] |}.

(** AddNode adds a node to the flowchart. *)
Definition AddNode (id label : string) (shape : Shape) (f : Flowchart) : Flowchart :=
  {| direction := direction f;
     lines := lines f ++ ["    " ++ nodeShape id (EscapeLabel label) shape];
     styles := styles f |}.

(** AddEdge adds an edge between two nodes. *)
Definition AddEdge (from to label : string) (style : EdgeStyle) (f : Flowchart)
  : Flowchart :=
  {| direction := direction f;
     lines := lines f
              ++ ["    " ++ from ++ " " ++ edgeArrow style (EscapeLabel label) ++ " " ++ to];
     styles := styles f |}.

(** AddStyle applies a severity-based style to a node. *)
Definition AddStyle (nodeID : string) (sev : Severity) (f : Flowchart) : Flowchart :=
  match severityStyles sev with
  | Some style =>
      {| direction := direction f;
         lines := lines f;
         styles := styles f ++ ["    style " ++ nodeID ++ " " ++ style] |}
  | None => f
  end.

(** AddRawStyle applies a raw CSS-like style string to a node. *)
Definition AddRawStyle (nodeID style : string) (f : Flowchart) : Flowchart :=
  {| direction := direction f;
     lines := lines f;
     styles := styles f ++ ["    style " ++ nodeID ++ " " ++ style] |}.

(** Subgraph collects nodes and edges inside a subgraph. *)
Record Subgraph := { sgLines : list string }.

Definition NewSubgraph : Subgraph := {| sgLines := [] |}.

(** AddNode adds a node inside the subgraph. *)
Definition SubgraphAddNode (id label : string) (shape : Shape) (sg : Subgraph) : Subgraph :=
  {| sgLines := sgLines sg ++ ["    " ++ nodeShape id (EscapeLabel label) shape] |}.

(** AddEdge adds an edge inside the subgraph. *)
Definition SubgraphAddEdge (from to label : string) (style : EdgeStyle) (sg : Subgraph)
  : Subgraph :=
  {| sgLines := sgLines sg
                ++ ["    " ++ from ++ " " ++ edgeArrow style (EscapeLabel label) ++ " " ++ to] |}.

(** AddSubgraph adds a subgraph with a callback to populate it; [sg] is
    the subgraph the callback leaves. *)
Definition AddSubgraph (id label : string) (sg : Subgraph) (f : Flowchart) : Flowchart :=
  {| direction := direction f;
     lines := lines f
              ++ ["    subgraph " ++ id ++ "[" ++ QUOTE ++ EscapeLabel label ++ QUOTE ++ "]"]
              ++ map (fun line => "    " ++ line) (sgLines sg)
              ++ ["    end"];
     styles := styles f |}.

(** Render produces the Mermaid flowchart string (without fenced block). *)
Definition Render (f : Flowchart) : string :=
  "flowchart " ++ direction f ++ LF
  ++ String.concat "" (map (fun line => line ++ LF) (lines f))
  ++ String.concat "" (map (fun style => style ++ LF) (styles f)).

(** RenderBlock produces the Mermaid flowchart wrapped in a fenced code
    block. *)
Definition RenderBlock (f : Flowchart) : string := WrapBlock (Render f).

End mermaid.

Module sequence.

Definition MessageStyle := string.
Definition MsgSolid : MessageStyle := "solid".
Definition MsgDotted : MessageStyle := "dotted".
Definition MsgSolidOpen : MessageStyle := "solid_open".
Definition MsgDottedOpen : MessageStyle := "dotted_open".

Definition NotePosition := string.
Definition NoteOver : NotePosition := "over".

(** Sequence builds a Mermaid sequence diagram. *)
Record Sequence := { lines : list string }.

Definition NewSequence : Sequence := {| lines := [] |}.

Definition arrowStyle (style : MessageStyle) : string :=
  if String.eqb style MsgDotted then "-->>"
  else if String.eqb style MsgSolidOpen then "-)"
  else if String.eqb style MsgDottedOpen then "--)"
  else "->>".

(** AddParticipant adds a participant (actor) to the diagram. *)
Definition AddParticipant (id label : string) (s : Sequence) : Sequence :=
  {| lines := lines s ++ ["    participant " ++ id ++ " as " ++ label] |}.

(** AddMessage adds a message arrow between participants. *)
Definition AddMessage (from to text : string) (style : MessageStyle) (s : Sequence)
  : Sequence :=
  {| lines := lines s ++ ["    " ++ from ++ arrowStyle style ++ to ++ ": " ++ text] |}.

(** AddNote adds a note in the diagram. *)
Definition AddNote (participant text : string) (pos : NotePosition) (s : Sequence)
  : Sequence :=
  {| lines := lines s ++ ["    Note " ++ pos ++ " " ++ participant ++ ": " ++ text] |}.

(** Render produces the Mermaid sequence diagram string. *)
Definition Render (s : Sequence) : string :=
  "sequenceDiagram" ++ LF
  ++ String.concat "" (map (fun line => line ++ LF) (lines s)).

Definition RenderBlock (s : Sequence) : string := mermaid.WrapBlock (Render s).

End sequence.

(* ===================================================================== *)
(** ** Package util: what the engines write *)
(* ===================================================================== *)

Module util.

(** One piece written to a report: literal text, or the result of one of
    the formatting helpers of package util, kept with its arguments. *)
Inductive Out : Type :=
| Text (s : string)
| FormatHeader (title : string)
| FormatSubHeader (title : string)
| FormatFinding (severity message : string)
| FormatKeyValue (key value : string)
| FormatTable (headers : list string) (rows : list (list string))
| FormatTableIndented (headers : list string) (rows : list (list string)).

(** The helpers of package util that turn the pieces into text. *)
Record Formatters := {
  fmtHeader : string -> string;
  fmtSubHeader : string -> string;
  fmtFinding : string -> string -> string;
  fmtKeyValue : string -> string -> string;
  fmtTable : list string -> list (list string) -> string
}.

Definition renderOut (F : Formatters) (o : Out) : string :=
  match o with
  | Text s => s
  | FormatHeader t => fmtHeader F t
  | FormatSubHeader t => fmtSubHeader F t
  | FormatFinding sev msg => fmtFinding F sev msg
  | FormatKeyValue k v => fmtKeyValue F k v
  | FormatTable h r => fmtTable F h r
  | FormatTableIndented h r =>
      strings.ReplaceAllByte (fmtTable F h r) "010"%char (LF ++ "    ")
  end.

(** sb.String() *)
Definition render (F : Formatters) (sb : list Out) : string :=
  String.concat "" (map (renderOut F) sb).

(** The result a tool handler returns. *)
Inductive ToolResult : Type :=
| SuccessResult (report : list Out)
| HandleK8sError (action : string) (err : string).

(** The findings written to a report, in order. *)
Fixpoint findingsOf (sb : list Out) : list (string * string) :=
  match sb with
  | [] => []
  | FormatFinding sev msg :: rest => (sev, msg) :: findingsOf rest
  | _ :: rest => findingsOf rest
  end.

(** The titles of the sub-headers written to a report, in order. *)
Fixpoint subHeadersOf (sb : list Out) : list string :=
  match sb with
  | [] => []
  | FormatSubHeader t :: rest => t :: subHeadersOf rest
  | _ :: rest => subHeadersOf rest
  end.

(** The literal text pieces written to a report, in order. *)
Fixpoint textsOf (sb : list Out) : list string :=
  match sb with
  | [] => []
  | Text s :: rest => s :: textsOf rest
  | _ :: rest => textsOf rest
  end.

End util.

(** The state a tool handler threads through its sections: the builder, the
    findings counter and the suggested actions. *)
Record St := {
  sb : list util.Out;
  findings : Z;
  actions : list string
}.

Definition St0 : St := {| sb := []; findings := 0; actions := [] |}.

(** sb.WriteString of one piece. *)
Definition WriteString (o : util.Out) (s : St) : St :=
  {| sb := sb s ++ [o]; findings := findings s; actions := actions s |}.

Definition WriteAll (os : list util.Out) (s : St) : St :=
  {| sb := sb s ++ os; findings := findings s; actions := actions s |}.

(** findings++ *)
Definition findingsInc (s : St) : St :=
  {| sb := sb s; findings := incr (findings s); actions := actions s |}.

(** actions = append(actions, a) *)
Definition appendAction (a : string) (s : St) : St :=
  {| sb := sb s; findings := findings s; actions := actions s ++ [a] |}.

Definition andThen (f g : St -> St) : St -> St := fun s => g (f s).
Notation "f >> g" := (andThen f g) (at level 61, left associativity).

Definition skip : St -> St := fun s => s.

Definition when (b : bool) (f : St -> St) : St -> St := if b then f else skip.

(** A range loop whose body only writes, counts and appends. *)
Definition forEach {A : Type} (l : list A) (body : A -> St -> St) : St -> St :=
  fun s => fold_left (fun acc x => body x acc) l s.

(** A finding and the line feed written after it. *)
Definition writeFinding (sev msg : string) : St -> St :=
  WriteString (util.FormatFinding sev msg)
  >> WriteString (util.Text LF).

(** A finding formatted into an indented line:
    [fmt.Sprintf("<indent>%s\n", util.FormatFinding(sev, msg))]. *)
Definition writeFindingLine (indent sev msg : string) : St -> St :=
  WriteString (util.Text indent)
  >> WriteString (util.FormatFinding sev msg)
  >> WriteString (util.Text LF).

(* ===================================================================== *)
(** ** Package tools: the diagnostic engines *)
(* ===================================================================== *)

(** formatServicePorts returns a summary of service ports. *)
Definition formatServicePort (p : ServicePort) : string :=
  let target :=
    if String.eqb (spTargetPort p) "0" || String.eqb (spTargetPort p) ""
    then itoa (spPort p) else spTargetPort p in
  let entry := itoa (spPort p) ++ "→" ++ target in
  let entry :=
    if negb (String.eqb (spName p) "") then spName p ++ "(" ++ entry ++ ")"
    else entry in
  if negb (String.eqb (spProtocol p) "TCP") then entry ++ "/" ++ spProtocol p
  else entry.

Definition formatServicePorts (svc : Service) : string :=
  if len (Ports svc) =? 0 then "<none>"
  else strings.Join (map formatServicePort (Ports svc)) ", ".

(** A map lookup [m[k]] on a string map: the empty string when absent. *)
Fixpoint lookup (m : list (string * string)) (k : string) : string :=
  match m with
  | [] => ""
  | (k', v) :: rest => if String.eqb k' k then v else lookup rest k
  end.

(** matchesSvcSelector checks if a NetworkPolicy's pod selector would match
    a service's selector. *)
Definition matchesSvcSelector (policyLabels : list (string * string))
  (svcLabels : option (list (string * string))) : bool :=
  if len policyLabels =? 0 then true
  else forallb
         (fun kv => String.eqb (lookup (match svcLabels with Some m => m | None => [] end)
                                  (fst kv)) (snd kv))
         policyLabels.

(** A counting loop [for _, e := range events { if e.Type == "Warning" { n++ } }]. *)
Definition countWarnings (events : list Event) : Z :=
  fold_left (fun n e => if String.eqb (evType e) "Warning" then incr n else n) events 0.

(** The numbered list of suggested actions, each action once: the loop
    carries the actions seen and the next number. *)
Fixpoint dedupActions (actions seen : list string) (num : Z) : list util.Out :=
  match actions with
  | [] => []
  | a :: rest =>
      if existsb (String.eqb a) seen then dedupActions rest seen num
      else util.Text (itoa num ++ ". " ++ a ++ LF)
           :: dedupActions rest (a :: seen) (incr num)
  end.

(** The label of a pod node: the name, cut to [n] bytes and followed by
    three dots when longer. *)
Definition cutLabel (name : string) (n : nat) : string :=
  if strlen name >? Z.of_nat n then slice_to name n ++ "..." else name.

Section Engines.

(** Package util is not part of the sources at hand.  Its formatting
    helpers are the pieces of [util.Out]; the three below return strings the
    engines paste into their own lines, and are parameters.  [usageBlock]
    stands for the per-container usage lines of the resource-usage
    sections, whose float64 percentages and %.1f renderings are outside
    this model: it gives the pieces written, the number of findings
    counted and the actions appended. *)
Variable FormatAge : Z -> string.
Variable FormatLabels : option (list (string * string)) -> string.
Variable HighRestartThreshold : Z.
Variable usageBlock : list PodMetrics -> list Pod -> list util.Out * nat * list string.
Variable usageLines : list PodMetrics -> list Pod -> list util.Out.

Variable client : ClusterClient.

Definition applyUsageBlock (podMetrics : list PodMetrics) (pods : list Pod) : St -> St :=
  fun s =>
    let '(out, n, acts) := usageBlock podMetrics pods in
    {| sb := sb s ++ out;
       findings := Nat.iter n incr (findings s);
       actions := actions s ++ acts |}.

(* ------------------------------------------------------------------- *)
(** *** diagnose_request_path *)
(* ------------------------------------------------------------------- *)

Record diagnoseRequestPathInput := {
  Hostname : string;
  inputPath : string;
  inputNamespace : string
}.

(** The TLS loop: one line per TLS host equal to the traced host. *)
Definition tlsLines (ing : Ingress) (hostname : string) : St -> St :=
  forEach (TLS ing) (fun tls =>
    forEach (Hosts tls) (fun h =>
      when (String.eqb h hostname)
        (WriteString (util.Text ("    TLS: " ++ SecretName tls ++ LF))))).

Definition hasTLS (ing : Ingress) (hostname : string) : bool :=
  existsb (fun tls => existsb (fun h => String.eqb h hostname) (Hosts tls)) (TLS ing).

(** [1] INGRESS *)
Definition ingressStage (hostname : string) (ing : Ingress) (rule : IngressRule)
  (matchedPath : HTTPIngressPath) : St -> St :=
  let agicAnnotations := k8s.ParseAGICAnnotations ing in
  let ingEvents := orNil (GetEventsForObject client (ingNamespace ing) (ingName ing)) in
  let warningIngEvents := countWarnings ingEvents in
  WriteString (util.Text ("[1] INGRESS" ++ LF))
  >> WriteString (util.Text ("    Name: " ++ ingNamespace ing ++ "/" ++ ingName ing ++ LF))
  >> WriteString (util.Text ("    Host: " ++ Host rule ++ LF))
  >> WriteString (util.Text ("    Path: " ++ Path matchedPath ++ LF))
  >> match PathTypeOf matchedPath with
     | Some t => WriteString (util.Text ("    Path Type: " ++ t ++ LF))
     | None => skip
     end
  >> match IngressClassName ing with
     | Some cls => WriteString (util.Text ("    Ingress Class: " ++ cls ++ LF))
     | None => skip
     end
  >> when (len agicAnnotations >? 0)
       (WriteString (util.Text ("    AGIC Annotations:" ++ LF))
        >> forEach agicAnnotations (fun a =>
             WriteString (util.Text ("      " ++ k8s.Key a ++ ": " ++ k8s.Value a ++ LF))))
  >> tlsLines ing hostname
  >> when (negb (hasTLS ing hostname))
       (writeFinding "WARNING" "No TLS configured for this host"
        >> findingsInc
        >> appendAction ("Configure TLS for " ++ hostname))
  >> when (warningIngEvents >? 0)
       (writeFindingLine "    " "WARNING"
          (itoa warningIngEvents ++ " warning events on Ingress")
        >> forEach ingEvents (fun e =>
             when (String.eqb (evType e) "Warning")
               (WriteString (util.Text ("      - " ++ evReason e ++ ": " ++ evMessage e ++ LF))))
        >> findingsInc)
  >> WriteString (util.Text LF).

Definition backendSvcName (matchedPath : HTTPIngressPath) : string :=
  match BackendService matchedPath with
  | Some b => BackendServiceName b
  | None => ""
  end.

Definition backendSvcPort (matchedPath : HTTPIngressPath) : string :=
  match BackendService matchedPath with
  | Some b =>
      if negb (String.eqb (PortName (BackendServicePort b)) "")
      then PortName (BackendServicePort b)
      else itoa (PortNumber (BackendServicePort b))
  | None => ""
  end.

(** [2] SERVICE, once the service is found. *)
Definition serviceStage (ing : Ingress) (matchedPath : HTTPIngressPath) (svc : Service)
  : St -> St :=
  let svcEvents :=
    orNil (GetEventsForObject client (ingNamespace ing) (backendSvcName matchedPath)) in
  let warningSvcEvents := countWarnings svcEvents in
  WriteString (util.Text ("[2] SERVICE" ++ LF))
  >> WriteString (util.Text ("    Name: " ++ svcName svc ++ LF))
  >> WriteString (util.Text ("    Type: " ++ svcType svc ++ LF))
  >> WriteString (util.Text ("    ClusterIP: " ++ ClusterIP svc ++ LF))
  >> WriteString (util.Text ("    Port: " ++ backendSvcPort matchedPath
                              ++ " → targetPort: " ++ formatServicePorts svc ++ LF))
  >> WriteString (util.Text ("    Selector: " ++ FormatLabels (Selector svc) ++ LF))
  >> when (warningSvcEvents >? 0)
       (writeFindingLine "    " "WARNING"
          (itoa warningSvcEvents ++ " warning events on Service")
        >> findingsInc)
  >> WriteString (util.Text LF).

(** [3] ENDPOINTS: what is written once the endpoint health is known. *)
Definition endpointsReport (ing : Ingress) (svc : Service)
  (epHealth : result k8s.EndpointHealth) : St -> St :=
  match epHealth with
  | Err e =>
      writeFindingLine "    " "CRITICAL" ("Could not get endpoints: " ++ e)
      >> findingsInc
  | Ok h =>
      WriteString (util.Text ("    Ready: " ++ itoa (k8s.ReadyCount h) ++ "/"
                                ++ itoa (k8s.TotalEndpoints h) ++ LF))
      >> if k8s.TotalEndpoints h =? 0 then
           writeFindingLine "    " "CRITICAL"
             "Service has 0 endpoints — no pods match the selector"
           >> findingsInc
           >> appendAction ("Check that pods with labels " ++ FormatLabels (Selector svc)
                            ++ " exist in namespace " ++ ingNamespace ing)
         else if k8s.NotReadyCount h >? 0 then
           writeFindingLine "    " "WARNING"
             (itoa (k8s.NotReadyCount h) ++ " endpoint(s) not ready")
           >> forEach (k8s.NotReadyPods h) (fun nr =>
                WriteString (util.Text ("      - " ++ k8s.PodName nr
                                          ++ " (" ++ k8s.IP nr ++ ")" ++ LF)))
           >> findingsInc
         else skip
  end.

Definition endpointsStage (ing : Ingress) (matchedPath : HTTPIngressPath) (svc : Service)
  : St -> St :=
  WriteString (util.Text ("[3] ENDPOINTS" ++ LF))
  >> endpointsReport ing svc
       (k8s.GetServiceEndpointHealth client (ingNamespace ing) (backendSvcName matchedPath)).

Definition restartsOf (p : Pod) : Z := snd (podContainerSummary p).

Definition podRow (p : Pod) : list string :=
  let '(ready, total, restarts) := podContainerSummary p in
  [podName p; NodeName p; itoa ready ++ "/" ++ itoa total; itoa restarts;
   podPhaseReason p; FormatAge (podCreationTimestamp p)].

Definition noLimits (c : Container) : bool :=
  match Limits c with
  | None => true
  | Some (cpu, mem) => (cpu =? 0) && (mem =? 0)
  end.

(** The health checks on one backing pod. *)
Definition podChecks (p : Pod) : St -> St :=
  when (negb (isPodHealthy p))
    (writeFindingLine "    " "CRITICAL"
       ("Pod '" ++ podName p ++ "' is unhealthy: " ++ podPhaseReason p)
     >> findingsInc
     >> appendAction ("Diagnose pod '" ++ podName p ++ "' with diagnose_pod tool"))
  >> when (restartsOf p >? HighRestartThreshold)
       (writeFindingLine "    " "WARNING"
          ("Pod '" ++ podName p ++ "' has " ++ itoa (restartsOf p) ++ " restarts")
        >> findingsInc)
  >> forEach (Containers p) (fun c =>
       when (noLimits c)
         (writeFindingLine "    " "INFO"
            ("Pod '" ++ podName p ++ "' container '" ++ cName c
             ++ "' has no resource limits")
          >> findingsInc))
  >> forEach (Containers p) (fun c =>
       when (negb (ReadinessProbe c))
         (writeFindingLine "    " "WARNING"
            ("Pod '" ++ podName p ++ "' container '" ++ cName c
             ++ "' has no readiness probe")
          >> findingsInc
          >> appendAction ("Add readiness probe to container '" ++ cName c ++ "'"))
       >> when (negb (LivenessProbe c))
            (writeFindingLine "    " "INFO"
               ("Pod '" ++ podName p ++ "' container '" ++ cName c
                ++ "' has no liveness probe"))).

(** The backing pods, written when the lookup succeeded with pods. *)
Definition podsStage (podsResult : result (list Pod)) : St -> St :=
  match podsResult with
  | Err _ => skip
  | Ok pods =>
      when (len pods >? 0)
        (WriteString (util.Text (LF ++ "    PODS:" ++ LF))
         >> WriteString (util.Text "    ")
         >> WriteString (util.FormatTableIndented
                           ["POD"; "NODE"; "READY"; "RESTARTS"; "STATUS"; "AGE"]
                           (map podRow pods))
         >> WriteString (util.Text LF)
         >> forEach pods podChecks)
  end.

(** [4] RESOURCE USAGE *)
Definition resourceUsageStage (ing : Ingress) (pods : list Pod) : St -> St :=
  WriteString (util.Text (LF ++ "[4] RESOURCE USAGE" ++ LF))
  >> match GetPodMetrics client (ingNamespace ing) with
     | Err _ => WriteString (util.Text ("    (metrics-server not available)" ++ LF))
     | Ok podMetrics => when (len pods >? 0) (applyUsageBlock podMetrics pods)
     end.

Definition summaryStage : St -> St :=
  fun s =>
    (WriteString (util.Text LF)
     >> WriteString (util.FormatSubHeader "Summary")
     >> WriteString (util.Text LF)
     >> (if findings s =? 0
         then WriteString (util.Text ("  Request path appears healthy. All layers operational." ++ LF))
         else WriteString (util.Text ("  " ++ itoa (findings s)
                                        ++ " finding(s) across the request path." ++ LF)))
     >> when (len (actions s) >? 0)
          (WriteString (util.Text (LF ++ "SUGGESTED ACTIONS:" ++ LF))
           >> WriteAll (dedupActions (actions s) [] 1))) s.

(** The pod nodes of the topology flowchart. *)
Definition addPodNode (p : Pod) (fc : mermaid.Flowchart) : mermaid.Flowchart :=
  let podID := mermaid.SafeID ("pod_" ++ podName p) in
  let label := cutLabel (podName p) 30 in
  let healthy := isPodHealthy p in
  let fc := mermaid.AddNode podID label mermaid.ShapeRound fc in
  let fc := mermaid.AddEdge "svc" podID "" mermaid.EdgeSolid fc in
  if negb healthy then mermaid.AddStyle podID mermaid.SeverityCritical fc
  else mermaid.AddStyle podID mermaid.SeverityHealthy fc.

(** The topology flowchart of the request path. *)
Definition requestPathTopology (ing : Ingress) (rule : IngressRule)
  (matchedPath : HTTPIngressPath) (svc : Service) (pods : list Pod)
  : mermaid.Flowchart :=
  let fc := mermaid.NewFlowchart mermaid.DirectionTB in
  let fc := mermaid.AddNode "internet" "Internet" mermaid.ShapeCircle fc in
  let fc := mermaid.AddNode "agw"
              ("Ingress: " ++ ingName ing ++ mermaid.BR ++ mermaid.BR ++ ": "
               ++ Host rule ++ "  Path: " ++ Path matchedPath)
              mermaid.ShapeTrapAlt fc in
  let fc := mermaid.AddNode "svc"
              ("Service: " ++ svcName svc ++ mermaid.BR ++ "ClusterIP:"
               ++ backendSvcPort matchedPath)
              mermaid.ShapeRect fc in
  let fc := mermaid.AddEdge "internet" "agw" "HTTPS" mermaid.EdgeSolid fc in
  let fc := mermaid.AddEdge "agw" "svc" "" mermaid.EdgeSolid fc in
  let fc := mermaid.AddRawStyle "agw" "fill:#cce5ff,stroke:#4a90d9,stroke-width:2px" fc in
  fold_left (fun fc p => addPodNode p fc) pods fc.

(** The notes on the ingress participant of the request flow. *)
Definition ingNotes (ing : Ingress) (hostname : string) : list string :=
  List.app ["Route matching"]
    (List.app (if hasTLS ing hostname then ["TLS termination"] else [])
       (flat_map (fun a =>
          List.app
            (if String.eqb (k8s.Key a) "request-timeout"
             then ["Timeout: " ++ k8s.Value a ++ "s"] else [])
            (if String.eqb (k8s.Key a) "backend-protocol"
             then ["Backend: " ++ k8s.Value a] else []))
          (k8s.ParseAGICAnnotations ing))).

(** The sequence diagram of the request flow. *)
Definition requestFlow (hostname path : string) (ing : Ingress)
  (matchedPath : HTTPIngressPath) (svc : Service)
  (epHealth : result k8s.EndpointHealth) (pods : list Pod) : sequence.Sequence :=
  let seq := sequence.NewSequence in
  let seq := sequence.AddParticipant "client" "Client" seq in
  let seq := sequence.AddParticipant "ing" ("Ingress: " ++ ingName ing) seq in
  let seq := sequence.AddParticipant "svc" ("Service: " ++ svcName svc) seq in
  match pods with
  | [] => seq
  | p :: _ =>
      let podLabel := cutLabel (podName p) 25 in
      let seq := sequence.AddParticipant "pod" ("Pod: " ++ podLabel) seq in
      let seq := sequence.AddMessage "client" "ing" ("HTTPS " ++ "GET" ++ " " ++ path)
                   sequence.MsgSolid seq in
      let seq := sequence.AddNote "ing" (strings.Join (ingNotes ing hostname) mermaid.BR)
                   sequence.NoteOver seq in
      let seq := sequence.AddMessage "ing" "svc"
                   ("Forward to " ++ backendSvcPort matchedPath) sequence.MsgSolid seq in
      let svcNote :=
        match epHealth with
        | Ok h => itoa (k8s.ReadyCount h) ++ "/" ++ itoa (k8s.TotalEndpoints h)
                  ++ " endpoints ready"
        | Err _ => itoa 0 ++ "/" ++ itoa 0 ++ " endpoints ready"
        end in
      let seq := sequence.AddNote "svc" svcNote sequence.NoteOver seq in
      let seq := sequence.AddMessage "svc" "pod" "Forward to pod" sequence.MsgSolid seq in
      let seq := sequence.AddMessage "pod" "svc" "Response" sequence.MsgDotted seq in
      let seq := sequence.AddMessage "svc" "ing" "Response" sequence.MsgDotted seq in
      sequence.AddMessage "ing" "client" "Response" sequence.MsgDotted seq
  end.

(** The actions numbered from one, as written when the backend service is
    missing. *)
Fixpoint numberedActions (i : Z) (actions : list string) : list util.Out :=
  match actions with
  | [] => []
  | a :: rest =>
      util.Text (itoa (wrap64 (i + 1)) ++ ". " ++ a ++ LF)
      :: numberedActions (incr i) rest
  end.

(** The stages run once ingress and service are found. *)
Definition requestPathStages (hostname path : string) (ing : Ingress)
  (rule : IngressRule) (matchedPath : HTTPIngressPath) (svc : Service) : St -> St :=
  let epHealth :=
    k8s.GetServiceEndpointHealth client (ingNamespace ing) (backendSvcName matchedPath) in
  let podsResult := k8s.GetPodsForService client svc in
  let pods := orNil podsResult in
  serviceStage ing matchedPath svc
  >> endpointsStage ing matchedPath svc
  >> podsStage podsResult
  >> resourceUsageStage ing pods
  >> summaryStage
  >> WriteString (util.Text (LF ++ "TOPOLOGY:" ++ LF))
  >> WriteString (util.Text
       (mermaid.RenderBlock (requestPathTopology ing rule matchedPath svc pods)))
  >> WriteString (util.Text (LF ++ LF ++ "REQUEST FLOW:" ++ LF))
  >> WriteString (util.Text
       (sequence.RenderBlock
          (requestFlow hostname path ing matchedPath svc epHealth pods))).

(** The handler of the diagnose_request_path tool. *)
Definition diagnose_request_path (input : diagnoseRequestPathInput) : util.ToolResult :=
  let path := if String.eqb (inputPath input) "" then "/" else inputPath input in
  let ns := inputNamespace input in
  let s :=
    (WriteString (util.FormatHeader ("Request Path: https://" ++ Hostname input ++ path))
     >> WriteString (util.Text (LF ++ LF))) St0 in
  match k8s.FindIngressForHostPath client ns (Hostname input) path with
  | Err _ =>
      util.SuccessResult (sb (
        (writeFinding "CRITICAL" ("No Ingress found for " ++ Hostname input ++ path)
         >> WriteString (util.Text
              ("  Searched all namespaces for matching Ingress host+path rules." ++ LF))
         >> WriteString (util.Text (LF ++ "SUGGESTED ACTIONS:" ++ LF))
         >> WriteString (util.Text
              ("1. Create an Ingress resource with host: " ++ Hostname input
               ++ " and path: " ++ path ++ LF))
         >> WriteString (util.Text
              ("2. Use list_ingresses to see existing Ingress resources" ++ LF))) s))
  | Ok (ing, rule, matchedPath) =>
      let s := ingressStage (Hostname input) ing rule matchedPath s in
      if String.eqb (backendSvcName matchedPath) "" then
        util.SuccessResult (sb (
          writeFinding "CRITICAL" "No backend service configured in Ingress path" s))
      else
        match GetService client (ingNamespace ing) (backendSvcName matchedPath) with
        | Err _ =>
            let s :=
              (WriteString (util.Text ("[2] SERVICE" ++ LF))
               >> writeFindingLine "    " "CRITICAL"
                    ("Backend service '" ++ backendSvcName matchedPath
                     ++ "' not found in namespace '" ++ ingNamespace ing ++ "'")
               >> findingsInc
               >> appendAction ("Create service '" ++ backendSvcName matchedPath
                                ++ "' in namespace '" ++ ingNamespace ing ++ "'")
               >> WriteString (util.Text (LF ++ "SUGGESTED ACTIONS:" ++ LF))) s in
            util.SuccessResult (sb (WriteAll (numberedActions 0 (actions s)) s))
        | Ok svc =>
            util.SuccessResult (sb (
              requestPathStages (Hostname input) path ing rule matchedPath svc s))
        end
  end.

(* ------------------------------------------------------------------- *)
(** *** diagnose_service *)
(* ------------------------------------------------------------------- *)

Record diagnoseServiceInput := {
  dsNamespace : string;
  dsServiceName : string
}.

(** 1. Service spec *)
Definition serviceConfiguration (svc : Service) : St -> St :=
  WriteString (util.FormatSubHeader "Service Configuration")
  >> WriteString (util.Text LF)
  >> WriteString (util.Text ("  Type: " ++ svcType svc ++ LF))
  >> WriteString (util.Text ("  ClusterIP: " ++ ClusterIP svc ++ LF))
  >> WriteString (util.Text ("  Ports: " ++ formatServicePorts svc ++ LF))
  >> WriteString (util.Text ("  Selector: " ++ FormatLabels (Selector svc) ++ LF))
  >> WriteString (util.Text ("  Session Affinity: " ++ SessionAffinity svc ++ LF))
  >> WriteString (util.Text ("  Age: " ++ FormatAge (svcCreationTimestamp svc) ++ LF)).

(** 2. Endpoint health *)
Definition endpointHealthSection (epHealth : result k8s.EndpointHealth) : St -> St :=
  WriteString (util.Text LF)
  >> WriteString (util.FormatSubHeader "Endpoint Health")
  >> WriteString (util.Text LF)
  >> match epHealth with
     | Err e =>
         writeFindingLine "  " "CRITICAL" ("Could not get endpoints: " ++ e)
         >> findingsInc
     | Ok h =>
         WriteString (util.Text ("  Total: " ++ itoa (k8s.TotalEndpoints h)
                                   ++ ", Ready: " ++ itoa (k8s.ReadyCount h)
                                   ++ ", NotReady: " ++ itoa (k8s.NotReadyCount h) ++ LF))
         >> if k8s.TotalEndpoints h =? 0 then
              writeFindingLine "  " "CRITICAL"
                "Service has 0 endpoints — no pods match the selector"
              >> findingsInc
            else if k8s.NotReadyCount h >? 0 then
              writeFindingLine "  " "WARNING"
                (itoa (k8s.NotReadyCount h) ++ " endpoint(s) not ready")
              >> findingsInc
            else writeFindingLine "  " "OK" "All endpoints ready"
     end.

Definition servicePodRow (p : Pod) : list string :=
  let '(ready, total, restarts) := podContainerSummary p in
  [podName p; podPhaseReason p; itoa ready ++ "/" ++ itoa total; itoa restarts;
   NodeName p; FormatAge (podCreationTimestamp p)].

(** The count of the second loop over the pods. *)
Definition unhealthyPods (pods : list Pod) : Z :=
  fold_left (fun n p => if negb (isPodHealthy p) then incr n else n) pods 0.

(** 3. Backing pods *)
Definition backingPodsSection (podsResult : result (list Pod)) : St -> St :=
  match podsResult with
  | Err _ => skip
  | Ok pods =>
      when (len pods >? 0)
        (WriteString (util.Text LF)
         >> WriteString (util.FormatSubHeader "Backing Pods")
         >> WriteString (util.Text LF)
         >> forEach pods (fun p => when (negb (isPodHealthy p)) findingsInc)
         >> WriteString (util.FormatTable
                           ["POD"; "STATUS"; "READY"; "RESTARTS"; "NODE"; "AGE"]
                           (map servicePodRow pods))
         >> when (unhealthyPods pods >? 0)
              (writeFindingLine (LF ++ "  ") "CRITICAL"
                 (itoa (unhealthyPods pods) ++ "/" ++ itoa (len pods)
                  ++ " pods are unhealthy")))
  end.

(** 4. Resource usage *)
Definition serviceUsageSection (ns : string) (pods : list Pod) : St -> St :=
  match GetPodMetrics client ns with
  | Err _ => skip
  | Ok podMetrics =>
      when (len pods >? 0)
        (WriteString (util.Text LF)
         >> WriteString (util.FormatSubHeader "Resource Usage")
         >> WriteString (util.Text LF)
         >> WriteAll (usageLines podMetrics pods))
  end.

(** The paths of one ingress that route to the service. *)
Definition exposingPaths (serviceName : string) (ing : Ingress)
  : list (IngressRule * HTTPIngressPath) :=
  flat_map (fun rule =>
    match HTTP rule with
    | None => []
    | Some paths =>
        map (fun p => (rule, p))
          (filter (fun p =>
             match BackendService p with
             | Some b => String.eqb (BackendServiceName b) serviceName
             | None => false
             end) paths)
    end) (Rules ing).

(** 5. Ingress exposure *)
Definition ingressExposureSection (ns serviceName : string) : St -> St :=
  match ListIngresses client ns with
  | Err _ => skip
  | Ok ingresses =>
      let exposedVia :=
        fold_left (fun n ing =>
          fold_left (fun n _ => incr n) (exposingPaths serviceName ing) n) ingresses 0 in
      WriteString (util.Text LF)
      >> WriteString (util.FormatSubHeader "Ingress Exposure")
      >> WriteString (util.Text LF)
      >> forEach ingresses (fun ing =>
           forEach (exposingPaths serviceName ing) (fun rp =>
             WriteString (util.Text ("  Ingress '" ++ ingName ing ++ "': "
                                       ++ Host (fst rp) ++ Path (snd rp) ++ LF))))
      >> when (exposedVia =? 0)
           (WriteString (util.Text ("  Not exposed via any Ingress" ++ LF)))
  end.

(** 6. Network policies *)
Definition networkPoliciesSection (ns : string) (svc : Service) : St -> St :=
  match ListNetworkPolicies client ns with
  | Err _ => skip
  | Ok netPols =>
      let applies np := matchesSvcSelector (MatchLabels (PodSelector np)) (Selector svc) in
      let matchingPols := fold_left (fun n np => if applies np then incr n else n) netPols 0 in
      WriteString (util.Text LF)
      >> WriteString (util.FormatSubHeader "Network Policies")
      >> WriteString (util.Text LF)
      >> forEach netPols (fun np =>
           when (applies np)
             (WriteString (util.Text ("  Policy '" ++ npName np
                                        ++ "' applies to this service's pods" ++ LF))))
      >> if (matchingPols =? 0) && (len netPols >? 0) then
           WriteString (util.Text
             ("  No network policies target this service's pods (all traffic allowed)" ++ LF))
         else if len netPols =? 0 then
           WriteString (util.Text
             ("  No network policies in namespace (all traffic allowed)" ++ LF))
         else skip
  end.

(** The lines written for one event of the Recent Events section. *)
Definition eventLines (e : Event) : St -> St :=
  let marker := if String.eqb (evType e) "Warning" then "  [WARNING] " else "  " in
  WriteString (util.Text (marker ++ evReason e ++ ": " ++ evMessage e))
  >> when (evCount e >? 1)
       (WriteString (util.Text (" (x" ++ itoa (evCount e) ++ ")")))
  >> WriteString (util.Text LF).

(** The loop over the events: it tests the length of the whole slice at
    the top of every iteration and breaks when that exceeds ten. *)
Fixpoint eventsLoop (events remaining : list Event) : St -> St :=
  match remaining with
  | [] => skip
  | e :: rest =>
      if len events >? 10 then skip
      else eventLines e >> eventsLoop events rest
  end.

(** 7. Recent events *)
Definition recentEventsSection (events : list Event) : St -> St :=
  when (len events >? 0)
    (WriteString (util.Text LF)
     >> WriteString (util.FormatSubHeader "Recent Events")
     >> WriteString (util.Text LF)
     >> eventsLoop events events).

(** 8. Overall *)
Definition assessmentSection : St -> St :=
  fun s =>
    (WriteString (util.Text LF)
     >> WriteString (util.FormatSubHeader "Assessment")
     >> WriteString (util.Text LF)
     >> (if findings s =? 0
         then WriteString (util.Text
                ("  Service appears healthy. All endpoints ready, pods running." ++ LF))
         else WriteString (util.Text
                ("  " ++ itoa (findings s) ++ " finding(s) identified. Review details above."
                 ++ LF)))) s.

Definition addServicePodNode (svcID : string) (p : Pod) (fc : mermaid.Flowchart)
  : mermaid.Flowchart :=
  let podID := mermaid.SafeID ("pod_" ++ podName p) in
  let podLabel := cutLabel (podName p) 25 in
  let fc := mermaid.AddNode podID podLabel mermaid.ShapeRound fc in
  let fc := mermaid.AddEdge svcID podID "" mermaid.EdgeSolid fc in
  if isPodHealthy p then mermaid.AddStyle podID mermaid.SeverityHealthy fc
  else mermaid.AddStyle podID mermaid.SeverityCritical fc.

(** 9. Mermaid diagram *)
Definition serviceContext (svc : Service) (pods : list Pod) : mermaid.Flowchart :=
  let fc := mermaid.NewFlowchart mermaid.DirectionLR in
  let svcID := mermaid.SafeID ("svc_" ++ svcName svc) in
  let fc := mermaid.AddNode svcID
              ("Service: " ++ svcName svc ++ mermaid.BR ++ formatServicePorts svc)
              mermaid.ShapeRect fc in
  let fc := mermaid.AddRawStyle svcID "fill:#cce5ff,stroke:#4a90d9,stroke-width:2px" fc in
  fold_left (fun fc p => addServicePodNode svcID p fc) pods fc.

(** The sections of the report, in order, once the service is found. *)
Definition serviceSections (input : diagnoseServiceInput) (svc : Service) : St -> St :=
  let podsResult := k8s.GetPodsForService client svc in
  let pods := orNil podsResult in
  WriteString (util.FormatHeader ("Service Diagnosis: " ++ svcName svc
                                    ++ " (namespace: " ++ svcNamespace svc ++ ")"))
  >> WriteString (util.Text (LF ++ LF))
  >> serviceConfiguration svc
  >> endpointHealthSection
       (k8s.GetServiceEndpointHealth client (dsNamespace input) (dsServiceName input))
  >> backingPodsSection podsResult
  >> serviceUsageSection (dsNamespace input) pods
  >> ingressExposureSection (dsNamespace input) (dsServiceName input)
  >> networkPoliciesSection (dsNamespace input) svc
  >> recentEventsSection
       (orNil (GetEventsForObject client (dsNamespace input) (dsServiceName input)))
  >> assessmentSection
  >> WriteString (util.Text (LF ++ "SERVICE CONTEXT:" ++ LF))
  >> WriteString (util.Text (mermaid.RenderBlock (serviceContext svc pods))).

(** The handler of the diagnose_service tool. *)
Definition diagnose_service (input : diagnoseServiceInput) : util.ToolResult :=
  match GetService client (dsNamespace input) (dsServiceName input) with
  | Err e =>
      util.HandleK8sError
        ("getting service " ++ dsNamespace input ++ "/" ++ dsServiceName input) e
  | Ok svc => util.SuccessResult (sb (serviceSections input svc St0))
  end.

(* ------------------------------------------------------------------- *)
(** *** analyze_network_policies *)
(* ------------------------------------------------------------------- *)

(** Helpers of this tool that are not part of the sources at hand
    (formatLabelSelector) or belong to apimachinery
    (metav1.LabelSelectorAsSelector, which may fail, and the Matches of
    the selector it returns). *)
Variable formatLabelSelector : LabelSelector -> string.
Variable LabelSelectorAsSelector :
  LabelSelector -> result (list (string * string) -> bool).

(** The two flags every loop over the policies recomputes: the policy
    types that are present, Ingress being inferred when none is listed. *)
Definition hasIngress (np : NetworkPolicy) : bool :=
  existsb (fun pt => String.eqb pt PolicyTypeIngress) (PolicyTypes np)
  || (len (PolicyTypes np) =? 0).

Definition hasEgress (np : NetworkPolicy) : bool :=
  existsb (fun pt => String.eqb pt PolicyTypeEgress) (PolicyTypes np).

Definition isActive (pod : Pod) : bool :=
  negb (String.eqb (Phase pod) PodSucceeded || String.eqb (Phase pod) PodFailed).

(** The policies whose selector converts and matches the pod's labels. *)
Definition matchingPolicies (policies : list NetworkPolicy) (pod : Pod)
  : list NetworkPolicy :=
  filter (fun np =>
    match LabelSelectorAsSelector (PodSelector np) with
    | Err _ => false
    | Ok matches => matches (podLabels pod)
    end) policies.

(** The keys of the coveredPods map. *)
Definition coveredPods (policies : list NetworkPolicy) (pods : list Pod) : list string :=
  nodup string_dec
    (map podName
       (filter (fun pod => isActive pod && (len (matchingPolicies policies pod) >? 0)) pods)).

Definition uncoveredPods (policies : list NetworkPolicy) (pods : list Pod) : list string :=
  map podName
    (filter (fun pod => isActive pod && (len (matchingPolicies policies pod) =? 0)) pods).

Definition policyRow (np : NetworkPolicy) : list string :=
  [npName np;
   formatLabelSelector (PodSelector np);
   itoa (len (IngressRules np));
   itoa (len (EgressRules np));
   strings.Join (if len (PolicyTypes np) =? 0 then ["Ingress"] else PolicyTypes np) ","].

(** The numbered ALLOW lines of one direction. *)
Fixpoint allowLines (direction : string) (i : Z) (rules : list NetworkPolicyRule)
  : list util.Out :=
  match rules with
  | [] => []
  | rule :: rest =>
      util.Text ("    " ++ direction ++ " Rule " ++ itoa (wrap64 (i + 1)) ++ ": ALLOW "
                 ++ strings.Join (ruleParts rule) "; " ++ LF)
      :: allowLines direction (incr i) rest
  end.

(** What the allow/deny matrix says about inbound traffic of a policy. *)
Definition ingressMatrix (np : NetworkPolicy) : list util.Out :=
  if hasIngress np then
    if len (IngressRules np) =? 0
    then [util.Text ("    Ingress: DENY ALL" ++ LF)]
    else allowLines "Ingress" 0 (IngressRules np)
  else [].

Definition egressMatrix (np : NetworkPolicy) : list util.Out :=
  if hasEgress np then
    if len (EgressRules np) =? 0
    then [util.Text ("    Egress: DENY ALL" ++ LF)]
    else allowLines "Egress" 0 (EgressRules np)
  else [].

(** The allow/deny matrix of one policy. *)
Definition policyMatrix (np : NetworkPolicy) : St -> St :=
  WriteString (util.Text (LF ++ "  Policy: " ++ npName np ++ LF))
  >> WriteString (util.Text ("    Selects: " ++ formatLabelSelector (PodSelector np) ++ LF))
  >> WriteAll (ingressMatrix np)
  >> WriteAll (egressMatrix np).

Definition ingressDenyMessage (np : NetworkPolicy) : string :=
  "Policy '" ++ npName np
  ++ "' has Ingress type but no ingress rules — all inbound traffic DENIED to matched pods".

Definition egressDenyMessage (np : NetworkPolicy) : string :=
  "Policy '" ++ npName np
  ++ "' has Egress type but no egress rules — all outbound traffic DENIED from matched pods (including DNS)".

(** The findings about one policy; [findingsCount] is the counter of this
    tool. *)
Definition policyFindings (np : NetworkPolicy) : St -> St :=
  when (hasIngress np && (len (IngressRules np) =? 0))
    (writeFinding "CRITICAL" (ingressDenyMessage np) >> findingsInc)
  >> when (hasEgress np && (len (EgressRules np) =? 0))
       (writeFinding "CRITICAL" (egressDenyMessage np) >> findingsInc)
  >> when ((len (MatchLabels (PodSelector np)) =? 0)
           && (MatchExpressions (PodSelector np) =? 0))
       (writeFinding "INFO" ("Policy '" ++ npName np ++ "' selects ALL pods in namespace")
        >> findingsInc).

(** The label of the edges of a rule: its non-nil ports, comma-separated. *)
Definition portLabel (rule : NetworkPolicyRule) : string :=
  if len (rulePorts rule) >? 0 then
    let portParts :=
      flat_map (fun p => match p with Some t => [t] | None => [] end) (rulePorts rule) in
    if len portParts >? 0 then strings.Join portParts "," else ""
  else "".

(** The edges of one rule in the allowed-traffic subgraph; the state is
    the subgraph and the running edge index. *)
Definition allowedRule (inbound : bool) (policyID targetID : string)
  (st : mermaid.Subgraph * Z) (rule : NetworkPolicyRule) : mermaid.Subgraph * Z :=
  fold_left (fun st peer =>
    let '(sg, edgeIdx) := st in
    let peerID :=
      mermaid.SafeID ((if inbound then "src_" else "dst_") ++ policyID ++ "_" ++ itoa edgeIdx) in
    let sg := mermaid.SubgraphAddNode peerID peer mermaid.ShapeStadium sg in
    let sg :=
      if inbound
      then mermaid.SubgraphAddEdge peerID targetID (portLabel rule) mermaid.EdgeSolid sg
      else mermaid.SubgraphAddEdge targetID peerID (portLabel rule) mermaid.EdgeSolid sg in
    (sg, incr edgeIdx)) (rulePeers rule) st.

Definition allowedPolicy (st : mermaid.Subgraph * Z) (np : NetworkPolicy)
  : mermaid.Subgraph * Z :=
  let policyID := mermaid.SafeID ("policy_" ++ npName np) in
  match LabelSelectorAsSelector (PodSelector np) with
  | Err _ => st
  | Ok _ =>
      let targetID := mermaid.SafeID ("target_" ++ npName np) in
      let st :=
        (mermaid.SubgraphAddNode targetID
           ("Pods: " ++ formatLabelSelector (PodSelector np)) mermaid.ShapeRect (fst st),
         snd st) in
      let st := fold_left (allowedRule true policyID targetID) (IngressRules np) st in
      fold_left (allowedRule false policyID targetID) (EgressRules np) st
  end.

Definition deniesIngress (np : NetworkPolicy) : bool :=
  hasIngress np && (len (IngressRules np) =? 0).

Definition deniesEgress (np : NetworkPolicy) : bool :=
  hasEgress np && (len (EgressRules np) =? 0).

Definition deniedPolicy (st : mermaid.Subgraph * Z) (np : NetworkPolicy)
  : mermaid.Subgraph * Z :=
  let '(sg, denyIdx) := st in
  let denyTargetID := mermaid.SafeID ("deny_target_" ++ npName np) in
  let sg := mermaid.SubgraphAddNode denyTargetID
              ("Pods: " ++ formatLabelSelector (PodSelector np)) mermaid.ShapeRect sg in
  let '(sg, denyIdx) :=
    if deniesIngress np then
      let blockSrcID := mermaid.SafeID ("deny_src_" ++ itoa denyIdx) in
      let sg := mermaid.SubgraphAddNode blockSrcID "All Inbound" mermaid.ShapeStadium sg in
      (mermaid.SubgraphAddEdge blockSrcID denyTargetID "denied" mermaid.EdgeDotted sg,
       incr denyIdx)
    else (sg, denyIdx) in
  if deniesEgress np then
    let blockDstID := mermaid.SafeID ("deny_dst_" ++ itoa denyIdx) in
    let sg := mermaid.SubgraphAddNode blockDstID "All Outbound" mermaid.ShapeStadium sg in
    (mermaid.SubgraphAddEdge denyTargetID blockDstID "denied" mermaid.EdgeDotted sg,
     incr denyIdx)
  else (sg, denyIdx).

(** The flow diagram of the audit. *)
Definition networkFlowDiagram (policies : list NetworkPolicy) (pods : list Pod)
  : mermaid.Flowchart :=
  let fc := mermaid.NewFlowchart mermaid.DirectionLR in
  let fc := mermaid.AddSubgraph "allowed_traffic" "Allowed Traffic"
              (fst (fold_left allowedPolicy policies (mermaid.NewSubgraph, 0))) fc in
  let hasDeniedFlows := existsb (fun np => deniesIngress np || deniesEgress np) policies in
  if hasDeniedFlows || (len (uncoveredPods policies pods) >? 0) then
    mermaid.AddSubgraph "denied_traffic" "Denied by Policy"
      (fst (fold_left deniedPolicy policies (mermaid.NewSubgraph, 0))) fc
  else fc.

(** The diagram of a namespace without policies. *)
Definition defaultAllowDiagram (ns : string) : mermaid.Flowchart :=
  let fc := mermaid.NewFlowchart mermaid.DirectionLR in
  let fc := mermaid.AddNode "ANY_SRC" "Any Source" mermaid.ShapeStadium fc in
  let fc := mermaid.AddNode "NS" ("All Pods in " ++ ns) mermaid.ShapeRect fc in
  let fc := mermaid.AddNode "ANY_DST" "Any Destination" mermaid.ShapeStadium fc in
  let fc := mermaid.AddEdge "ANY_SRC" "NS" "allowed" mermaid.EdgeSolid fc in
  mermaid.AddEdge "NS" "ANY_DST" "allowed" mermaid.EdgeSolid fc.

(** The FINDINGS block: the counter starts at zero here. *)
Definition policyFindingsBlock (policies : list NetworkPolicy) (pods : list Pod)
  : St -> St :=
  let uncovered := uncoveredPods policies pods in
  WriteString (util.Text (LF ++ "FINDINGS:" ++ LF))
  >> when (len uncovered >? 0)
       (writeFinding "WARNING"
          (itoa (len uncovered)
           ++ " pods have no matching network policy — all traffic allowed by default")
        >> forEach uncovered (fun p => WriteString (util.Text ("  - " ++ p ++ LF)))
        >> findingsInc)
  >> forEach policies policyFindings
  >> fun s =>
       when (findings s =? 0)
         (WriteString (util.Text ("  Network policies appear well-configured." ++ LF))) s.

(** The report for a namespace that has policies. *)
Definition policyAnalysis (policies : list NetworkPolicy) (pods : list Pod) : St -> St :=
  WriteString (util.FormatSubHeader "Policy Summary")
  >> WriteString (util.Text LF)
  >> WriteString (util.FormatTable
                    ["POLICY"; "POD SELECTOR"; "INGRESS RULES"; "EGRESS RULES"; "TYPES"]
                    (map policyRow policies))
  >> WriteString (util.Text LF)
  >> WriteString (util.FormatSubHeader "Pod Coverage")
  >> WriteString (util.Text LF)
  >> WriteString (util.Text ("  Active Pods: "
                              ++ itoa (fold_left (fun n pod => if isActive pod then incr n else n)
                                         pods 0) ++ LF))
  >> WriteString (util.Text ("  Covered by Policy: "
                              ++ itoa (len (coveredPods policies pods)) ++ LF))
  >> WriteString (util.Text ("  No Policy Match: "
                              ++ itoa (len (uncoveredPods policies pods)) ++ LF))
  >> WriteString (util.Text LF)
  >> WriteString (util.FormatSubHeader "Allow/Deny Matrix")
  >> WriteString (util.Text LF)
  >> forEach policies policyMatrix
  >> policyFindingsBlock policies pods
  >> WriteString (util.Text (LF ++ "NETWORK FLOW DIAGRAM:" ++ LF))
  >> WriteString (util.Text (mermaid.RenderBlock (networkFlowDiagram policies pods)))
  >> WriteString (util.Text LF).

(** The handler of the analyze_network_policies tool. *)
Definition analyze_network_policies (ns : string) : util.ToolResult :=
  match ListNetworkPolicies client ns with
  | Err e => util.HandleK8sError "listing network policies" e
  | Ok policies =>
      match ListPods client ns "" with
      | Err e => util.HandleK8sError "listing pods" e
      | Ok pods =>
          let s :=
            (WriteString (util.FormatHeader
                            ("Network Policy Analysis (namespace: " ++ ns ++ ")"))
             >> WriteString (util.Text (LF ++ LF))) St0 in
          if len policies =? 0 then
            util.SuccessResult (sb (
              (writeFinding "WARNING"
                 "No network policies found in this namespace — all traffic is allowed by default"
               >> WriteString (util.Text
                    ("  " ++ itoa (len pods)
                     ++ " pods are running without any network policy protection." ++ LF))
               >> WriteString (util.Text (LF ++ "NETWORK FLOW DIAGRAM:" ++ LF))
               >> WriteString (util.Text (mermaid.RenderBlock (defaultAllowDiagram ns)))
               >> WriteString (util.Text LF)) s))
          else util.SuccessResult (sb (policyAnalysis policies pods s))
      end
  end.

(* ------------------------------------------------------------------- *)
(** *** check_dns_health *)
(* ------------------------------------------------------------------- *)

(** Find CoreDNS pods: by the k8s-app label, then by the
    app.kubernetes.io/name label, then by name prefix among all pods of
    kube-system.  A failure of one of the first two lookups fails the
    tool; a failure of the last one leaves the list empty. *)
Definition findCoreDNSPods : result (list Pod) :=
  match ListPods client "kube-system" "k8s-app=kube-dns" with
  | Err e => Err e
  | Ok coreDNSPods =>
      let second :=
        if len coreDNSPods =? 0
        then ListPods client "kube-system" "app.kubernetes.io/name=coredns"
        else Ok coreDNSPods in
      match second with
      | Err e => Err e
      | Ok coreDNSPods =>
          if len coreDNSPods =? 0 then
            match ListPods client "kube-system" "" with
            | Ok allKubeSystemPods =>
                Ok (List.app coreDNSPods
                      (filter (fun pod => strings.HasPrefix (podName pod) "coredns-")
                         allKubeSystemPods))
            | Err _ => Ok coreDNSPods
            end
          else Ok coreDNSPods
      end
  end.

Definition dnsPodRow (p : Pod) : list string :=
  let '(ready, total, restarts) := podContainerSummary p in
  [podName p; podPhaseReason p; itoa ready ++ "/" ++ itoa total; itoa restarts;
   FormatAge (podCreationTimestamp p); NodeName p].

Definition isWaitingFor (reason : string) (st : ContainerState) : bool :=
  match Waiting st with
  | Some w => String.eqb (WaitingReason w) reason
  | None => false
  end.

Definition wasTerminatedFor (reason : string) (st : ContainerState) : bool :=
  match Terminated st with
  | Some t => String.eqb (TerminatedReason t) reason
  | None => false
  end.

(** The findings about one CoreDNS pod. *)
Definition dnsPodFindings (p : Pod) : St -> St :=
  when (negb (String.eqb (Phase p) PodRunning))
    (writeFinding "CRITICAL"
       ("CoreDNS pod '" ++ podName p ++ "' is " ++ Phase p ++ " (not Running)")
     >> findingsInc)
  >> (if restartsOf p >? HighRestartThreshold then
        writeFinding "WARNING"
          ("CoreDNS pod '" ++ podName p ++ "' has " ++ itoa (restartsOf p) ++ " restarts")
        >> findingsInc
      else if restartsOf p >? 0 then
        writeFinding "INFO"
          ("CoreDNS pod '" ++ podName p ++ "' has " ++ itoa (restartsOf p) ++ " restart(s)")
        >> findingsInc
      else skip)
  >> forEach (Conditions p) (fun cond =>
       when (String.eqb (condType cond) "Ready" && negb (String.eqb (condStatus cond) "True"))
         (writeFinding "CRITICAL"
            ("CoreDNS pod '" ++ podName p ++ "' is not ready: " ++ condMessage cond)
          >> findingsInc))
  >> forEach (ContainerStatuses p) (fun cs =>
       when (isWaitingFor "CrashLoopBackOff" (State cs))
         (writeFinding "CRITICAL"
            ("CoreDNS container '" ++ csName cs ++ "' in pod '" ++ podName p
             ++ "' is in CrashLoopBackOff")
          >> findingsInc)
       >> when (wasTerminatedFor "OOMKilled" (LastTerminationState cs))
            (writeFinding "CRITICAL"
               ("CoreDNS container '" ++ csName cs ++ "' in pod '" ++ podName p
                ++ "' was OOMKilled — increase memory limit")
             >> findingsInc)).

Definition healthyPods (pods : list Pod) : Z :=
  fold_left (fun n p => if String.eqb (Phase p) PodRunning then incr n else n) pods 0.

Definition errorPatterns : list string :=
  ["SERVFAIL"; "NXDOMAIN"; "REFUSED"; "i/o timeout"; "connection refused";
   "no such host"; "plugin/errors"; "ERROR"].

(** Get container name (usually coredns). *)
Definition dnsContainerName (p : Pod) : string :=
  match find (fun c => strings.Contains (cName c) "coredns" || strings.Contains (cName c) "dns")
          (Containers p) with
  | Some c => cName c
  | None =>
      match Containers p with
      | c :: _ => cName c
      | [] => ""
      end
  end.

Definition dnsLogs (p : Pod) : result string :=
  GetPodLogs client "kube-system" (podName p) (dnsContainerName p).

(** The lines of a log that contain a pattern. *)
Definition patternCount (logs pattern : string) : Z :=
  fold_left (fun count line => if strings.Contains line pattern then incr count else count)
    (strings.SplitLines logs) 0.

(** The logs that are scanned: those fetched without error and not empty. *)
Definition scannedLogs (pods : list Pod) : list string :=
  flat_map (fun p =>
    match dnsLogs p with
    | Ok logs => if String.eqb logs "" then [] else [logs]
    | Err _ => []
    end) pods.

(** errorPatterns[idx].count once every pod is scanned. *)
Definition totalCount (pods : list Pod) (pattern : string) : Z :=
  fold_left (fun n logs => wrap64 (n + patternCount logs pattern)) (scannedLogs pods) 0.

Definition podErrors (logs : string) : Z :=
  fold_left (fun n pattern =>
    if patternCount logs pattern >? 0 then wrap64 (n + patternCount logs pattern) else n)
    errorPatterns 0.

Definition totalErrors (pods : list Pod) : Z :=
  fold_left (fun n logs => wrap64 (n + podErrors logs)) (scannedLogs pods) 0.

(** The log scan of one pod. *)
Definition dnsLogScan (p : Pod) : St -> St :=
  match dnsLogs p with
  | Err e =>
      WriteString (util.Text ("  Pod '" ++ podName p ++ "': could not fetch logs: " ++ e ++ LF))
  | Ok logs =>
      if String.eqb logs "" then
        WriteString (util.Text ("  Pod '" ++ podName p ++ "': no logs available" ++ LF))
      else
        WriteString (util.Text (LF ++ "  Pod '" ++ podName p ++ "' log scan (last 1h):" ++ LF))
        >> forEach errorPatterns (fun pattern =>
             when (patternCount logs pattern >? 0)
               (WriteString (util.Text ("    " ++ pattern ++ ": "
                                          ++ itoa (patternCount logs pattern)
                                          ++ " occurrences" ++ LF))))
        >> when (podErrors logs =? 0)
             (WriteString (util.Text ("    No error patterns found in logs." ++ LF)))
  end.

(** The findings drawn from the pattern counts. *)
Definition dnsLogFinding (pods : list Pod) (pattern : string) : St -> St :=
  let count := totalCount pods pattern in
  (if (count >? 50) && String.eqb pattern "SERVFAIL" then
     writeFinding "CRITICAL"
       ("High SERVFAIL rate: " ++ itoa count ++ " occurrences — DNS resolution is failing")
     >> findingsInc
   else if (count >? 10) && String.eqb pattern "SERVFAIL" then
     writeFinding "WARNING"
       ("Elevated SERVFAIL count: " ++ itoa count ++ " — some DNS queries are failing")
     >> findingsInc
   else skip)
  >> when ((count >? 100) && String.eqb pattern "NXDOMAIN")
       (writeFinding "INFO"
          ("High NXDOMAIN count: " ++ itoa count
           ++ " — check if services have correct DNS names")
        >> findingsInc)
  >> when ((count >? 0)
           && (String.eqb pattern "i/o timeout" || String.eqb pattern "connection refused"))
       (writeFinding "WARNING"
          ("Upstream DNS connectivity issues: " ++ itoa count ++ " '" ++ pattern ++ "' errors")
        >> findingsInc).

(** Overall assessment *)
Definition dnsAssessment (pods : list Pod) : St -> St :=
  fun s =>
    (WriteString (util.Text LF)
     >> WriteString (util.FormatSubHeader "Overall DNS Assessment")
     >> WriteString (util.Text LF)
     >> (if findings s =? 0 then
           WriteString (util.Text
             ("  CoreDNS is healthy: " ++ itoa (healthyPods pods) ++ "/" ++ itoa (len pods)
              ++ " pods running, no error patterns detected." ++ LF))
         else
           WriteString (util.Text
             ("  " ++ itoa (findings s) ++ " issue(s) found. " ++ itoa (healthyPods pods)
              ++ "/" ++ itoa (len pods) ++ " CoreDNS pods running." ++ LF))
           >> when (totalErrors pods >? 0)
                (WriteString (util.Text
                   ("  Total error patterns in logs: " ++ itoa (totalErrors pods) ++ LF))))) s.

(** Suggested actions, numbered as they are written. *)
Definition dnsActions (pods : list Pod) : list string :=
  List.app
    (if healthyPods pods =? 0
     then ["URGENT: No healthy CoreDNS pods. Check CoreDNS deployment and events in kube-system."]
     else [])
    (List.app
       (if len pods <? 2
        then ["Scale CoreDNS to at least 2 replicas for high availability."] else [])
       (List.app
          (if existsb (fun pattern => (totalCount pods pattern >? 10)
                                      && String.eqb pattern "SERVFAIL") errorPatterns
           then ["Investigate SERVFAIL errors — check upstream DNS configuration in CoreDNS ConfigMap."]
           else [])
          (if existsb (fun pattern => (totalCount pods pattern >? 0)
                                      && (String.eqb pattern "i/o timeout"
                                          || String.eqb pattern "connection refused"))
                errorPatterns
           then ["Check upstream DNS server connectivity and network policies affecting kube-system."]
           else []))).

(** The report once CoreDNS pods are found. *)
Definition dnsReport (coreDNSPods : list Pod) : St -> St :=
  match GetService client "kube-system" "kube-dns" with
  | Err _ =>
      WriteString (util.FormatFinding "WARNING"
                     "CoreDNS service 'kube-dns' not found in kube-system")
      >> WriteString (util.Text (LF ++ LF))
  | Ok coreDNSSvc =>
      WriteString (util.FormatKeyValue "Service"
                     (svcName coreDNSSvc ++ " (ClusterIP: " ++ ClusterIP coreDNSSvc ++ ")"))
      >> WriteString (util.Text LF)
  end
  >> WriteString (util.FormatSubHeader "CoreDNS Pod Status")
  >> WriteString (util.Text LF)
  >> WriteString (util.FormatTable ["POD"; "STATUS"; "READY"; "RESTARTS"; "AGE"; "NODE"]
                    (map dnsPodRow coreDNSPods))
  >> WriteString (util.Text (LF ++ "FINDINGS:" ++ LF))
  >> forEach coreDNSPods dnsPodFindings
  >> when (len coreDNSPods <? 2)
       (writeFinding "WARNING"
          "Only 1 CoreDNS pod running — no DNS redundancy. Consider scaling to at least 2 replicas."
        >> findingsInc)
  >> WriteString (util.Text LF)
  >> WriteString (util.FormatSubHeader "Log Analysis")
  >> WriteString (util.Text LF)
  >> forEach coreDNSPods dnsLogScan
  >> forEach errorPatterns (dnsLogFinding coreDNSPods)
  >> dnsAssessment coreDNSPods
  >> WriteString (util.Text (LF ++ "SUGGESTED ACTIONS:" ++ LF))
  >> WriteAll (numberedActions 0 (dnsActions coreDNSPods))
  >> when (len (dnsActions coreDNSPods) =? 0)
       (WriteString (util.Text ("  No specific actions needed — DNS appears healthy." ++ LF))).

(** The handler of the check_dns_health tool. *)
Definition check_dns_health : util.ToolResult :=
  let s :=
    (WriteString (util.FormatHeader "DNS Health Check")
     >> WriteString (util.Text (LF ++ LF))) St0 in
  match findCoreDNSPods with
  | Err e => util.HandleK8sError "listing CoreDNS pods" e
  | Ok coreDNSPods =>
      if len coreDNSPods =? 0 then
        util.SuccessResult (sb (
          (writeFinding "CRITICAL" "No CoreDNS pods found in kube-system namespace"
           >> WriteString (util.Text ("  DNS resolution will not work in the cluster." ++ LF))
           >> WriteString (util.Text
                ("  Check if CoreDNS is deployed with: list_pods namespace=kube-system" ++ LF))) s))
      else util.SuccessResult (sb (dnsReport coreDNSPods s))
  end.

End Engines.

(* ===================================================================== *)
(** ** Further helpers of packages k8s and tools *)
(* ===================================================================== *)

(** The tail of ClusterClient.ListPods (pkg/k8s/pods.go): the list the API
    returned, cut to the first MaxPods items when longer.  MaxPods is a
    constant of package util. *)
Definition truncateToMax {A : Type} (max : Z) (items : list A) : list A :=
  if len items >? max then firstn (Z.to_nat max) items else items.

Definition ListPodsResult (MaxPods : Z) (listed : result (list Pod)) : result (list Pod) :=
  match listed with
  | Err e => Err e
  | Ok items => Ok (truncateToMax MaxPods items)
  end.

(** displayNS (pods tools): the three ways of saying all namespaces. *)
Definition displayNS (ns : string) : string :=
  if String.eqb ns "" || String.eqb ns "all" || String.eqb ns "*" then "all" else ns.

(** truncateName shortens a name to maxLen characters, appending two dots
    if truncated.  Slicing with a negative bound panics: [Err]. *)
Definition truncateName (name : string) (maxLen : Z) : result string :=
  if strlen name <=? maxLen then Ok name
  else if maxLen <? 3 then
    if maxLen <? 0 then Err "slice bounds out of range"
    else Ok (slice_to name (Z.to_nat maxLen))
  else Ok (slice_to name (Z.to_nat (maxLen - 2)) ++ "..").

(** pathsOverlap checks whether two paths might conflict. *)
Definition pathsOverlap (a b : string) : bool :=
  if String.eqb a b then true
  else if strings.HasPrefix a b || strings.HasPrefix b a then true
  else false.

Record NodeCondition := { ncType : string; ncStatus : string }.

Record Node := { nodeName : string; nodeConditions : list NodeCondition }.

(** nodeStatus returns the overall status of a node. *)
Fixpoint nodeStatusOf (conds : list NodeCondition) : string :=
  match conds with
  | [] => "Unknown"
  | cond :: rest =>
      if String.eqb (ncType cond) "Ready" then
        if String.eqb (ncStatus cond) "True" then "Ready" else "NotReady"
      else nodeStatusOf rest
  end.

Definition nodeStatus (n : Node) : string := nodeStatusOf (nodeConditions n).

(** extractIngressDetails returns hosts, paths, and backend service names
    from an Ingress.  The state of the loops is the three slices; the
    backendSet map holds exactly the names appended to backends. *)
Definition extractPath (acc : list string * list string) (p : HTTPIngressPath)
  : list string * list string :=
  let '(paths, backends) := acc in
  let paths := List.app paths [Path p] in
  match BackendService p with
  | Some b =>
      if negb (existsb (String.eqb (BackendServiceName b)) backends)
      then (paths, List.app backends [BackendServiceName b])
      else (paths, backends)
  | None => (paths, backends)
  end.

Definition extractRule (acc : list string * list string * list string) (rule : IngressRule)
  : list string * list string * list string :=
  let '(hosts, paths, backends) := acc in
  let hosts := if negb (String.eqb (Host rule) "") then List.app hosts [Host rule] else hosts in
  match HTTP rule with
  | Some ps =>
      let '(paths, backends) := fold_left extractPath ps (paths, backends) in
      (hosts, paths, backends)
  | None => (hosts, paths, backends)
  end.

Definition extractIngressDetails (ing : Ingress)
  : list string * list string * list string :=
  fold_left extractRule (Rules ing) ([], [], []).

(* ===================================================================== *)
(** ** Vocabulary of the properties *)
(* ===================================================================== *)

(** The waiting and terminated reasons of a status, empty when the state
    is absent. *)
Definition waitingReason (cs : ContainerStatus) : string :=
  match Waiting (State cs) with
  | Some w => WaitingReason w
  | None => ""
  end.

Definition terminatedReason (cs : ContainerStatus) : string :=
  match Terminated (State cs) with
  | Some t => TerminatedReason t
  | None => ""
  end.

(** A status that gives no reason at all. *)
Definition silent (cs : ContainerStatus) : Prop :=
  waitingReason cs = "" /\ terminatedReason cs = "".

(** The reason the first speaking status gives: its waiting reason when it
    has one, else its terminated reason. *)
Definition reasonOf (cs : ContainerStatus) : string :=
  if String.eqb (waitingReason cs) "" then terminatedReason cs else waitingReason cs.

(** Identifiers made of letters, digits and underscores only. *)
Fixpoint allIDBytes (s : string) : bool :=
  match s with
  | EmptyString => true
  | String c rest => mermaid.isIDByte c && allIDBytes rest
  end.

(** A safe Mermaid node ID: not empty, not starting with a digit, made of
    letters, digits and underscores. *)
Definition isSafeID (s : string) : bool :=
  match s with
  | EmptyString => false
  | String c _ => negb (mermaid.isDigit c) && allIDBytes s
  end.

(** The number of addresses an Endpoints object lists. *)
Definition readyAddressCount (ep : Endpoints) : Z :=
  fold_right (fun subset n => len (Addresses subset) + n) 0 (Subsets ep).

Definition notReadyAddressCount (ep : Endpoints) : Z :=
  fold_right (fun subset n => len (NotReadyAddresses subset) + n) 0 (Subsets ep).

(** The largest value of an int. *)
Definition MaxInt : Z := 2 ^ 63 - 1.

(** [writes P f]: the handler part [f] only appends to the builder, and
    every piece it appends satisfies [P]. *)
Definition writes (P : util.Out -> Prop) (f : St -> St) : Prop :=
  forall s, exists out, sb (f s) = (sb s ++ out)%list /\ Forall P out.

(** Any piece. *)
Definition anyOut (o : util.Out) : Prop := True.

(** The pieces written for one event of the Recent Events section. *)
Definition eventPieces (e : Event) : list util.Out :=
  List.app
    [util.Text ((if String.eqb (evType e) "Warning" then "  [WARNING] " else "  ")
                ++ evReason e ++ ": " ++ evMessage e)]
    (List.app
       (if evCount e >? 1 then [util.Text (" (x" ++ itoa (evCount e) ++ ")")] else [])
       [util.Text LF]).

(** The three pieces that open the Recent Events section. *)
Definition recentEventsHeader : list util.Out :=
  [util.Text LF; util.FormatSubHeader "Recent Events"; util.Text LF].


(** The report of check_dns_health when no CoreDNS pod is found. *)
Definition noCoreDNSReport : list util.Out :=
  [util.FormatHeader "DNS Health Check";
   util.Text (LF ++ LF);
   util.FormatFinding "CRITICAL" "No CoreDNS pods found in kube-system namespace";
   util.Text LF;
   util.Text ("  DNS resolution will not work in the cluster." ++ LF);
   util.Text ("  Check if CoreDNS is deployed with: list_pods namespace=kube-system" ++ LF)].

(** The third discovery strategy: the pods of kube-system whose name
    starts with coredns-. *)
Definition corednsByName (pods : list Pod) : list Pod :=
  filter (fun pod => strings.HasPrefix (podName pod) "coredns-") pods.

(** [extends s s']: the builder of [s'] is the builder of [s] with pieces
    appended. *)
Definition extends (s s' : St) : Prop :=
  exists out, sb s' = (sb s ++ out)%list.

(** The part of the allow/deny matrix written for one policy, up to and
    including what it says about inbound traffic, when that is denied. *)
Definition denyAllIngressMatrix (formatLabelSelector : LabelSelector -> string)
  (np : NetworkPolicy) : list util.Out :=
  [util.Text (LF ++ "  Policy: " ++ npName np ++ LF);
   util.Text ("    Selects: " ++ formatLabelSelector (PodSelector np) ++ LF);
   util.Text ("    Ingress: DENY ALL" ++ LF)].

(** A style line of a flowchart that is not about the node [id]. *)
Definition notStyleOf (id line : string) : Prop :=
  strings.HasPrefix line ("    style " ++ id ++ " ") = false.

(** The pieces the ENDPOINTS stage of the request-path trace writes when
    no endpoint is ready and two are not, before it lists the two
    addresses. *)
Definition notReadyEndpointsPieces : list util.Out :=
  [util.Text ("[3] ENDPOINTS" ++ LF);
   util.Text ("    Ready: 0/2" ++ LF);
   util.Text "    ";
   util.FormatFinding "WARNING" "2 endpoint(s) not ready";
   util.Text LF].

(** The line written for one not-ready address. *)
Definition notReadyLine (nr : k8s.EndpointAddress) : util.Out :=
  util.Text ("      - " ++ k8s.PodName nr ++ " (" ++ k8s.IP nr ++ ")" ++ LF).

(** The path the trace uses: a slash when none is given. *)
Definition tracedPath (input : diagnoseRequestPathInput) : string :=
  if String.eqb (inputPath input) "" then "/" else inputPath input.

(** The path type a path entry is matched with: Prefix when none is set. *)
Definition effectivePathType (p : HTTPIngressPath) : PathType :=
  match PathTypeOf p with
  | Some t => t
  | None => PathTypePrefix
  end.

(** [routes host path rule p]: the rule is for the host and [p] is one of
    its HTTP paths that matches the path. *)
Definition routes (host path : string) (rule : IngressRule) (p : HTTPIngressPath) : Prop :=
  Host rule = host
  /\ exists paths,
       HTTP rule = Some paths /\ In p paths
       /\ k8s.matchPath (Path p) path (effectivePathType p) = true.

(** An ingress none of whose rules routes the host and path. *)
Definition routesNothing (host path : string) (ing : Ingress) : Prop :=
  forall rule p, In rule (Rules ing) -> ~ routes host path rule p.

(** The answer of the API when ingresses are listed for the search. *)
Definition listedIngresses (c : ClusterClient) (namespace : string) (items : list Ingress)
  : Prop :=
  Ingresses_List c namespace = Ok items.

(** All ready, and all not-ready, addresses of an Endpoints object, in the
    order of its subsets. *)
Definition allReady (ep : Endpoints) : list corev1_EndpointAddress :=
  flat_map Addresses (Subsets ep).

Definition allNotReady (ep : Endpoints) : list corev1_EndpointAddress :=
  flat_map NotReadyAddresses (Subsets ep).

(** The largest value of an int32. *)
Definition MaxInt32 : Z := 2 ^ 31 - 1.

(** The number of statuses that are ready, and the sum of their restart
    counts. *)
Definition readyStatuses (css : list ContainerStatus) : Z :=
  len (filter Ready css).

Definition restartSum (css : list ContainerStatus) : Z :=
  fold_right (fun cs n => RestartCount cs + n) 0 css.

(** A node condition that is not of type Ready. *)
Definition notReadyType (cond : NodeCondition) : Prop := ncType cond <> "Ready".

(** The backend service names of all HTTP paths of an ingress. *)
Definition backendNames (ing : Ingress) : list string :=
  flat_map (fun rule =>
    match HTTP rule with
    | Some ps =>
        flat_map (fun p =>
          match BackendService p with
          | Some b => [BackendServiceName b]
          | None => []
          end) ps
    | None => []
    end) (Rules ing).

(** The paths of all HTTP path entries of an ingress, in order. *)
Definition allPaths (ing : Ingress) : list string :=
  flat_map (fun rule =>
    match HTTP rule with
    | Some ps => map Path ps
    | None => []
    end) (Rules ing).

(** The backend service names of a list of path entries. *)
Definition pathBackends (ps : list HTTPIngressPath) : list string :=
  flat_map (fun p =>
    match BackendService p with
    | Some b => [BackendServiceName b]
    | None => []
    end) ps.

(** The hosts of the rules that name one. *)
Definition namedHosts (ing : Ingress) : list string :=
  filter (fun h => negb (String.eqb h "")) (map Host (Rules ing)).

(** Whether a string holds a double quote. *)
Fixpoint hasQuote (s : string) : bool :=
  match s with
  | EmptyString => false
  | String c rest => Ascii.eqb c "034"%char || hasQuote rest
  end.

(** The four severities that have a style. *)
Definition knownSeverity (sev : mermaid.Severity) : Prop :=
  sev = mermaid.SeverityCritical \/ sev = mermaid.SeverityWarning
  \/ sev = mermaid.SeverityHealthy \/ sev = mermaid.SeverityInfo.

(** The actions that the SUGGESTED ACTIONS loop writes: each action at
    its first occurrence, those already in [seen] left out. *)
Fixpoint keptActions (actions seen : list string) : list string :=
  match actions with
  | [] => []
  | a :: rest =>
      if existsb (String.eqb a) seen then keptActions rest seen
      else a :: keptActions rest (a :: seen)
  end.

(** Actions written as a numbered list starting at [num]. *)
Fixpoint numberFrom (num : Z) (actions : list string) : list util.Out :=
  match actions with
  | [] => []
  | a :: rest => util.Text (itoa num ++ ". " ++ a ++ LF) :: numberFrom (num + 1) rest
  end.

(** The report of the request-path trace when no ingress is found. *)
Definition noIngressReport (host path : string) : list util.Out :=
  [util.FormatHeader ("Request Path: https://" ++ host ++ path);
   util.Text (LF ++ LF);
   util.FormatFinding "CRITICAL" ("No Ingress found for " ++ host ++ path);
   util.Text LF;
   util.Text ("  Searched all namespaces for matching Ingress host+path rules." ++ LF);
   util.Text (LF ++ "SUGGESTED ACTIONS:" ++ LF);
   util.Text ("1. Create an Ingress resource with host: " ++ host ++ " and path: " ++ path ++ LF);
   util.Text ("2. Use list_ingresses to see existing Ingress resources" ++ LF)].

(** The state of the request-path trace after its INGRESS stage. *)
Definition afterIngressStage (client : ClusterClient) (input : diagnoseRequestPathInput)
  (ing : Ingress) (rule : IngressRule) (matchedPath : HTTPIngressPath) : St :=
  ingressStage client (Hostname input) ing rule matchedPath
    (WriteString (util.Text (LF ++ LF))
       (WriteString
          (util.FormatHeader ("Request Path: https://" ++ Hostname input ++ tracedPath input))
          St0)).

(** Any piece but the line that opens the ENDPOINTS stage. *)
Definition notEndpointsStage (o : util.Out) : Prop :=
  o <> util.Text ("[3] ENDPOINTS" ++ LF).

(** Some TLS entry of the ingress lists the host. *)
Definition tlsListed (ing : Ingress) (hostname : string) : Prop :=
  exists tls, In tls (TLS ing) /\ In hostname (Hosts tls).

(** The finding of the INGRESS stage on the warning events of the
    ingress. *)
Definition ingressEventFindings (client : ClusterClient) (ing : Ingress)
  : list (string * string) :=
  let n := countWarnings (orNil (GetEventsForObject client (ingNamespace ing) (ingName ing))) in
  if n >? 0 then [("WARNING", itoa n ++ " warning events on Ingress")] else [].

(** [emits fs acts f]: the handler part [f] writes the findings [fs], in
    this order, and appends the suggested actions [acts]. *)
Definition emits (fs : list (string * string)) (acts : list string) (f : St -> St) : Prop :=
  forall s, actions (f s) = (actions s ++ acts)%list
            /\ util.findingsOf (sb (f s)) = (util.findingsOf (sb s) ++ fs)%list.

(** The pod selector of the policy converts and matches the pod's labels. *)
Definition selects (LabelSelectorAsSelector : LabelSelector -> result (list (string * string) -> bool))
  (np : NetworkPolicy) (pod : Pod) : Prop :=
  exists matches,
    LabelSelectorAsSelector (PodSelector np) = Ok matches /\ matches (podLabels pod) = true.

(** The pod has run to completion. *)
Definition completed (pod : Pod) : Prop :=
  Phase pod = PodSucceeded \/ Phase pod = PodFailed.

(** Some policy selects the pod. *)
Definition covered (LabelSelectorAsSelector : LabelSelector -> result (list (string * string) -> bool))
  (policies : list NetworkPolicy) (pod : Pod) : Prop :=
  exists np, In np policies /\ selects LabelSelectorAsSelector np pod.

(** The Active Pods count of the coverage report. *)
Definition activePodCount (pods : list Pod) : Z :=
  fold_left (fun n pod => if isActive pod then incr n else n) pods 0.

(** The value a service selector gives a key: empty when the selector is
    nil or lacks the key. *)
Definition selectorValue (svcLabels : option (list (string * string))) (k : string) : string :=
  lookup (match svcLabels with Some m => m | None => [] end) k.

(** The style line of the ingress node of the request-path topology: a
    fixed raw style. *)
Definition ingressStyleLine : string :=
  "    style agw fill:#cce5ff,stroke:#4a90d9,stroke-width:2px".

(** The style line of the node of one backing pod: the critical style
    when the pod is unhealthy, the healthy style otherwise. *)
Definition podStyleLine (p : Pod) : string :=
  "    style " ++ mermaid.SafeID ("pod_" ++ podName p) ++ " "
  ++ (if isPodHealthy p
      then "fill:#ccffcc,stroke:#00cc00,stroke-width:2px"
      else "fill:#ffcccc,stroke:#cc0000,stroke-width:2px").

(* ===================================================================== *)
(** ** Sample objects *)
(* ===================================================================== *)

Module Samples.

Definition noState : ContainerState := {| Waiting := None; Terminated := None |}.

Definition waitingFor (reason : string) : ContainerState :=
  {| Waiting := Some {| WaitingReason := reason |}; Terminated := None |}.

Definition terminatedFor (reason : string) : ContainerState :=
  {| Waiting := None; Terminated := Some {| TerminatedReason := reason |} |}.

Definition status (name : string) (ready : bool) (st : ContainerState) : ContainerStatus :=
  {| csName := name; Ready := ready; RestartCount := 0; State := st;
     LastTerminationState := noState |}.

Definition pod (name : string) (phase : PodPhase) (statuses : list ContainerStatus) : Pod :=
  {| podName := name; podLabels := []; NodeName := "node-1"; Containers := [];
     Phase := phase; StatusReason := ""; Conditions := [];
     ContainerStatuses := statuses; InitContainerStatuses := [];
     podCreationTimestamp := 0 |}.

Definition pendingPod : Pod := pod "web-0" PodPending [].

Definition runningNoStatus : Pod := pod "web-1" PodRunning [].

(** A sidecar that exited with an error, listed before the main container
    that is crash-looping. *)
Definition mixedPod : Pod :=
  pod "web-2" PodRunning
    [status "sidecar" false (terminatedFor "Error");
     status "app" false (waitingFor "CrashLoopBackOff")].

Definition initPod : Pod :=
  {| podName := "web-3"; podLabels := []; NodeName := "node-1"; Containers := [];
     Phase := PodPending; StatusReason := "";  Conditions := [];
     ContainerStatuses := [status "app" false noState];
     InitContainerStatuses := [status "init" false (waitingFor "ImagePullBackOff")];
     podCreationTimestamp := 0 |}.

Definition evictedPod : Pod :=
  {| podName := "web-4"; podLabels := []; NodeName := "node-1"; Containers := [];
     Phase := PodFailed; StatusReason := "Evicted";  Conditions := [];
     ContainerStatuses := [status "app" false noState];
     InitContainerStatuses := [];
     podCreationTimestamp := 0 |}.

End Samples.

Module SampleEndpoints.

Definition address (ip pod : string) : corev1_EndpointAddress :=
  {| addrIP := ip; TargetRef := Some {| refName := pod |}; addrNodeName := Some "node-1" |}.

(** Two subsets: one ready and one not-ready address, then one ready
    address. *)
Definition mixed : Endpoints :=
  {| Subsets :=
       [ {| Addresses := [address "10.0.0.1" "api-0"];
            NotReadyAddresses := [address "10.0.0.2" "api-1"] |};
         {| Addresses := [address "10.0.0.3" "api-2"]; NotReadyAddresses := [] |} ] |}.

(** No ready address and two not-ready ones. *)
Definition notReady2 : Endpoints :=
  {| Subsets :=
       [ {| Addresses := [];
            NotReadyAddresses := [address "10.0.0.1" "api-0"; address "10.0.0.2" "api-1"] |} ] |}.

Definition emptyClient : ClusterClient :=
  {| Ingresses_List := fun _ => Ok [];
     Endpoints_Get := fun _ _ => Err "not found";
     Pods_List := fun _ _ => Ok [];
     GetService := fun _ _ => Err "not found";
     GetEventsForObject := fun _ _ => Ok [];
     ListPods := fun _ _ => Ok [];
     ListIngresses := fun _ => Ok [];
     ListNetworkPolicies := fun _ => Ok [];
     GetPodLogs := fun _ _ _ => Err "not found";
     GetPodMetrics := fun _ => Err "metrics API not available" |}.

Definition withEndpoints (ep : Endpoints) (c : ClusterClient) : ClusterClient :=
  {| Ingresses_List := Ingresses_List c;
     Endpoints_Get := fun _ _ => Ok ep;
     Pods_List := Pods_List c;
     GetService := GetService c;
     GetEventsForObject := GetEventsForObject c;
     ListPods := ListPods c;
     ListIngresses := ListIngresses c;
     ListNetworkPolicies := ListNetworkPolicies c;
     GetPodLogs := GetPodLogs c;
     GetPodMetrics := GetPodMetrics c |}.

End SampleEndpoints.

Module SampleEvents.

Definition scaled : Event :=
  {| evType := "Normal"; evReason := "Scaled"; evMessage := "scaled to 3"; evCount := 1 |}.

Definition failed : Event :=
  {| evType := "Warning"; evReason := "FailedSync"; evMessage := "no endpoints";
     evCount := 4 |}.

Definition two : list Event := [scaled; failed].

Definition eleven : list Event := List.repeat failed 11.

End SampleEvents.

Module SampleServices.





(** Stand-ins for the helpers of package util. *)
Definition age (t : Z) : string := "1d".

Definition labels (m : option (list (string * string))) : string :=
  match m with
  | None => "<none>"
  | Some l => strings.Join (map (fun kv => fst kv ++ "=" ++ snd kv) l) ","
  end.


Definition noUsageBlock (podMetrics : list PodMetrics) (pods : list Pod)
  : list util.Out * nat * list string := ([], O, []).


End SampleServices.

Module SampleDNS.

(** A kube-system namespace where no lookup finds a CoreDNS pod: the two
    label selectors select nothing and the only pod has another name. *)
Definition noDNSClient : ClusterClient :=
  {| Ingresses_List := fun _ => Ok [];
     Endpoints_Get := fun _ _ => Err "not found";
     Pods_List := fun _ _ => Ok [];
     GetService := fun _ _ => Err "not found";
     GetEventsForObject := fun _ _ => Ok [];
     ListPods := fun _ selector =>
       if String.eqb selector "" then Ok [Samples.pod "kube-proxy-x7k" PodRunning []]
       else Ok [];
     ListIngresses := fun _ => Ok [];
     ListNetworkPolicies := fun _ => Ok [];
     GetPodLogs := fun _ _ _ => Ok "[ERROR] plugin/errors: 2 example.com. A: SERVFAIL";
     GetPodMetrics := fun _ => Err "metrics API not available" |}.

Definition noDNSReport : list util.Out :=
  match check_dns_health SampleServices.age 5 noDNSClient with
  | util.SuccessResult report => report
  | util.HandleK8sError _ _ => []
  end.

End SampleDNS.

Module SamplePolicies.

Definition selector (m : list (string * string)) : LabelSelector :=
  {| MatchLabels := m; MatchExpressions := 0 |}.

(** policyTypes lists Ingress, and there is no ingress rule. *)
Definition denyIngress : NetworkPolicy :=
  {| npName := "default-deny"; PodSelector := selector [("app", "api")];
     PolicyTypes := ["Ingress"]; IngressRules := []; EgressRules := [] |}.

(** policyTypes is empty, which stands for Ingress. *)
Definition denyInferred : NetworkPolicy :=
  {| npName := "deny-inferred"; PodSelector := selector [("app", "api")];
     PolicyTypes := []; IngressRules := []; EgressRules := [] |}.

(** Only Egress is listed: inbound traffic is not restricted. *)
Definition egressOnly : NetworkPolicy :=
  {| npName := "egress-dns"; PodSelector := selector [("app", "api")];
     PolicyTypes := ["Egress"];
     IngressRules := [];
     EgressRules := [ {| ruleParts := ["to: any"; "ports: 53/UDP"];
                         rulePeers := ["any"]; rulePorts := [Some "53"] |} ] |}.

Definition formatSelector (sel : LabelSelector) : string :=
  SampleServices.labels (Some (MatchLabels sel)).

Definition asSelector (sel : LabelSelector) : result (list (string * string) -> bool) :=
  Ok (fun labels =>
        forallb (fun kv => String.eqb (lookup labels (fst kv)) (snd kv)) (MatchLabels sel)).

Definition policyClient : ClusterClient :=
  {| Ingresses_List := fun _ => Ok [];
     Endpoints_Get := fun _ _ => Err "not found";
     Pods_List := fun _ _ => Ok [];
     GetService := fun _ _ => Err "not found";
     GetEventsForObject := fun _ _ => Ok [];
     ListPods := fun _ _ => Ok [];
     ListIngresses := fun _ => Ok [];
     ListNetworkPolicies := fun _ => Ok [egressOnly; denyIngress];
     GetPodLogs := fun _ _ _ => Err "not found";
     GetPodMetrics := fun _ => Err "metrics API not available" |}.

End SamplePolicies.

Module SampleRequestPath.

Definition apiPath : HTTPIngressPath :=
  {| Path := "/v1"; PathTypeOf := Some PathTypePrefix;
     BackendService :=
       Some {| BackendServiceName := "api";
               BackendServicePort := {| PortName := ""; PortNumber := 80 |} |} |}.

Definition apiRule : IngressRule :=
  {| Host := "api.example.com"; HTTP := Some [apiPath] |}.

Definition apiIngress : Ingress :=
  {| ingName := "api-ingress"; ingNamespace := "default"; Annotations := [];
     IngressClassName := None;
     TLS := [ {| Hosts := ["api.example.com"]; SecretName := "api-tls" |} ];
     Rules := [apiRule] |}.

Definition apiService : Service :=
  {| svcName := "api"; svcNamespace := "default"; svcType := "ClusterIP";
     ClusterIP := "10.96.0.12";
     Ports := [ {| spName := "http"; spPort := 80; spTargetPort := "8080";
                   spProtocol := "TCP" |} ];
     Selector := Some [("app", "api")];
     SessionAffinity := "None"; svcCreationTimestamp := 0 |}.

Definition container : Container :=
  {| cName := "app"; Limits := Some (500, 268435456);
     ReadinessProbe := true; LivenessProbe := true |}.

(** A running pod whose container is not ready. *)
Definition apiPod (name : string) : Pod :=
  {| podName := name; podLabels := [("app", "api")]; NodeName := "node-1";
     Containers := [container]; Phase := PodRunning; StatusReason := "";
     Conditions := [];
     ContainerStatuses := [Samples.status "app" false Samples.noState];
     InitContainerStatuses := []; podCreationTimestamp := 0 |}.

(** The scenario: the ingress routes api.example.com/v1 to the service
    api, whose endpoints hold no ready address and two not-ready ones. *)
Definition client : ClusterClient :=
  {| Ingresses_List := fun _ => Ok [apiIngress];
     Endpoints_Get := fun _ _ => Ok SampleEndpoints.notReady2;
     Pods_List := fun _ _ => Ok [apiPod "api-0"; apiPod "api-1"];
     GetService := fun _ _ => Ok apiService;
     GetEventsForObject := fun _ _ => Ok [];
     ListPods := fun _ _ => Ok [apiPod "api-0"; apiPod "api-1"];
     ListIngresses := fun _ => Ok [apiIngress];
     ListNetworkPolicies := fun _ => Ok [];
     GetPodLogs := fun _ _ _ => Err "not found";
     GetPodMetrics := fun _ => Err "metrics API not available" |}.

Definition input : diagnoseRequestPathInput :=
  {| Hostname := "api.example.com"; inputPath := "/v1/charge"; inputNamespace := "" |}.

Definition pods : list Pod := [apiPod "api-0"; apiPod "api-1"].

Definition topology : mermaid.Flowchart :=
  requestPathTopology apiIngress apiRule apiPath apiService pods.

Definition report : list util.Out :=
  match diagnose_request_path SampleServices.age SampleServices.labels 5
          SampleServices.noUsageBlock client input with
  | util.SuccessResult r => r
  | util.HandleK8sError _ _ => []
  end.



(** The same cluster with the backend service deleted. *)
Definition noServiceClient : ClusterClient :=
  {| Ingresses_List := fun _ => Ok [apiIngress];
     Endpoints_Get := fun _ _ => Err "not found";
     Pods_List := fun _ _ => Ok [];
     GetService := fun _ _ => Err "services api not found";
     GetEventsForObject := fun _ _ => Ok [];
     ListPods := fun _ _ => Ok [];
     ListIngresses := fun _ => Ok [apiIngress];
     ListNetworkPolicies := fun _ => Ok [];
     GetPodLogs := fun _ _ _ => Err "not found";
     GetPodMetrics := fun _ => Err "metrics API not available" |}.

End SampleRequestPath.

Module SampleMisc.

Definition agicIngress : Ingress :=
  {| ingName := "shop"; ingNamespace := "default";
     Annotations := [("kubernetes.io/ingress.class", "azure/application-gateway");
                     ("appgw.ingress.kubernetes.io/request-timeout", "30")];
     IngressClassName := None; TLS := []; Rules := [] |}.

Definition restartedPod : Pod :=
  {| podName := "web-5"; podLabels := []; NodeName := "node-1";
     Containers := [SampleRequestPath.container; SampleRequestPath.container];
     Phase := PodRunning; StatusReason := ""; Conditions := [];
     ContainerStatuses :=
       [ {| csName := "app"; Ready := true; RestartCount := 3;
            State := Samples.noState; LastTerminationState := Samples.noState |};
         {| csName := "sidecar"; Ready := false; RestartCount := 4;
            State := Samples.noState; LastTerminationState := Samples.noState |} ];
     InitContainerStatuses := []; podCreationTimestamp := 0 |}.

Definition readyNode : Node :=
  {| nodeName := "node-1";
     nodeConditions := [ {| ncType := "MemoryPressure"; ncStatus := "False" |};
                         {| ncType := "Ready"; ncStatus := "True" |};
                         {| ncType := "Ready"; ncStatus := "False" |} ] |}.

End SampleMisc.

(* ===================================================================== *)
(** ** Properties: strings and machine integers *)
(* ===================================================================== *)

Lemma prefix_app (p r : string) : String.prefix p (p ++ r) = true.
Proof.
  induction p as [|c p IH]; simpl.
  - destruct r; reflexivity.
  - destruct (ascii_dec c c) as [_|n]; [exact IH | contradiction].
Qed.

Lemma prefix_split (p s : string) :
  String.prefix p s = true -> exists r, s = p ++ r.
Proof.
  revert s. induction p as [|c p IH]; intros s H.
  - exists s. reflexivity.
  - destruct s as [|d s]; simpl in H; [discriminate|].
    destruct (ascii_dec c d) as [->|_]; [|discriminate].
    destruct (IH s H) as [r ->]. exists r. reflexivity.
Qed.

Lemma HasPrefix_iff (s p : string) :
  strings.HasPrefix s p = true <-> exists r, s = p ++ r.
Proof.
  unfold strings.HasPrefix. split.
  - apply prefix_split.
  - intros [r ->]. apply prefix_app.
Qed.

Lemma wrap64_small (x : Z) :
  - 2 ^ 63 <= x < 2 ^ 63 -> wrap64 x = x.
Proof.
  intros H. unfold wrap64, wrap.
  change (64 - 1) with 63.
  assert (E : 2 ^ 64 = 2 * 2 ^ 63) by reflexivity.
  rewrite Z.mod_small; lia.
Qed.

Lemma incr_small (x : Z) : 0 <= x < 2 ^ 63 - 1 -> incr x = x + 1.
Proof. intros H. unfold incr. apply wrap64_small. lia. Qed.

(* ===================================================================== *)
(** ** Properties: health predicates *)
(* ===================================================================== *)

Lemma containersHealthy_Forall (css : list ContainerStatus) :
  containersHealthy css = true
  <-> Forall (fun cs => Ready cs = true /\ Waiting (State cs) = None) css.
Proof.
  induction css as [|cs rest IH]; simpl.
  - split; auto.
  - destruct (Ready cs) eqn:R; simpl.
    + destruct (Waiting (State cs)) eqn:W.
      * split; [discriminate|]. intros F. inversion F as [|? ? [_ HW] _]; subst.
        congruence.
      * rewrite IH. split.
        -- intros F. constructor; auto.
        -- intros F. inversion F; assumption.
    + split; [discriminate|]. intros F. inversion F as [|? ? [HR _] _]; subst.
      congruence.
Qed.

(** C2. A pod is healthy exactly when its phase is Succeeded, or its phase
    is Running and every reported container status is ready and none is
    waiting.  Hence a Pending pod is never healthy, and a Running pod that
    reports no container status is healthy. *)
Theorem isPodHealthy_spec (p : Pod) :
  (isPodHealthy p = true
   <-> Phase p = PodSucceeded
       \/ (Phase p = PodRunning
           /\ Forall (fun cs => Ready cs = true /\ Waiting (State cs) = None)
                (ContainerStatuses p)))
  /\ (Phase p = PodPending -> isPodHealthy p = false)
  /\ (Phase p = PodRunning -> ContainerStatuses p = [] -> isPodHealthy p = true).
Proof.
  unfold isPodHealthy. repeat split.
  - destruct (String.eqb_spec (Phase p) PodRunning) as [E|NE].
    + intros H. right. split; [exact E|]. now apply containersHealthy_Forall.
    + destruct (String.eqb_spec (Phase p) PodSucceeded) as [E|NE'].
      * intros _. now left.
      * discriminate.
  - intros [E|[E F]].
    + rewrite E. reflexivity.
    + rewrite E. simpl. now apply containersHealthy_Forall.
  - intros E. rewrite E. reflexivity.
  - intros E N. rewrite E, N. reflexivity.
Qed.

Lemma isPodHealthy_spec_witness :
  isPodHealthy Samples.pendingPod = false /\ isPodHealthy Samples.runningNoStatus = true.
Proof.
  split.
  - apply (proj1 (proj2 (isPodHealthy_spec Samples.pendingPod))). reflexivity.
  - apply (proj2 (proj2 (isPodHealthy_spec Samples.runningNoStatus))); reflexivity.
Defined.

Lemma statusReason_silent (cs : ContainerStatus) :
  silent cs -> statusReason cs = None.
Proof.
  unfold silent, waitingReason, terminatedReason, statusReason.
  intros [W T].
  destruct (Waiting (State cs)) as [w|]; destruct (Terminated (State cs)) as [t|];
    subst; try rewrite W; try rewrite T; reflexivity.
Qed.

Lemma statusReason_waiting (cs : ContainerStatus) :
  waitingReason cs <> "" -> statusReason cs = Some (waitingReason cs).
Proof.
  unfold waitingReason, statusReason. intros W.
  destruct (Waiting (State cs)) as [w|]; [|congruence].
  destruct (String.eqb_spec (WaitingReason w) ""); [contradiction|reflexivity].
Qed.

Lemma statusReason_terminated (cs : ContainerStatus) :
  waitingReason cs = "" -> terminatedReason cs <> ""
  -> statusReason cs = Some (terminatedReason cs).
Proof.
  unfold waitingReason, terminatedReason, statusReason. intros W T.
  destruct (Waiting (State cs)) as [w|]; destruct (Terminated (State cs)) as [t|];
    try congruence.
  - rewrite W. simpl.
    destruct (String.eqb_spec (TerminatedReason t) ""); [contradiction|reflexivity].
  - destruct (String.eqb_spec (TerminatedReason t) ""); [contradiction|reflexivity].
Qed.

Lemma firstStatusReason_silent (css : list ContainerStatus) :
  Forall silent css -> firstStatusReason css = None.
Proof.
  induction 1 as [|cs rest S _ IH]; simpl; [reflexivity|].
  now rewrite (statusReason_silent cs S).
Qed.

Lemma firstStatusReason_first (pre post : list ContainerStatus) (cs : ContainerStatus)
  (r : string) :
  Forall silent pre -> statusReason cs = Some r
  -> firstStatusReason (pre ++ cs :: post) = Some r.
Proof.
  intros F R. induction F as [|c pre S _ IH]; simpl.
  - now rewrite R.
  - now rewrite (statusReason_silent c S).
Qed.

Lemma statusReason_reasonOf (cs : ContainerStatus) :
  ~ silent cs -> statusReason cs = Some (reasonOf cs).
Proof.
  intros NS. unfold reasonOf.
  destruct (String.eqb_spec (waitingReason cs) "") as [W|W].
  - apply statusReason_terminated; [exact W|].
    intros T. apply NS. now split.
  - now apply statusReason_waiting.
Qed.

(** C6, as the code has it.  The statuses are read in slice order and the
    first one that gives a reason decides: its waiting reason if it has one,
    otherwise its terminated reason.  Main containers come before init
    containers, whose reason is prefixed with Init:, then the pod-level
    status reason, then the bare phase. *)
Theorem podPhaseReason_precedence (p : Pod) :
  (forall (pre : list ContainerStatus) cs post,
      ContainerStatuses p = (pre ++ cs :: post)%list -> Forall silent pre -> ~ silent cs
      -> podPhaseReason p = reasonOf cs)
  /\ (forall (pre : list ContainerStatus) cs post,
         Forall silent (ContainerStatuses p)
         -> InitContainerStatuses p = (pre ++ cs :: post)%list -> Forall silent pre
         -> ~ silent cs
         -> podPhaseReason p = "Init:" ++ reasonOf cs)
  /\ (Forall silent (ContainerStatuses p) -> Forall silent (InitContainerStatuses p)
      -> StatusReason p <> "" -> podPhaseReason p = StatusReason p)
  /\ (Forall silent (ContainerStatuses p) -> Forall silent (InitContainerStatuses p)
      -> StatusReason p = "" -> podPhaseReason p = Phase p).
Proof.
  unfold podPhaseReason. repeat split.
  - intros pre cs post E F NS. rewrite E.
    now rewrite (firstStatusReason_first pre post cs _ F (statusReason_reasonOf cs NS)).
  - intros pre cs post FM E F NS.
    rewrite (firstStatusReason_silent _ FM), E.
    now rewrite (firstStatusReason_first pre post cs _ F (statusReason_reasonOf cs NS)).
  - intros FM FI R.
    rewrite (firstStatusReason_silent _ FM), (firstStatusReason_silent _ FI).
    destruct (String.eqb_spec (StatusReason p) ""); [contradiction|reflexivity].
  - intros FM FI R.
    rewrite (firstStatusReason_silent _ FM), (firstStatusReason_silent _ FI), R.
    reflexivity.
Qed.

Lemma podPhaseReason_precedence_witness :
  podPhaseReason Samples.mixedPod = "Error"
  /\ podPhaseReason Samples.initPod = "Init:ImagePullBackOff"
  /\ podPhaseReason Samples.evictedPod = "Evicted"
  /\ podPhaseReason Samples.pendingPod = "Pending".
Proof.
  split; [|split; [|split]].
  - apply (proj1 (podPhaseReason_precedence Samples.mixedPod)
             [] (Samples.status "sidecar" false (Samples.terminatedFor "Error"))
             [Samples.status "app" false (Samples.waitingFor "CrashLoopBackOff")]).
    + reflexivity.
    + constructor.
    + intros [_ T]. discriminate T.
  - apply (proj1 (proj2 (podPhaseReason_precedence Samples.initPod))
             [] (Samples.status "init" false (Samples.waitingFor "ImagePullBackOff")) []).
    + repeat constructor.
    + reflexivity.
    + constructor.
    + intros [W _]. discriminate W.
  - apply (proj1 (proj2 (proj2 (podPhaseReason_precedence Samples.evictedPod)))).
    + repeat constructor.
    + constructor.
    + discriminate.
  - apply (proj2 (proj2 (proj2 (podPhaseReason_precedence Samples.pendingPod)))).
    + constructor.
    + constructor.
    + reflexivity.
Defined.

(** C6 as stated fails: a main container with a terminated reason listed
    before a main container with a waiting reason wins. *)
Lemma podPhaseReason_waiting_not_first :
  podPhaseReason Samples.mixedPod = "Error"
  /\ podPhaseReason Samples.mixedPod <> "CrashLoopBackOff".
Proof. split; [reflexivity | discriminate]. Qed.

(* ===================================================================== *)
(** ** Properties: topology resolvers *)
(* ===================================================================== *)

(** C5, as the code has it.  With path type Exact the match is string
    equality; with Prefix it is the string-prefix test, so the pattern
    made of one slash matches exactly the paths that begin with a slash,
    and no other; every path type other than Exact, ImplementationSpecific
    among them, behaves as Prefix. *)
Theorem matchPath_spec (pattern path : string) :
  (k8s.matchPath pattern path PathTypeExact = true <-> path = pattern)
  /\ (k8s.matchPath pattern path PathTypePrefix = true
      <-> exists rest, path = pattern ++ rest)
  /\ (k8s.matchPath "/" path PathTypePrefix = true <-> exists rest, path = "/" ++ rest)
  /\ k8s.matchPath "/" ("/" ++ path) PathTypePrefix = true
  /\ k8s.matchPath pattern path PathTypeImplementationSpecific
     = k8s.matchPath pattern path PathTypePrefix
  /\ (forall pathType : PathType,
         pathType <> PathTypeExact
         -> k8s.matchPath pattern path pathType
            = k8s.matchPath pattern path PathTypePrefix).
Proof.
  split; [|split; [|split; [|split; [|split]]]].
  - unfold k8s.matchPath. simpl. apply String.eqb_eq.
  - unfold k8s.matchPath. simpl. apply HasPrefix_iff.
  - unfold k8s.matchPath. simpl. apply HasPrefix_iff.
  - unfold k8s.matchPath. simpl. apply HasPrefix_iff. now exists path.
  - reflexivity.
  - intros pathType N. unfold k8s.matchPath.
    destruct (String.eqb_spec pathType PathTypeExact) as [E|_]; [contradiction|].
    destruct (String.eqb pathType PathTypePrefix); reflexivity.
Qed.

Lemma matchPath_spec_witness :
  k8s.matchPath "/api" "/api/v1" "Regex" = k8s.matchPath "/api" "/api/v1" PathTypePrefix
  /\ k8s.matchPath "/api" "/api/v1" "Regex" = true.
Proof.
  split; [|reflexivity].
  apply (proj2 (proj2 (proj2 (proj2 (proj2 (matchPath_spec "/api" "/api/v1")))))).
  discriminate.
Defined.

(** C5 as stated fails: the pattern made of one slash does not match a
    path that has no leading slash. *)
Lemma matchPath_slash_not_every_path :
  k8s.matchPath "/" "v1" PathTypePrefix = false.
Proof. reflexivity. Qed.

Lemma wrap64_range (x : Z) : - 2 ^ 63 <= wrap64 x < 2 ^ 63.
Proof.
  unfold wrap64, wrap. change (64 - 1) with 63.
  assert (E : 2 ^ 64 = 2 * 2 ^ 63) by reflexivity.
  pose proof (Z.mod_pos_bound (x + 2 ^ 63) (2 ^ 64) ltac:(lia)). lia.
Qed.

Section EndpointCounts.

Lemma addReady_fold (addrs : list corev1_EndpointAddress) (h : k8s.EndpointHealth) :
  0 <= k8s.ReadyCount h -> k8s.ReadyCount h + len addrs <= MaxInt ->
  let h' := fold_left k8s.addReady addrs h in
  k8s.ReadyCount h' = k8s.ReadyCount h + len addrs
  /\ k8s.NotReadyCount h' = k8s.NotReadyCount h
  /\ len (k8s.ReadyAddresses h') = len (k8s.ReadyAddresses h) + len addrs
  /\ len (k8s.NotReadyPods h') = len (k8s.NotReadyPods h).
Proof.
  revert h. unfold len, MaxInt.
  induction addrs as [|a addrs IH]; intros h H0 Hb; simpl fold_left.
  - simpl. lia.
  - cbn [List.length] in Hb. rewrite Nat2Z.inj_succ in Hb.
    assert (E : k8s.ReadyCount (k8s.addReady h a) = k8s.ReadyCount h + 1).
    { simpl. apply incr_small. lia. }
    destruct (IH (k8s.addReady h a)) as (R & N & LR & LN).
    + rewrite E. lia.
    + rewrite E. lia.
    + rewrite R, N, LR, LN, E. cbn [List.length]. rewrite Nat2Z.inj_succ.
      simpl. rewrite length_app. simpl. lia.
Qed.

Lemma addNotReady_fold (addrs : list corev1_EndpointAddress) (h : k8s.EndpointHealth) :
  0 <= k8s.NotReadyCount h -> k8s.NotReadyCount h + len addrs <= MaxInt ->
  let h' := fold_left k8s.addNotReady addrs h in
  k8s.NotReadyCount h' = k8s.NotReadyCount h + len addrs
  /\ k8s.ReadyCount h' = k8s.ReadyCount h
  /\ len (k8s.NotReadyPods h') = len (k8s.NotReadyPods h) + len addrs
  /\ len (k8s.ReadyAddresses h') = len (k8s.ReadyAddresses h).
Proof.
  revert h. unfold len, MaxInt.
  induction addrs as [|a addrs IH]; intros h H0 Hb; simpl fold_left.
  - simpl. lia.
  - cbn [List.length] in Hb. rewrite Nat2Z.inj_succ in Hb.
    assert (E : k8s.NotReadyCount (k8s.addNotReady h a) = k8s.NotReadyCount h + 1).
    { simpl. apply incr_small. lia. }
    destruct (IH (k8s.addNotReady h a)) as (R & N & LR & LN).
    + rewrite E. lia.
    + rewrite E. lia.
    + rewrite R, N, LR, LN, E. cbn [List.length]. rewrite Nat2Z.inj_succ.
      simpl. rewrite length_app. simpl. lia.
Qed.

Lemma len_nonneg {A : Type} (l : list A) : 0 <= len l.
Proof. unfold len. lia. Qed.

Lemma counts_nonneg (ep : Endpoints) :
  0 <= readyAddressCount ep /\ 0 <= notReadyAddressCount ep.
Proof.
  unfold readyAddressCount, notReadyAddressCount.
  induction (Subsets ep) as [|s l [IH1 IH2]]; simpl; [lia|].
  pose proof (len_nonneg (Addresses s)). pose proof (len_nonneg (NotReadyAddresses s)). lia.
Qed.

Lemma addSubset_fold (subsets : list EndpointSubset) (h : k8s.EndpointHealth) :
  let r := readyAddressCount {| Subsets := subsets |} in
  let n := notReadyAddressCount {| Subsets := subsets |} in
  0 <= k8s.ReadyCount h -> 0 <= k8s.NotReadyCount h ->
  k8s.ReadyCount h + r <= MaxInt -> k8s.NotReadyCount h + n <= MaxInt ->
  let h' := fold_left k8s.addSubset subsets h in
  k8s.ReadyCount h' = k8s.ReadyCount h + r
  /\ k8s.NotReadyCount h' = k8s.NotReadyCount h + n
  /\ len (k8s.ReadyAddresses h') = len (k8s.ReadyAddresses h) + r
  /\ len (k8s.NotReadyPods h') = len (k8s.NotReadyPods h) + n.
Proof.
  revert h. unfold readyAddressCount, notReadyAddressCount. simpl Subsets.
  induction subsets as [|s subsets IH]; intros h R0 N0 Rb Nb; simpl fold_left.
  - simpl. lia.
  - simpl fold_right in *.
    pose proof (counts_nonneg {| Subsets := subsets |}) as [P1 P2].
    unfold readyAddressCount, notReadyAddressCount in P1, P2. simpl Subsets in P1, P2.
    pose proof (len_nonneg (Addresses s)) as L1.
    pose proof (len_nonneg (NotReadyAddresses s)) as L2.
    set (h1 := k8s.addSubset h s).
    assert (H1 : k8s.ReadyCount h1 = k8s.ReadyCount h + len (Addresses s)
                 /\ k8s.NotReadyCount h1 = k8s.NotReadyCount h + len (NotReadyAddresses s)
                 /\ len (k8s.ReadyAddresses h1)
                    = len (k8s.ReadyAddresses h) + len (Addresses s)
                 /\ len (k8s.NotReadyPods h1)
                    = len (k8s.NotReadyPods h) + len (NotReadyAddresses s)).
    { unfold h1, k8s.addSubset.
      destruct (addReady_fold (Addresses s) h R0 ltac:(lia)) as (A1 & A2 & A3 & A4).
      destruct (addNotReady_fold (NotReadyAddresses s)
                  (fold_left k8s.addReady (Addresses s) h)
                  ltac:(lia) ltac:(lia)) as (B1 & B2 & B3 & B4).
      lia. }
    destruct H1 as (D1 & D2 & D3 & D4).
    destruct (IH h1) as (C1 & C2 & C3 & C4); try lia.
Qed.

End EndpointCounts.

Lemma EndpointHealth_total_facts (c : ClusterClient) (namespace serviceName : string)
  (ep : Endpoints) (h : k8s.EndpointHealth) :
  Endpoints_Get c namespace serviceName = Ok ep ->
  readyAddressCount ep + notReadyAddressCount ep <= MaxInt ->
  k8s.GetServiceEndpointHealth c namespace serviceName = Ok h ->
  k8s.TotalEndpoints h = k8s.ReadyCount h + k8s.NotReadyCount h
  /\ 0 <= k8s.ReadyCount h
  /\ 0 <= k8s.NotReadyCount h
  /\ k8s.ReadyCount h = readyAddressCount ep
  /\ k8s.NotReadyCount h = notReadyAddressCount ep
  /\ len (k8s.ReadyAddresses h) = k8s.ReadyCount h
  /\ len (k8s.NotReadyPods h) = k8s.NotReadyCount h.
Proof.
  intros G B E. unfold k8s.GetServiceEndpointHealth in E. rewrite G in E.
  injection E as <-.
  pose proof (counts_nonneg ep) as [P1 P2].
  match goal with
  | |- context [fold_left k8s.addSubset _ ?h0] =>
      destruct (addSubset_fold (Subsets ep) h0) as (R & N & LR & LN);
        simpl; destruct ep as [subsets]; simpl in *; try lia
  end.
  rewrite R, N, LR, LN.
  repeat split; try lia.
  apply wrap64_small. unfold MaxInt in B. lia.
Qed.

(** C4. Every EndpointHealth that GetServiceEndpointHealth returns has a
    total equal to the sum of its two counts, both counts non-negative;
    the counts are the numbers of ready and not-ready addresses over all
    subsets, and the lists of addresses have those lengths.  The Endpoints
    object lists at most MaxInt addresses, as the slices of a Go program
    do. *)
Theorem EndpointHealth_total (c : ClusterClient) (namespace serviceName : string)
  (ep : Endpoints) (h : k8s.EndpointHealth) :
  Endpoints_Get c namespace serviceName = Ok ep ->
  readyAddressCount ep + notReadyAddressCount ep <= MaxInt ->
  k8s.GetServiceEndpointHealth c namespace serviceName = Ok h ->
  k8s.TotalEndpoints h = k8s.ReadyCount h + k8s.NotReadyCount h
  /\ 0 <= k8s.ReadyCount h
  /\ 0 <= k8s.NotReadyCount h
  /\ k8s.ReadyCount h = readyAddressCount ep
  /\ k8s.NotReadyCount h = notReadyAddressCount ep
  /\ len (k8s.ReadyAddresses h) = k8s.ReadyCount h
  /\ len (k8s.NotReadyPods h) = k8s.NotReadyCount h.
Proof. exact (EndpointHealth_total_facts c namespace serviceName ep h). Qed.

Lemma EndpointHealth_total_witness :
  exists h,
    k8s.GetServiceEndpointHealth
      (SampleEndpoints.withEndpoints SampleEndpoints.mixed SampleEndpoints.emptyClient)
      "default" "api" = Ok h
    /\ k8s.TotalEndpoints h = k8s.ReadyCount h + k8s.NotReadyCount h
    /\ k8s.ReadyCount h = 2 /\ k8s.NotReadyCount h = 1.
Proof.
  eexists. split; [reflexivity|].
  pose proof (EndpointHealth_total
                (SampleEndpoints.withEndpoints SampleEndpoints.mixed SampleEndpoints.emptyClient)
                "default" "api" SampleEndpoints.mixed _
                eq_refl ltac:(vm_compute; discriminate) eq_refl) as (T & _ & _ & R & N & _).
  split; [exact T|]. split; [exact R | exact N].
Defined.

(* ===================================================================== *)
(** ** Properties: diagram identifiers *)
(* ===================================================================== *)

Lemma underscore_isIDByte : mermaid.isIDByte "_"%char = true.
Proof. reflexivity. Qed.

Lemma underscore_not_digit : mermaid.isDigit "_"%char = false.
Proof. reflexivity. Qed.

Lemma replaceUnsafe_allIDBytes (s : string) :
  forall skip, allIDBytes (mermaid.replaceUnsafe skip s) = true.
Proof.
  induction s as [|c rest IH]; intros skip; simpl; [reflexivity|].
  destruct skip as [|k]; [|apply IH].
  destruct (mermaid.isIDByte c) eqn:E; simpl.
  - rewrite E. apply IH.
  - apply IH.
Qed.

Lemma replaceUnsafe_fixed (s : string) :
  allIDBytes s = true -> mermaid.replaceUnsafe 0 s = s.
Proof.
  induction s as [|c rest IH]; simpl; [reflexivity|].
  intros H. apply andb_prop in H as [Hc Hr].
  rewrite Hc. f_equal. now apply IH.
Qed.

Lemma SafeID_isSafeID (s : string) : isSafeID (mermaid.SafeID s) = true.
Proof.
  unfold mermaid.SafeID.
  pose proof (replaceUnsafe_allIDBytes s 0) as A.
  destruct (mermaid.replaceUnsafe 0 s) as [|c rest] eqn:E; [reflexivity|].
  destruct (mermaid.isDigit c) eqn:D.
  - change ("_" ++ String c rest) with (String "_"%char (String c rest)).
    unfold isSafeID. rewrite underscore_not_digit.
    change (allIDBytes (String "_"%char (String c rest)))
      with (mermaid.isIDByte "_"%char && allIDBytes (String c rest)).
    rewrite underscore_isIDByte, A. reflexivity.
  - unfold isSafeID. rewrite D, A. reflexivity.
Qed.

Lemma SafeID_fixed (s : string) : isSafeID s = true -> mermaid.SafeID s = s.
Proof.
  unfold isSafeID, mermaid.SafeID. destruct s as [|c rest]; [discriminate|].
  intros H. apply andb_prop in H as [D A].
  rewrite (replaceUnsafe_fixed _ A).
  apply negb_true_iff in D. now rewrite D.
Qed.



(* ===================================================================== *)
(** ** Properties: the report writer *)
(* ===================================================================== *)

Create HintDb writes discriminated.

Lemma writes_WriteString (P : util.Out -> Prop) (o : util.Out) :
  P o -> writes P (WriteString o).
Proof. intros H s. exists [o]. split; [reflexivity | now constructor]. Qed.

Lemma writes_WriteAll (P : util.Out -> Prop) (os : list util.Out) :
  Forall P os -> writes P (WriteAll os).
Proof. intros H s. exists os. now split. Qed.

Lemma writes_findingsInc (P : util.Out -> Prop) : writes P findingsInc.
Proof. intros s. exists []. split; [simpl; now rewrite app_nil_r | constructor]. Qed.

Lemma writes_appendAction (P : util.Out -> Prop) (a : string) : writes P (appendAction a).
Proof. intros s. exists []. split; [simpl; now rewrite app_nil_r | constructor]. Qed.

Lemma writes_skip (P : util.Out -> Prop) : writes P skip.
Proof. intros s. exists []. split; [unfold skip; now rewrite app_nil_r | constructor]. Qed.

Lemma writes_andThen (P : util.Out -> Prop) (f g : St -> St) :
  writes P f -> writes P g -> writes P (f >> g).
Proof.
  intros Hf Hg s. unfold andThen.
  destruct (Hf s) as (o1 & E1 & F1). destruct (Hg (f s)) as (o2 & E2 & F2).
  exists (o1 ++ o2)%list. split.
  - now rewrite E2, E1, app_assoc.
  - apply Forall_app. now split.
Qed.

Lemma writes_when (P : util.Out -> Prop) (b : bool) (f : St -> St) :
  writes P f -> writes P (when b f).
Proof. intros H. destruct b; [exact H | apply writes_skip]. Qed.

Lemma writes_forEach {A : Type} (P : util.Out -> Prop) (l : list A) (body : A -> St -> St) :
  (forall x, writes P (body x)) -> writes P (forEach l body).
Proof.
  intros H. unfold forEach. induction l as [|x l IH]; intros s; simpl.
  - exists []. split; [now rewrite app_nil_r | constructor].
  - destruct (H x s) as (o1 & E1 & F1). destruct (IH (body x s)) as (o2 & E2 & F2).
    exists (o1 ++ o2)%list. split.
    + now rewrite E2, E1, app_assoc.
    + apply Forall_app. now split.
Qed.

(** A part that first reads the state it is given. *)
Lemma writes_reading (P : util.Out -> Prop) (F : St -> St -> St) :
  (forall s0, writes P (F s0)) -> writes P (fun s => F s s).
Proof. intros H s. exact (H s s). Qed.

Lemma writes_writeFinding (P : util.Out -> Prop) (sev msg : string) :
  P (util.FormatFinding sev msg) -> P (util.Text LF) -> writes P (writeFinding sev msg).
Proof.
  intros H1 H2. unfold writeFinding.
  apply writes_andThen; now apply writes_WriteString.
Qed.

Lemma writes_writeFindingLine (P : util.Out -> Prop) (indent sev msg : string) :
  P (util.Text indent) -> P (util.FormatFinding sev msg) -> P (util.Text LF)
  -> writes P (writeFindingLine indent sev msg).
Proof.
  intros H0 H1 H2. unfold writeFindingLine.
  repeat apply writes_andThen; now apply writes_WriteString.
Qed.

#[export] Hint Resolve writes_WriteString writes_WriteAll writes_findingsInc
  writes_appendAction writes_skip writes_andThen writes_when writes_forEach
  writes_writeFinding writes_writeFindingLine : writes.

Lemma Forall_anyOut (os : list util.Out) : Forall anyOut os.
Proof. induction os; constructor; [exact I | assumption]. Qed.

#[export] Hint Resolve Forall_anyOut : writes.
#[export] Hint Extern 1 (anyOut _) => exact I : writes.

(** The pieces a part appends to a builder that already holds [pre] stay
    behind [pre]. *)
Lemma writes_keeps (P : util.Out -> Prop) (f : St -> St) (s : St) (pre out : list util.Out) :
  writes P f -> sb s = (pre ++ out)%list
  -> exists post, sb (f s) = (pre ++ out ++ post)%list /\ Forall P post.
Proof.
  intros W E. destruct (W s) as (post & E' & F).
  exists post. split; [|exact F]. now rewrite E', E, app_assoc.
Qed.

Lemma forEach_nil {A : Type} (body : A -> St -> St) (s : St) : forEach [] body s = s.
Proof. reflexivity. Qed.

Lemma forEach_cons {A : Type} (x : A) (l : list A) (body : A -> St -> St) (s : St) :
  forEach (x :: l) body s = forEach l body (body x s).
Proof. reflexivity. Qed.

(** A loop whose body appends pieces that depend on the element only. *)
Lemma forEach_out {A : Type} (l : list A) (body : A -> St -> St) (outOf : A -> list util.Out) :
  (forall x s, sb (body x s) = (sb s ++ outOf x)%list)
  -> forall s, sb (forEach l body s) = (sb s ++ flat_map outOf l)%list.
Proof.
  intros H. induction l as [|x l IH]; intros s.
  - simpl. now rewrite app_nil_r.
  - rewrite forEach_cons, IH, H. simpl. now rewrite app_assoc.
Qed.

Lemma sb_andThen (f g : St -> St) (s : St) : (f >> g) s = g (f s).
Proof. reflexivity. Qed.

Lemma sb_WriteString (o : util.Out) (s : St) : sb (WriteString o s) = (sb s ++ [o])%list.
Proof. reflexivity. Qed.

Lemma sb_WriteAll (os : list util.Out) (s : St) : sb (WriteAll os s) = (sb s ++ os)%list.
Proof. reflexivity. Qed.

Lemma sb_findingsInc (s : St) : sb (findingsInc s) = sb s.
Proof. reflexivity. Qed.

Lemma sb_appendAction (a : string) (s : St) : sb (appendAction a s) = sb s.
Proof. reflexivity. Qed.

Lemma sb_writeFinding (sev msg : string) (s : St) :
  sb (writeFinding sev msg s) = (sb s ++ [util.FormatFinding sev msg; util.Text LF])%list.
Proof. unfold writeFinding. simpl. now rewrite <- app_assoc. Qed.

Lemma sb_writeFindingLine (indent sev msg : string) (s : St) :
  sb (writeFindingLine indent sev msg s)
  = (sb s ++ [util.Text indent; util.FormatFinding sev msg; util.Text LF])%list.
Proof. unfold writeFindingLine. simpl. now rewrite <- !app_assoc. Qed.

(** Brings the left-hand side of an equation between lists to
    right-nested form; the right-hand side is left alone. *)
Ltac norm_lhs :=
  match goal with
  | |- ?L = _ =>
      let l := fresh "l" in
      let E := fresh "E" in
      remember L as l eqn:E;
      rewrite <- ?app_assoc in E; cbn [app] in E; subst l
  end.

(* ===================================================================== *)
(** ** Properties: diagnose_service *)
(* ===================================================================== *)

Lemma sb_eventLines (e : Event) (s : St) :
  sb (eventLines e s) = (sb s ++ eventPieces e)%list.
Proof.
  unfold eventLines, eventPieces, andThen, when.
  destruct (evCount e >? 1); simpl; now rewrite <- !app_assoc.
Qed.

Lemma eventsLoop_break (events remaining : list Event) (s : St) :
  10 < len events -> eventsLoop events remaining s = s.
Proof.
  intros H. destruct remaining as [|e rest]; simpl; [reflexivity|].
  destruct (Z.gtb_spec (len events) 10); [reflexivity | lia].
Qed.

Lemma eventsLoop_all (events remaining : list Event) (s : St) :
  len events <= 10
  -> sb (eventsLoop events remaining s) = (sb s ++ flat_map eventPieces remaining)%list.
Proof.
  intros H. revert s. induction remaining as [|e rest IH]; intros s; simpl.
  - unfold skip. now rewrite app_nil_r.
  - destruct (Z.gtb_spec (len events) 10); [lia|].
    rewrite sb_andThen, IH, sb_eventLines. now rewrite <- app_assoc.
Qed.

Lemma sb_assessmentSection (s : St) :
  exists verdict,
    sb (assessmentSection s)
    = (sb s ++ [util.Text LF; util.FormatSubHeader "Assessment"; util.Text LF;
                util.Text verdict])%list.
Proof.
  unfold assessmentSection, andThen.
  destruct (findings s =? 0); eexists; simpl; rewrite <- !app_assoc; reflexivity.
Qed.

(** C10. In the Recent Events section of diagnose_service, more than ten
    events leave the header alone, the loop breaking on its first
    iteration; one to ten events are all rendered.  The section stands in
    the report right before the Assessment. *)
Theorem recentEvents_spec (events : list Event) :
  (forall s, 10 < len events
     -> sb (recentEventsSection events s) = (sb s ++ recentEventsHeader)%list)
  /\ (forall s, 1 <= len events <= 10
        -> sb (recentEventsSection events s)
           = (sb s ++ recentEventsHeader ++ flat_map eventPieces events)%list)
  /\ (forall FormatAge FormatLabels usageLines client input svc,
         GetService client (dsNamespace input) (dsServiceName input) = Ok svc
         -> orNil (GetEventsForObject client (dsNamespace input) (dsServiceName input))
            = events
         -> exists before rest,
             diagnose_service FormatAge FormatLabels usageLines client input
             = util.SuccessResult
                 (sb (recentEventsSection events before)
                  ++ [util.Text LF; util.FormatSubHeader "Assessment"; util.Text LF]
                  ++ rest)%list).
Proof.
  split; [|split].
  - intros s H. unfold recentEventsSection, when.
    destruct (Z.gtb_spec (len events) 0); [|lia].
    rewrite !sb_andThen, eventsLoop_break by exact H.
    simpl. now rewrite <- !app_assoc.
  - intros s H. unfold recentEventsSection, when.
    destruct (Z.gtb_spec (len events) 0); [|lia].
    rewrite !sb_andThen, eventsLoop_all by lia.
    simpl. now rewrite <- !app_assoc.
  - intros FormatAge FormatLabels usageLines client input svc G E.
    unfold diagnose_service. rewrite G. unfold serviceSections. rewrite E.
    rewrite !sb_andThen.
    match goal with
    | |- context [assessmentSection (recentEventsSection events ?b)] =>
        exists b; destruct (sb_assessmentSection (recentEventsSection events b)) as [v Hv]
    end.
    rewrite !sb_WriteString, Hv. eexists. f_equal. norm_lhs. reflexivity.
Qed.

Lemma recentEvents_spec_witness :
  sb (recentEventsSection SampleEvents.eleven St0) = recentEventsHeader
  /\ sb (recentEventsSection SampleEvents.two St0)
     = [util.Text LF; util.FormatSubHeader "Recent Events"; util.Text LF;
        util.Text "  Scaled: scaled to 3"; util.Text LF;
        util.Text "  [WARNING] FailedSync: no endpoints"; util.Text " (x4)"; util.Text LF].
Proof.
  split.
  - apply (proj1 (recentEvents_spec SampleEvents.eleven) St0). reflexivity.
  - apply (proj1 (proj2 (recentEvents_spec SampleEvents.two)) St0). split; discriminate.
Defined.

(** One step of a proof that a handler part only appends pieces. *)
Ltac writes_step :=
  match goal with
  | |- writes _ skip => apply writes_skip
  | |- writes _ findingsInc => apply writes_findingsInc
  | |- writes _ (appendAction _) => apply writes_appendAction
  | |- writes _ (WriteString _) => apply writes_WriteString
  | |- writes _ (WriteAll _) => apply writes_WriteAll
  | |- writes _ (writeFinding _ _) => apply writes_writeFinding
  | |- writes _ (writeFindingLine _ _ _) => apply writes_writeFindingLine
  | |- writes _ (andThen _ _) => apply writes_andThen
  | |- writes _ (when false _) => apply writes_skip
  | |- writes _ (when _ _) => apply writes_when
  | |- writes _ (forEach _ _) => apply writes_forEach; intros
  | |- writes _ (match ?x with _ => _ end) => destruct x
  end.









(* ===================================================================== *)
(** ** Properties: check_dns_health *)
(* ===================================================================== *)

Lemma filter_none {A : Type} (f : A -> bool) (l : list A) :
  Forall (fun x => f x = false) l -> filter f l = [].
Proof.
  induction 1 as [|x l H _ IH]; simpl; [reflexivity|]. now rewrite H.
Qed.

(** C7, as the code has it.  CoreDNS pods are looked up by the k8s-app
    label, then by the app.kubernetes.io/name label, then by name prefix,
    the first non-empty answer being kept.  When all three find nothing
    the report is the header, one Critical finding and two lines of
    advice, and ends there: no log is read, and no section, the overall
    assessment included, is written. *)
Theorem no_coredns_pods (FormatAge : Z -> string) (HighRestartThreshold : Z)
  (client : ClusterClient) :
  (forall p ps,
      ListPods client "kube-system" "k8s-app=kube-dns" = Ok (p :: ps)
      -> findCoreDNSPods client = Ok (p :: ps))
  /\ (forall p ps,
         ListPods client "kube-system" "k8s-app=kube-dns" = Ok []
         -> ListPods client "kube-system" "app.kubernetes.io/name=coredns" = Ok (p :: ps)
         -> findCoreDNSPods client = Ok (p :: ps))
  /\ (ListPods client "kube-system" "k8s-app=kube-dns" = Ok []
      -> ListPods client "kube-system" "app.kubernetes.io/name=coredns" = Ok []
      -> findCoreDNSPods client
         = Ok (corednsByName (orNil (ListPods client "kube-system" ""))))
  /\ (ListPods client "kube-system" "k8s-app=kube-dns" = Ok []
      -> ListPods client "kube-system" "app.kubernetes.io/name=coredns" = Ok []
      -> corednsByName (orNil (ListPods client "kube-system" "")) = []
      -> check_dns_health FormatAge HighRestartThreshold client
         = util.SuccessResult noCoreDNSReport
         /\ util.findingsOf noCoreDNSReport
            = [("CRITICAL", "No CoreDNS pods found in kube-system namespace")]
         /\ util.subHeadersOf noCoreDNSReport = []).
Proof.
  assert (third :
    ListPods client "kube-system" "k8s-app=kube-dns" = Ok []
    -> ListPods client "kube-system" "app.kubernetes.io/name=coredns" = Ok []
    -> findCoreDNSPods client
       = Ok (corednsByName (orNil (ListPods client "kube-system" "")))).
  { intros H1 H2. unfold findCoreDNSPods. rewrite H1. simpl. rewrite H2. simpl.
    destruct (ListPods client "kube-system" ""); reflexivity. }
  split; [|split; [|split]].
  - intros p ps H. unfold findCoreDNSPods. rewrite H. reflexivity.
  - intros p ps H1 H2. unfold findCoreDNSPods. rewrite H1. simpl. rewrite H2. reflexivity.
  - exact third.
  - intros H1 H2 H3. split; [|split; reflexivity].
    unfold check_dns_health. rewrite (third H1 H2), H3. reflexivity.
Qed.

Lemma no_coredns_pods_witness :
  check_dns_health SampleServices.age 5 SampleDNS.noDNSClient
  = util.SuccessResult noCoreDNSReport.
Proof.
  apply (proj2 (proj2 (proj2 (no_coredns_pods SampleServices.age 5 SampleDNS.noDNSClient))));
    reflexivity.
Defined.

(** C7 as stated fails: the report for a cluster without CoreDNS pods has
    no overall assessment section and says nothing about pods running. *)
Lemma no_coredns_pods_no_assessment :
  check_dns_health SampleServices.age 5 SampleDNS.noDNSClient
  = util.SuccessResult SampleDNS.noDNSReport
  /\ existsb (String.eqb "Overall DNS Assessment")
       (util.subHeadersOf SampleDNS.noDNSReport) = false
  /\ existsb (fun t => strings.Contains t "pods running")
       (util.textsOf SampleDNS.noDNSReport) = false
  /\ existsb (fun t => strings.Contains t "0/0")
       (util.textsOf SampleDNS.noDNSReport) = false.
Proof. vm_compute. repeat split. Qed.

(* ===================================================================== *)
(** ** Properties: analyze_network_policies *)
(* ===================================================================== *)

Lemma extends_refl (s : St) : extends s s.
Proof. exists []. now rewrite app_nil_r. Qed.

Lemma extends_trans (s1 s2 s3 : St) : extends s1 s2 -> extends s2 s3 -> extends s1 s3.
Proof.
  intros [o1 E1] [o2 E2]. exists (o1 ++ o2)%list. now rewrite E2, E1, app_assoc.
Qed.

Lemma writes_extends (P : util.Out -> Prop) (f : St -> St) (s : St) :
  writes P f -> extends s (f s).
Proof. intros W. destruct (W s) as (out & E & _). now exists out. Qed.

(** The state a loop is in when it reaches one of its elements. *)
Lemma forEach_In {A : Type} (l : list A) (body : A -> St -> St) (x : A) (s : St) :
  (forall y, writes anyOut (body y)) -> In x l
  -> exists before, extends s before /\ extends (body x before) (forEach l body s).
Proof.
  intros W I. apply in_split in I as (l1 & l2 & ->).
  exists (forEach l1 body s). split.
  - apply writes_extends with (P := anyOut). now apply writes_forEach.
  - unfold forEach. rewrite fold_left_app. simpl.
    apply writes_extends with (P := anyOut) (f := forEach l2 body). now apply writes_forEach.
Qed.

Lemma app_inj_head (p a b : string) : p ++ a = p ++ b -> a = b.
Proof.
  induction p as [|c p IH]; simpl; intros H; [exact H|].
  injection H as H. now apply IH.
Qed.

Lemma denyMessages_differ (np : NetworkPolicy) : egressDenyMessage np <> ingressDenyMessage np.
Proof.
  unfold egressDenyMessage, ingressDenyMessage. intros H.
  apply app_inj_head in H. apply app_inj_head in H. discriminate H.
Qed.

Lemma hasIngress_iff (np : NetworkPolicy) :
  hasIngress np = true <-> In PolicyTypeIngress (PolicyTypes np) \/ PolicyTypes np = [].
Proof.
  unfold hasIngress. rewrite orb_true_iff, existsb_exists. split.
  - intros [(pt & I & E)|E].
    + left. apply String.eqb_eq in E. now subst.
    + right. destruct (PolicyTypes np); [reflexivity | discriminate].
  - intros [I|E].
    + left. exists PolicyTypeIngress. split; [exact I | apply String.eqb_refl].
    + right. now rewrite E.
Qed.

Lemma policyMatrix_writes (formatLabelSelector : LabelSelector -> string) (np : NetworkPolicy) :
  writes anyOut (policyMatrix formatLabelSelector np).
Proof. unfold policyMatrix. repeat writes_step; auto with writes. Qed.

Lemma policyFindings_writes (np : NetworkPolicy) : writes anyOut (policyFindings np).
Proof. unfold policyFindings. repeat writes_step; auto with writes. Qed.

Lemma sb_policyMatrix (formatLabelSelector : LabelSelector -> string) (np : NetworkPolicy)
  (s : St) :
  sb (policyMatrix formatLabelSelector np s)
  = (sb s
     ++ [util.Text (LF ++ "  Policy: " ++ npName np ++ LF);
         util.Text ("    Selects: " ++ formatLabelSelector (PodSelector np) ++ LF)]
     ++ ingressMatrix np ++ egressMatrix np)%list.
Proof. unfold policyMatrix, andThen. simpl. now rewrite <- !app_assoc. Qed.

(** What the three tests of [policyFindings] write, one after the other. *)
Lemma sb_policyFindings (np : NetworkPolicy) (s : St) :
  sb (policyFindings np s)
  = (sb s
     ++ (if deniesIngress np
         then [util.FormatFinding "CRITICAL" (ingressDenyMessage np); util.Text LF] else [])
     ++ (if deniesEgress np
         then [util.FormatFinding "CRITICAL" (egressDenyMessage np); util.Text LF] else [])
     ++ (if (len (MatchLabels (PodSelector np)) =? 0) && (MatchExpressions (PodSelector np) =? 0)
         then [util.FormatFinding "INFO"
                 ("Policy '" ++ npName np ++ "' selects ALL pods in namespace");
               util.Text LF]
         else []))%list.
Proof.
  unfold policyFindings, deniesIngress, deniesEgress, andThen, when.
  destruct (hasIngress np && (len (IngressRules np) =? 0));
    destruct (hasEgress np && (len (EgressRules np) =? 0));
    destruct ((len (MatchLabels (PodSelector np)) =? 0)
              && (MatchExpressions (PodSelector np) =? 0));
    simpl; rewrite <- ?app_assoc; simpl; rewrite ?app_nil_r; reflexivity.
Qed.

Lemma policyFindingsBlock_tail_writes :
  writes anyOut
    (fun s : St =>
       when (findings s =? 0)
         (WriteString (util.Text ("  Network policies appear well-configured." ++ LF))) s).
Proof.
  intros s. destruct (findings s =? 0); simpl.
  - eexists. split; [reflexivity | auto with writes].
  - exists []. split; [now rewrite app_nil_r | constructor].
Qed.

Lemma app4_tail {A : Type} (a b c d t : list A) :
  (a ++ b ++ c ++ d ++ t = (a ++ b ++ c ++ d) ++ t)%list.
Proof. now rewrite <- !app_assoc. Qed.

(** Where the verdict on a policy stands in the report of the audit. *)
Lemma policyAnalysis_shape
  (client : ClusterClient) (formatLabelSelector : LabelSelector -> string)
  (LabelSelectorAsSelector : LabelSelector -> result (list (string * string) -> bool))
  (policies : list NetworkPolicy) (pods : list Pod) (np : NetworkPolicy) (s : St) :
  In np policies -> deniesIngress np = true
  -> exists pre mid post,
      sb (policyAnalysis formatLabelSelector LabelSelectorAsSelector policies pods s)
      = (pre ++ denyAllIngressMatrix formatLabelSelector np ++ mid
         ++ [util.FormatFinding "CRITICAL" (ingressDenyMessage np); util.Text LF]
         ++ post)%list.
Proof.
  intros I D.
  unfold policyAnalysis, policyFindingsBlock.
  repeat rewrite sb_andThen.
  repeat match goal with
  | |- context [forEach policies (policyMatrix formatLabelSelector) ?s0] =>
      destruct (forEach_In policies (policyMatrix formatLabelSelector) np s0
                  (policyMatrix_writes formatLabelSelector) I)
        as (b1 & _ & [r1 E1]);
      generalize dependent (forEach policies (policyMatrix formatLabelSelector) s0);
      intros sB E1
  end.
  match goal with
  | |- context [forEach policies policyFindings ?s0] =>
      destruct (forEach_In policies policyFindings np s0 policyFindings_writes I)
        as (b2 & [r2 E2] & [r3 E3]);
      assert (X : extends sB s0)
        by (eapply extends_trans;
            [ apply writes_extends with (P := anyOut); apply writes_WriteString;
              exact Logic.I
            | apply writes_extends with (P := anyOut); apply writes_when;
              repeat writes_step; exact Logic.I ]);
      destruct X as [r4 E4];
      generalize dependent (forEach policies policyFindings s0); intros sD E3;
      generalize dependent s0; intros sC E2 E4
  end.
  rewrite !sb_WriteString.
  destruct (policyFindingsBlock_tail_writes sD) as (r5 & E5 & _).
  rewrite E5, E3, sb_policyFindings, D, E2, E4, E1, sb_policyMatrix.
  unfold ingressMatrix. unfold deniesIngress in D. apply andb_prop in D as [D1 D2].
  rewrite D1, D2.
  unfold denyAllIngressMatrix.
  exists (sb b1).
  match goal with
  | |- exists mid post, ?L = _ =>
      let l := fresh "l" in
      remember L as l eqn:E; rewrite <- ?app_assoc in E; cbn [app] in E; subst l
  end.
  exists (egressMatrix np ++ r1 ++ r4 ++ r2)%list. eexists.
  f_equal. cbn [app]. do 3 f_equal. apply app4_tail.
Qed.

Lemma hasEgress_iff (np : NetworkPolicy) :
  hasEgress np = true <-> In PolicyTypeEgress (PolicyTypes np).
Proof.
  unfold hasEgress. rewrite existsb_exists. split.
  - intros (pt & I & E). apply String.eqb_eq in E. now subst.
  - intros I. exists PolicyTypeEgress. split; [exact I | apply String.eqb_refl].
Qed.

Lemma not_true_false (b : bool) : b <> true -> b = false.
Proof. destruct b; [contradiction | reflexivity]. Qed.

(** C3. A policy whose policyTypes holds Ingress, or is empty, and that
    has no ingress rule is classified DENY ALL for inbound traffic: that
    is the one line its allow/deny matrix has for the direction, no ALLOW
    line, and the audit reports a Critical finding for it.  A direction
    whose type is absent gets no line in the matrix and no deny-all
    finding. *)
Theorem deny_all_ingress (np : NetworkPolicy) :
  (In PolicyTypeIngress (PolicyTypes np) \/ PolicyTypes np = []
   -> IngressRules np = []
   -> ingressMatrix np = [util.Text ("    Ingress: DENY ALL" ++ LF)]
      /\ (forall s, exists rest,
             sb (policyFindings np s)
             = (sb s ++ [util.FormatFinding "CRITICAL" (ingressDenyMessage np); util.Text LF]
                ++ rest)%list)
      /\ (forall client formatLabelSelector LabelSelectorAsSelector ns policies pods,
             ListNetworkPolicies client ns = Ok policies
             -> ListPods client ns "" = Ok pods
             -> In np policies
             -> exists pre mid post,
                 analyze_network_policies client formatLabelSelector
                   LabelSelectorAsSelector ns
                 = util.SuccessResult
                     (pre ++ denyAllIngressMatrix formatLabelSelector np ++ mid
                      ++ [util.FormatFinding "CRITICAL" (ingressDenyMessage np); util.Text LF]
                      ++ post)%list))
  /\ (~ (In PolicyTypeIngress (PolicyTypes np) \/ PolicyTypes np = [])
      -> ingressMatrix np = []
         /\ forall s out,
             sb (policyFindings np s) = (sb s ++ out)%list
             -> ~ In (util.FormatFinding "CRITICAL" (ingressDenyMessage np)) out)
  /\ (~ In PolicyTypeEgress (PolicyTypes np)
      -> egressMatrix np = []
         /\ forall s out,
             sb (policyFindings np s) = (sb s ++ out)%list
             -> ~ In (util.FormatFinding "CRITICAL" (egressDenyMessage np)) out).
Proof.
  split; [|split].
  - intros T R. apply hasIngress_iff in T.
    assert (D : deniesIngress np = true) by (unfold deniesIngress; now rewrite T, R).
    split; [|split].
    + unfold ingressMatrix. now rewrite T, R.
    + intros s. rewrite sb_policyFindings, D. eexists. norm_lhs. reflexivity.
    + intros client formatLabelSelector LabelSelectorAsSelector ns policies pods LP LPods I.
      unfold analyze_network_policies. rewrite LP, LPods.
      destruct policies as [|p0 ps]; [contradiction|].
      change (len (p0 :: ps) =? 0) with (Z.pos (Pos.of_succ_nat (List.length ps)) =? 0).
      cbn [Z.eqb].
      match goal with
      | |- context [policyAnalysis _ _ _ _ ?s0] =>
          destruct (policyAnalysis_shape client formatLabelSelector LabelSelectorAsSelector
                      (p0 :: ps) pods np s0 I D) as (pre & mid & post & E)
      end.
      exists pre, mid, post. now rewrite E.
  - intros T. assert (H : hasIngress np = false).
    { apply not_true_false. intros H. apply T. now apply hasIngress_iff. }
    split.
    + unfold ingressMatrix. now rewrite H.
    + intros s out E. rewrite sb_policyFindings in E. apply app_inv_head in E. subst out.
      unfold deniesIngress. rewrite H. simpl.
      intros I. apply in_app_or in I as [I|I].
      * destruct (deniesEgress np); simpl in I; [|contradiction].
        destruct I as [I|[I|[]]]; [|discriminate I].
        apply (denyMessages_differ np). congruence.
      * destruct ((len (MatchLabels (PodSelector np)) =? 0)
                  && (MatchExpressions (PodSelector np) =? 0)); simpl in I; [|contradiction].
        destruct I as [I|[I|[]]]; discriminate I.
  - intros T. assert (H : hasEgress np = false).
    { apply not_true_false. intros H. apply T. now apply hasEgress_iff. }
    split.
    + unfold egressMatrix. now rewrite H.
    + intros s out E. rewrite sb_policyFindings in E. apply app_inv_head in E. subst out.
      unfold deniesEgress. rewrite H. simpl.
      intros I. apply in_app_or in I as [I|I].
      * destruct (deniesIngress np); simpl in I; [|contradiction].
        destruct I as [I|[I|[]]]; [|discriminate I].
        apply (denyMessages_differ np). congruence.
      * destruct ((len (MatchLabels (PodSelector np)) =? 0)
                  && (MatchExpressions (PodSelector np) =? 0)); simpl in I; [|contradiction].
        destruct I as [I|[I|[]]]; discriminate I.
Qed.

Lemma deny_all_ingress_witness :
  ingressMatrix SamplePolicies.denyIngress = [util.Text ("    Ingress: DENY ALL" ++ LF)]
  /\ ingressMatrix SamplePolicies.denyInferred = [util.Text ("    Ingress: DENY ALL" ++ LF)]
  /\ ingressMatrix SamplePolicies.egressOnly = []
  /\ egressMatrix SamplePolicies.denyIngress = []
  /\ exists pre mid post,
       analyze_network_policies SamplePolicies.policyClient SamplePolicies.formatSelector
         SamplePolicies.asSelector "default"
       = util.SuccessResult
           (pre ++ denyAllIngressMatrix SamplePolicies.formatSelector SamplePolicies.denyIngress
            ++ mid
            ++ [util.FormatFinding "CRITICAL"
                  "Policy 'default-deny' has Ingress type but no ingress rules — all inbound traffic DENIED to matched pods";
                util.Text LF]
            ++ post)%list.
Proof.
  split; [|split; [|split; [|split]]].
  - apply (proj1 (deny_all_ingress SamplePolicies.denyIngress)).
    + left. simpl. now left.
    + reflexivity.
  - apply (proj1 (deny_all_ingress SamplePolicies.denyInferred)).
    + right. reflexivity.
    + reflexivity.
  - apply (proj1 (proj2 (deny_all_ingress SamplePolicies.egressOnly))).
    intros [[H|[]]|H]; discriminate H.
  - apply (proj2 (proj2 (deny_all_ingress SamplePolicies.denyIngress))).
    intros [H|[]]. discriminate H.
  - destruct (proj1 (deny_all_ingress SamplePolicies.denyIngress)
                (or_introl (or_introl eq_refl)) eq_refl) as (_ & _ & H).
    apply (H SamplePolicies.policyClient SamplePolicies.formatSelector
             SamplePolicies.asSelector "default"
             [SamplePolicies.egressOnly; SamplePolicies.denyIngress] []);
      [reflexivity | reflexivity | right; left; reflexivity].
Defined.

(* ===================================================================== *)
(** ** Properties: diagnose_request_path *)
(* ===================================================================== *)

Lemma SafeID_pod (name : string) :
  mermaid.SafeID ("pod_" ++ name) = "pod_" ++ mermaid.replaceUnsafe 0 name.
Proof. reflexivity. Qed.

Lemma pod_style_not_svc (name style : string) :
  notStyleOf "svc" ("    style " ++ mermaid.SafeID ("pod_" ++ name) ++ " " ++ style).
Proof. rewrite SafeID_pod. reflexivity. Qed.

Lemma addPodNode_styles (p : Pod) (fc : mermaid.Flowchart) :
  Forall (notStyleOf "svc") (mermaid.styles fc)
  -> Forall (notStyleOf "svc") (mermaid.styles (addPodNode p fc)).
Proof.
  intros F. unfold addPodNode.
  destruct (isPodHealthy p); simpl; apply Forall_app; split; try exact F;
    repeat constructor; apply pod_style_not_svc.
Qed.

Lemma requestPathTopology_styles (ing : Ingress) (rule : IngressRule)
  (matchedPath : HTTPIngressPath) (svc : Service) (pods : list Pod) :
  Forall (notStyleOf "svc")
    (mermaid.styles (requestPathTopology ing rule matchedPath svc pods)).
Proof.
  unfold requestPathTopology.
  match goal with
  | |- context [fold_left _ pods ?fc0] =>
      assert (F0 : Forall (notStyleOf "svc") (mermaid.styles fc0))
        by (repeat constructor);
      generalize dependent fc0
  end.
  induction pods as [|p pods IH]; intros fc0 F0; simpl; [exact F0|].
  apply IH. now apply addPodNode_styles.
Qed.

Lemma sb_forEach_WriteString {A : Type} (l : list A) (piece : A -> util.Out) (s : St) :
  sb (forEach l (fun x => WriteString (piece x)) s) = (sb s ++ map piece l)%list.
Proof.
  rewrite (forEach_out l _ (fun x => [piece x])) by reflexivity.
  f_equal; induction l; simpl; congruence.
Qed.

Lemma endpointsStage_notReady
  (FormatLabels : option (list (string * string)) -> string) (client : ClusterClient)
  (ing : Ingress) (matchedPath : HTTPIngressPath) (svc : Service) (ep : Endpoints) :
  Endpoints_Get client (ingNamespace ing) (backendSvcName matchedPath) = Ok ep
  -> readyAddressCount ep = 0 -> notReadyAddressCount ep = 2
  -> exists h,
      k8s.GetServiceEndpointHealth client (ingNamespace ing) (backendSvcName matchedPath)
      = Ok h
      /\ List.length (k8s.NotReadyPods h) = 2%nat
      /\ forall s,
          sb (endpointsStage FormatLabels client ing matchedPath svc s)
          = (sb s ++ notReadyEndpointsPieces ++ map notReadyLine (k8s.NotReadyPods h))%list.
Proof.
  intros G R N.
  destruct (k8s.GetServiceEndpointHealth client (ingNamespace ing)
              (backendSvcName matchedPath)) as [h|e] eqn:E;
    [|unfold k8s.GetServiceEndpointHealth in E; rewrite G in E; discriminate E].
  destruct (EndpointHealth_total_facts client _ _ ep h G
              ltac:(rewrite R, N; discriminate) E) as (T & _ & _ & HR & HN & _ & LN).
  exists h. split; [reflexivity|]. split.
  - unfold len in LN. rewrite HN, N in LN. lia.
  - intros s. unfold endpointsStage. rewrite E. unfold endpointsReport.
    rewrite HR, HN, R, N in T. rewrite T, HR, HN, R, N.
    change (0 + 2 =? 0) with false. change (2 >? 0) with true. change (0 + 2) with 2.
    cbv iota.
    rewrite !sb_andThen, sb_findingsInc.
    rewrite (sb_forEach_WriteString (k8s.NotReadyPods h) notReadyLine).
    rewrite sb_writeFindingLine, !sb_WriteString.
    unfold notReadyEndpointsPieces. rewrite <- !app_assoc. reflexivity.
Qed.

Lemma applyUsageBlock_writes
  (usageBlock : list PodMetrics -> list Pod -> list util.Out * nat * list string)
  (podMetrics : list PodMetrics) (pods : list Pod) :
  writes anyOut (applyUsageBlock usageBlock podMetrics pods).
Proof.
  intros s. unfold applyUsageBlock.
  destruct (usageBlock podMetrics pods) as [[out n] acts].
  exists out. split; [reflexivity | apply Forall_anyOut].
Qed.

Lemma summaryStage_writes : writes anyOut summaryStage.
Proof.
  intros s. unfold summaryStage, andThen, when.
  destruct (findings s =? 0); destruct (len (actions s) >? 0); simpl;
    eexists; (split; [norm_lhs; reflexivity | apply Forall_anyOut]).
Qed.

Lemma podsStage_writes (FormatAge : Z -> string) (HighRestartThreshold : Z)
  (podsResult : result (list Pod)) :
  writes anyOut (podsStage FormatAge HighRestartThreshold podsResult).
Proof.
  unfold podsStage. destruct podsResult as [pods|e]; [|apply writes_skip].
  unfold podChecks. repeat writes_step; exact Logic.I.
Qed.

Lemma resourceUsageStage_writes
  (usageBlock : list PodMetrics -> list Pod -> list util.Out * nat * list string)
  (client : ClusterClient) (ing : Ingress) (pods : list Pod) :
  writes anyOut (resourceUsageStage usageBlock client ing pods).
Proof.
  unfold resourceUsageStage. apply writes_andThen; [apply writes_WriteString; exact Logic.I|].
  destruct (GetPodMetrics client (ingNamespace ing)).
  - apply writes_when, applyUsageBlock_writes.
  - apply writes_WriteString. exact Logic.I.
Qed.

(** C1 as stated fails: in the scenario the service node of the topology
    flowchart gets no style line at all, so no severity other than
    healthy either; the styles are the fixed one of the ingress node and
    one per pod. *)
Lemma request_path_service_node_unstyled :
  diagnose_request_path SampleServices.age SampleServices.labels 5
    SampleServices.noUsageBlock SampleRequestPath.client SampleRequestPath.input
  = util.SuccessResult SampleRequestPath.report
  /\ In (util.Text (mermaid.RenderBlock SampleRequestPath.topology)) SampleRequestPath.report
  /\ In "    svc[Service: api<br/>ClusterIP:80]" (mermaid.lines SampleRequestPath.topology)
  /\ mermaid.styles SampleRequestPath.topology
     = ["    style agw fill:#cce5ff,stroke:#4a90d9,stroke-width:2px";
        "    style pod_api_0 fill:#ffcccc,stroke:#cc0000,stroke-width:2px";
        "    style pod_api_1 fill:#ffcccc,stroke:#cc0000,stroke-width:2px"]
  /\ existsb (fun line => strings.HasPrefix line "    style svc ")
       (mermaid.styles SampleRequestPath.topology) = false
  /\ util.findingsOf SampleRequestPath.report
     = [("WARNING", "2 endpoint(s) not ready");
        ("CRITICAL", "Pod 'api-0' is unhealthy: Running");
        ("CRITICAL", "Pod 'api-1' is unhealthy: Running")].
Proof.
  split; [reflexivity|]. split; [|split; [|split; [|split]]].
  - vm_compute. repeat (try (left; reflexivity); right).
  - vm_compute. repeat (try (left; reflexivity); right).
  - vm_compute. reflexivity.
  - vm_compute. reflexivity.
  - vm_compute. reflexivity.
Qed.


(* ===================================================================== *)
(** ** Further properties: topology resolvers *)
(* ===================================================================== *)

Lemma findPath_sound (paths : list HTTPIngressPath) (path : string) (p : HTTPIngressPath) :
  k8s.findPath paths path = Some p
  -> exists pre post,
       paths = (pre ++ p :: post)%list
       /\ k8s.matchPath (Path p) path (effectivePathType p) = true
       /\ Forall (fun q => k8s.matchPath (Path q) path (effectivePathType q) = false) pre.
Proof.
  induction paths as [|q rest IH]; simpl; [discriminate|].
  fold (effectivePathType q).
  destruct (k8s.matchPath (Path q) path (effectivePathType q)) eqn:M.
  - intros H. injection H as <-. exists [], rest. repeat split; [exact M | constructor].
  - intros H. destruct (IH H) as (pre & post & -> & Mp & F).
    exists (q :: pre), post. repeat split; [exact Mp | now constructor].
Qed.

Lemma findPath_none (paths : list HTTPIngressPath) (path : string) :
  k8s.findPath paths path = None
  <-> Forall (fun q => k8s.matchPath (Path q) path (effectivePathType q) = false) paths.
Proof.
  induction paths as [|q rest IH]; simpl.
  - split; [constructor | reflexivity].
  - fold (effectivePathType q).
    destruct (k8s.matchPath (Path q) path (effectivePathType q)) eqn:M.
    + split; [discriminate|]. intros F. inversion F; congruence.
    + rewrite IH. split; [now constructor | intros F; now inversion F].
Qed.

Lemma findRule_none (rules : list IngressRule) (host path : string) :
  k8s.findRule rules host path = None
  <-> forall rule p, In rule rules -> ~ routes host path rule p.
Proof.
  induction rules as [|r rest IH]; simpl.
  - split; [intros _ rule p [] | reflexivity].
  - destruct (String.eqb_spec (Host r) host) as [E|NE]; simpl.
    + destruct (HTTP r) as [paths|] eqn:HP.
      * destruct (k8s.findPath paths path) as [p|] eqn:FP.
        -- split; [discriminate|]. intros H. exfalso.
           destruct (findPath_sound _ _ _ FP) as (pre & post & -> & M & _).
           apply (H r p); [now left|].
           split; [exact E|]. exists (pre ++ p :: post)%list.
           repeat split; [exact HP | apply in_elt | exact M].
        -- rewrite IH. apply findPath_none in FP. split.
           ++ intros H rule p [<-|I]; [|now apply H].
              intros (_ & paths' & HP' & Ip & M). rewrite HP in HP'. injection HP' as <-.
              rewrite Forall_forall in FP. specialize (FP p Ip). congruence.
           ++ intros H rule p I. apply H. now right.
      * rewrite IH. split.
        -- intros H rule p [<-|I]; [|now apply H].
           intros (_ & paths' & HP' & _). congruence.
        -- intros H rule p I. apply H. now right.
    + rewrite IH. split.
      * intros H rule p [<-|I]; [|now apply H]. intros (Hh & _). contradiction.
      * intros H rule p I. apply H. now right.
Qed.

Lemma findRule_sound (rules : list IngressRule) (host path : string)
  (rule : IngressRule) (p : HTTPIngressPath) :
  k8s.findRule rules host path = Some (rule, p) -> In rule rules /\ routes host path rule p.
Proof.
  induction rules as [|r rest IH]; simpl; [discriminate|].
  destruct (String.eqb_spec (Host r) host) as [E|NE]; simpl.
  - destruct (HTTP r) as [paths|] eqn:HP.
    + destruct (k8s.findPath paths path) as [q|] eqn:FP.
      * intros H. injection H as <- <-.
        destruct (findPath_sound _ _ _ FP) as (pre & post & -> & M & _).
        split; [now left|]. split; [exact E|].
        exists (pre ++ q :: post)%list. repeat split; [exact HP | apply in_elt | exact M].
      * intros H. destruct (IH H). split; [now right | assumption].
    + intros H. destruct (IH H). split; [now right | assumption].
  - intros H. destruct (IH H). split; [now right | assumption].
Qed.


Lemma findIngress_none (items : list Ingress) (host path : string) :
  k8s.findIngress items host path = None <-> Forall (routesNothing host path) items.
Proof.
  induction items as [|i rest IH]; simpl.
  - split; [constructor | reflexivity].
  - destruct (k8s.findRule (Rules i) host path) as [[r q]|] eqn:FR.
    + split; [discriminate|]. intros F. inversion F as [|? ? N _]; subst.
      destruct (findRule_sound _ _ _ _ _ FR) as [I R]. now apply N in R.
    + rewrite IH. split.
      * intros F. constructor; [|exact F]. unfold routesNothing. now apply findRule_none.
      * intros F. now inversion F.
Qed.

Lemma FindIngressForHostPath_listed (c : ClusterClient) (namespace host path : string)
  (items : list Ingress) :
  listedIngresses c namespace items
  -> k8s.FindIngressForHostPath c namespace host path
     = match k8s.findIngress items host path with
       | Some found => Ok found
       | None => Err ("no ingress found for " ++ host ++ path)
       end.
Proof.
  unfold listedIngresses, k8s.FindIngressForHostPath. intros L. rewrite L.
  destruct (String.eqb_spec namespace "") as [->|_]; [rewrite L|]; reflexivity.
Qed.



(** X2. When the ingresses can be listed, FindIngressForHostPath fails
    exactly when no rule of any listed ingress routes the host and path,
    and the error then names the host and path. *)
Theorem FindIngressForHostPath_not_found (c : ClusterClient)
  (namespace host path : string) (items : list Ingress) :
  listedIngresses c namespace items
  -> ((exists e, k8s.FindIngressForHostPath c namespace host path = Err e)
      <-> Forall (routesNothing host path) items)
     /\ (forall e, k8s.FindIngressForHostPath c namespace host path = Err e
                   -> e = "no ingress found for " ++ host ++ path).
Proof.
  intros L. rewrite (FindIngressForHostPath_listed _ _ _ _ _ L). split.
  - rewrite <- findIngress_none.
    destruct (k8s.findIngress items host path) as [found|].
    + split; [intros [e H]; discriminate H | discriminate].
    + split; [reflexivity | intros _; eexists; reflexivity].
  - intros e. destruct (k8s.findIngress items host path); [discriminate|].
    intros H. now injection H as <-.
Qed.

Lemma FindIngressForHostPath_not_found_witness :
  k8s.FindIngressForHostPath SampleRequestPath.client "" "shop.example.com" "/"
  = Err "no ingress found for shop.example.com/".
Proof.
  destruct (FindIngressForHostPath_not_found SampleRequestPath.client
              "" "shop.example.com" "/" [SampleRequestPath.apiIngress] eq_refl)
    as [_ H].
  destruct (k8s.FindIngressForHostPath SampleRequestPath.client "" "shop.example.com" "/")
    as [found|e] eqn:E; [discriminate E|].
  now rewrite (H e eq_refl).
Defined.

Lemma trimPrefix_app (p r : string) : k8s.trimPrefix (p ++ r) p = r.
Proof.
  unfold k8s.trimPrefix, strings.HasPrefix. rewrite prefix_app.
  replace (String.length (p ++ r) - String.length p)%nat with (String.length r).
  - induction p as [|c p IH]; simpl.
    + induction r as [|d r IHr]; simpl; [reflexivity|]. now rewrite IHr.
    + exact IH.
  - clear. induction p as [|c p IH]; simpl; [now rewrite Nat.sub_0_r | exact IH].
Qed.

(** X3. ParseAGICAnnotations returns exactly the annotations whose key
    starts with the AGIC prefix, each with the prefix removed from its key
    and its value unchanged, and nothing else. *)
Theorem ParseAGICAnnotations_spec (ingress : Ingress) (a : k8s.AGICAnnotation) :
  In a (k8s.ParseAGICAnnotations ingress)
  <-> In (k8s.AGICAnnotationPrefix ++ k8s.Key a, k8s.Value a) (Annotations ingress).
Proof.
  unfold k8s.ParseAGICAnnotations.
  induction (Annotations ingress) as [|[k v] rest IH]; simpl; [reflexivity|].
  destruct (strings.HasPrefix k k8s.AGICAnnotationPrefix) eqn:P.
  - apply HasPrefix_iff in P as [r ->]. rewrite trimPrefix_app. simpl In. rewrite IH.
    split.
    + intros [<-|I]; [left; reflexivity | now right].
    + intros [E|I]; [|now right]. left.
      pose proof (f_equal fst E) as E1. pose proof (f_equal snd E) as E2.
      cbn [fst snd] in E1, E2.
      apply (app_inj_head k8s.AGICAnnotationPrefix r (k8s.Key a)) in E1.
      destruct a as [ka va]; cbn [k8s.Key k8s.Value] in *. now subst.
  - rewrite IH. split; [now right|]. intros [E|I]; [|exact I].
    pose proof (f_equal fst E) as E1. cbn [fst] in E1. exfalso.
    assert (X : strings.HasPrefix k k8s.AGICAnnotationPrefix = true)
      by (apply HasPrefix_iff; now exists (k8s.Key a)).
    congruence.
Qed.

Lemma ParseAGICAnnotations_spec_example :
  k8s.ParseAGICAnnotations SampleMisc.agicIngress
  = [ {| k8s.Key := "request-timeout"; k8s.Value := "30" |} ].
Proof. reflexivity. Qed.

Lemma addReady_lists (addrs : list corev1_EndpointAddress) (h : k8s.EndpointHealth) :
  k8s.ReadyAddresses (fold_left k8s.addReady addrs h)
  = (k8s.ReadyAddresses h ++ map k8s.toAddress addrs)%list
  /\ k8s.NotReadyPods (fold_left k8s.addReady addrs h) = k8s.NotReadyPods h.
Proof.
  revert h. induction addrs as [|a addrs IH]; intros h; simpl.
  - now rewrite app_nil_r.
  - destruct (IH (k8s.addReady h a)) as [E1 E2]. rewrite E1, E2. simpl.
    now rewrite <- app_assoc.
Qed.

Lemma addNotReady_lists (addrs : list corev1_EndpointAddress) (h : k8s.EndpointHealth) :
  k8s.NotReadyPods (fold_left k8s.addNotReady addrs h)
  = (k8s.NotReadyPods h ++ map k8s.toAddress addrs)%list
  /\ k8s.ReadyAddresses (fold_left k8s.addNotReady addrs h) = k8s.ReadyAddresses h.
Proof.
  revert h. induction addrs as [|a addrs IH]; intros h; simpl.
  - now rewrite app_nil_r.
  - destruct (IH (k8s.addNotReady h a)) as [E1 E2]. rewrite E1, E2. simpl.
    now rewrite <- app_assoc.
Qed.

Lemma addSubset_lists (subsets : list EndpointSubset) (h : k8s.EndpointHealth) :
  k8s.ReadyAddresses (fold_left k8s.addSubset subsets h)
  = (k8s.ReadyAddresses h ++ map k8s.toAddress (flat_map Addresses subsets))%list
  /\ k8s.NotReadyPods (fold_left k8s.addSubset subsets h)
     = (k8s.NotReadyPods h ++ map k8s.toAddress (flat_map NotReadyAddresses subsets))%list.
Proof.
  revert h. induction subsets as [|s subsets IH]; intros h; simpl.
  - now rewrite !app_nil_r.
  - destruct (IH (k8s.addSubset h s)) as [E1 E2]. rewrite E1, E2.
    unfold k8s.addSubset.
    destruct (addNotReady_lists (NotReadyAddresses s)
                (fold_left k8s.addReady (Addresses s) h)) as [N1 N2].
    destruct (addReady_lists (Addresses s) h) as [R1 R2].
    rewrite N1, N2, R1, R2, !map_app, <- !app_assoc. now split.
Qed.

Lemma addReady_names (addrs : list corev1_EndpointAddress) (h : k8s.EndpointHealth) :
  k8s.ServiceName (fold_left k8s.addReady addrs h) = k8s.ServiceName h
  /\ k8s.ServiceNS (fold_left k8s.addReady addrs h) = k8s.ServiceNS h.
Proof.
  revert h. induction addrs as [|a addrs IH]; intros h; simpl; [now split|].
  destruct (IH (k8s.addReady h a)) as [E1 E2]. now rewrite E1, E2.
Qed.

Lemma addNotReady_names (addrs : list corev1_EndpointAddress) (h : k8s.EndpointHealth) :
  k8s.ServiceName (fold_left k8s.addNotReady addrs h) = k8s.ServiceName h
  /\ k8s.ServiceNS (fold_left k8s.addNotReady addrs h) = k8s.ServiceNS h.
Proof.
  revert h. induction addrs as [|a addrs IH]; intros h; simpl; [now split|].
  destruct (IH (k8s.addNotReady h a)) as [E1 E2]. now rewrite E1, E2.
Qed.

Lemma addSubset_names (subsets : list EndpointSubset) (h : k8s.EndpointHealth) :
  k8s.ServiceName (fold_left k8s.addSubset subsets h) = k8s.ServiceName h
  /\ k8s.ServiceNS (fold_left k8s.addSubset subsets h) = k8s.ServiceNS h.
Proof.
  revert h. induction subsets as [|s subsets IH]; intros h; simpl; [now split|].
  destruct (IH (k8s.addSubset h s)) as [E1 E2]. rewrite E1, E2. unfold k8s.addSubset.
  destruct (addNotReady_names (NotReadyAddresses s) (fold_left k8s.addReady (Addresses s) h))
    as [N1 N2].
  destruct (addReady_names (Addresses s) h) as [R1 R2].
  now rewrite N1, N2, R1, R2.
Qed.

(** X4. GetServiceEndpointHealth fails exactly when the Endpoints object
    cannot be fetched, with the same error; otherwise it names the service
    and namespace asked for and lists the ready and the not-ready
    addresses of all subsets in order, each with its IP, and with the pod
    name and node name left empty when the address has no target
    reference or node name. *)
Theorem GetServiceEndpointHealth_addresses (c : ClusterClient)
  (namespace serviceName : string) :
  match Endpoints_Get c namespace serviceName with
  | Err e => k8s.GetServiceEndpointHealth c namespace serviceName = Err e
  | Ok ep =>
      exists h,
        k8s.GetServiceEndpointHealth c namespace serviceName = Ok h
        /\ k8s.ServiceName h = serviceName /\ k8s.ServiceNS h = namespace
        /\ k8s.ReadyAddresses h = map k8s.toAddress (allReady ep)
        /\ k8s.NotReadyPods h = map k8s.toAddress (allNotReady ep)
        /\ map k8s.IP (k8s.ReadyAddresses h) = map addrIP (allReady ep)
        /\ map k8s.IP (k8s.NotReadyPods h) = map addrIP (allNotReady ep)
  end
  /\ (forall addr : corev1_EndpointAddress,
         (TargetRef addr = None -> k8s.PodName (k8s.toAddress addr) = "")
         /\ (addrNodeName addr = None -> k8s.NodeName (k8s.toAddress addr) = "")).
Proof.
  split.
  - unfold k8s.GetServiceEndpointHealth.
    destruct (Endpoints_Get c namespace serviceName) as [ep|e]; [|reflexivity].
    eexists. split; [reflexivity|].
    match goal with
    | |- context [fold_left k8s.addSubset _ ?h0] =>
        destruct (addSubset_lists (Subsets ep) h0) as [E1 E2];
        destruct (addSubset_names (Subsets ep) h0) as [S1 S2]
    end.
    cbn [k8s.setTotal k8s.ServiceName k8s.ServiceNS k8s.ReadyAddresses k8s.NotReadyPods].
    unfold allReady, allNotReady.
    simpl in E1, E2, S1, S2. rewrite E1, E2, S1, S2. repeat split; rewrite ?map_map; reflexivity.
  - intros addr. unfold k8s.toAddress. split; intros H; now rewrite H.
Qed.

Lemma GetServiceEndpointHealth_addresses_witness :
  exists h,
    k8s.GetServiceEndpointHealth
      (SampleEndpoints.withEndpoints SampleEndpoints.mixed SampleEndpoints.emptyClient)
      "default" "api" = Ok h
    /\ map k8s.IP (k8s.ReadyAddresses h) = ["10.0.0.1"; "10.0.0.3"]
    /\ map k8s.IP (k8s.NotReadyPods h) = ["10.0.0.2"].
Proof.
  pose proof (proj1 (GetServiceEndpointHealth_addresses
                       (SampleEndpoints.withEndpoints SampleEndpoints.mixed
                          SampleEndpoints.emptyClient) "default" "api")) as H.
  hnf in H. destruct H as (h & E & _ & _ & _ & _ & I1 & I2).
  exists h. split; [exact E|]. split; [exact I1 | exact I2].
Defined.

(* ===================================================================== *)
(** ** Further properties: helpers of the tools *)
(* ===================================================================== *)

Lemma wrap32_small (x : Z) : - 2 ^ 31 <= x < 2 ^ 31 -> wrap32 x = x.
Proof.
  intros H. unfold wrap32, wrap. change (32 - 1) with 31.
  assert (E : 2 ^ 32 = 2 * 2 ^ 31) by reflexivity.
  rewrite Z.mod_small; lia.
Qed.

Lemma countReady_filter (css : list ContainerStatus) (acc : Z) :
  0 <= acc -> acc + len css <= MaxInt
  -> countReady acc css = acc + readyStatuses css.
Proof.
  unfold readyStatuses, len, MaxInt. revert acc.
  induction css as [|cs css IH]; intros acc A B.
  - cbn. lia.
  - cbn [countReady filter List.length] in *. rewrite Nat2Z.inj_succ in B.
    assert (L : (List.length (filter Ready css) <= List.length css)%nat)
      by apply filter_length_le.
    destruct (Ready cs).
    + cbn [List.length]. rewrite Nat2Z.inj_succ.
      rewrite incr_small by lia. rewrite IH by lia. lia.
    + rewrite IH by lia. lia.
Qed.

Lemma sumRestarts_sum (css : list ContainerStatus) (acc : Z) :
  0 <= acc -> Forall (fun cs => 0 <= RestartCount cs) css
  -> acc + restartSum css <= MaxInt32
  -> sumRestarts acc css = acc + restartSum css.
Proof.
  unfold restartSum, MaxInt32. intros A F. revert acc A.
  induction F as [|cs css P F IH]; intros acc A B; simpl in *.
  - lia.
  - assert (N : 0 <= fold_right (fun cs n => RestartCount cs + n) 0 css).
    { clear - F. induction F; simpl; lia. }
    rewrite wrap32_small by lia. rewrite IH by lia. lia.
Qed.

(** X5. podContainerSummary counts the ready container statuses, takes
    the total from the containers of the pod spec (not from the statuses),
    and sums the restart counts: for non-negative restart counts whose sum
    fits an int32, the restarts are that sum.  The ready count never
    exceeds the number of statuses. *)
Theorem podContainerSummary_spec (p : Pod) :
  len (ContainerStatuses p) <= MaxInt
  -> Forall (fun cs => 0 <= RestartCount cs) (ContainerStatuses p)
  -> restartSum (ContainerStatuses p) <= MaxInt32
  -> podContainerSummary p
     = (readyStatuses (ContainerStatuses p), len (Containers p),
        restartSum (ContainerStatuses p))
     /\ 0 <= readyStatuses (ContainerStatuses p) <= len (ContainerStatuses p).
Proof.
  intros L F S. unfold podContainerSummary. split.
  - rewrite countReady_filter by (unfold len in *; lia).
    rewrite sumRestarts_sum by (auto; lia). reflexivity.
  - unfold readyStatuses, len.
    pose proof (filter_length_le Ready (ContainerStatuses p)). lia.
Qed.

Lemma podContainerSummary_spec_witness :
  podContainerSummary SampleMisc.restartedPod = (1, 2, 7).
Proof.
  apply (proj1 (podContainerSummary_spec SampleMisc.restartedPod
                  ltac:(vm_compute; discriminate)
                  ltac:(repeat constructor; vm_compute; discriminate)
                  ltac:(vm_compute; discriminate))).
Defined.

Lemma nodeStatusOf_unknown (conds : list NodeCondition) :
  nodeStatusOf conds = "Unknown" <-> Forall notReadyType conds.
Proof.
  unfold notReadyType. induction conds as [|c rest IH]; simpl.
  - split; [constructor | reflexivity].
  - destruct (String.eqb_spec (ncType c) "Ready") as [E|NE].
    + split.
      * destruct (String.eqb (ncStatus c) "True"); discriminate.
      * intros F. inversion F. contradiction.
    + rewrite IH. split; [now constructor | intros F; now inversion F].
Qed.

(** X6. nodeStatus is decided by the first condition of type Ready:
    Ready when its status is exactly True, NotReady otherwise, whatever
    later conditions say; it is Unknown exactly when the node has no
    condition of type Ready. *)
Theorem nodeStatus_spec (n : Node) :
  (nodeStatus n = "Unknown" <-> Forall notReadyType (nodeConditions n))
  /\ (forall (pre : list NodeCondition) cond post,
         nodeConditions n = (pre ++ cond :: post)%list
         -> Forall notReadyType pre -> ncType cond = "Ready"
         -> nodeStatus n = if String.eqb (ncStatus cond) "True" then "Ready" else "NotReady").
Proof.
  unfold nodeStatus. split; [apply nodeStatusOf_unknown|].
  intros pre cond post -> F T.
  induction F as [|c pre N _ IH]; simpl.
  - now rewrite T.
  - unfold notReadyType in N.
    destruct (String.eqb_spec (ncType c) "Ready"); [contradiction | exact IH].
Qed.

Lemma nodeStatus_spec_witness : nodeStatus SampleMisc.readyNode = "Ready".
Proof.
  apply (proj2 (nodeStatus_spec SampleMisc.readyNode)
           [ {| ncType := "MemoryPressure"; ncStatus := "False" |} ]
           {| ncType := "Ready"; ncStatus := "True" |}
           [ {| ncType := "Ready"; ncStatus := "False" |} ]).
  - reflexivity.
  - constructor; [discriminate | constructor].
  - reflexivity.
Defined.

(** X7. displayNS maps the empty string, all and the star to all and
    nothing else; every other namespace is shown as it is, so applying it
    twice changes nothing more. *)
Theorem displayNS_spec (ns : string) :
  (displayNS ns = "all" <-> ns = "" \/ ns = "all" \/ ns = "*")
  /\ (displayNS ns <> "all" -> displayNS ns = ns)
  /\ displayNS (displayNS ns) = displayNS ns.
Proof.
  unfold displayNS.
  destruct (String.eqb_spec ns "") as [->|N1]; simpl.
  { split; [split; auto|]. split; [congruence | reflexivity]. }
  destruct (String.eqb_spec ns "all") as [->|N2]; simpl.
  { split; [split; auto|]. split; [congruence | reflexivity]. }
  destruct (String.eqb_spec ns "*") as [->|N3]; simpl.
  { split; [split; auto|]. split; [congruence | reflexivity]. }
  split; [|split].
  - split; [contradiction | intros [H|[H|H]]; contradiction].
  - reflexivity.
  - destruct (String.eqb_spec ns ""); [contradiction|].
    destruct (String.eqb_spec ns "all"); [contradiction|].
    destruct (String.eqb_spec ns "*"); [contradiction|]. reflexivity.
Qed.

Lemma displayNS_spec_witness : displayNS "kube-system" = "kube-system".
Proof.
  apply (proj1 (proj2 (displayNS_spec "kube-system"))). discriminate.
Defined.

Lemma substring_length (s : string) (n : nat) :
  (n <= String.length s)%nat -> String.length (String.substring 0 n s) = n.
Proof.
  revert s. induction n as [|n IH]; intros s H.
  - destruct s; reflexivity.
  - destruct s as [|c s]; simpl in *; [lia|]. rewrite IH; lia.
Qed.

Lemma append_length (a b : string) :
  String.length (a ++ b) = (String.length a + String.length b)%nat.
Proof. induction a as [|c a IH]; simpl; [reflexivity | now rewrite IH]. Qed.

Lemma substring_prefix (s : string) (n : nat) :
  (n <= String.length s)%nat -> exists rest, s = String.substring 0 n s ++ rest.
Proof.
  revert s. induction n as [|n IH]; intros s H.
  - exists s. destruct s; reflexivity.
  - destruct s as [|c s]; simpl in *; [lia|].
    destruct (IH s ltac:(lia)) as [rest E]. exists rest. simpl. now rewrite <- E.
Qed.

(** X8. truncateName returns a name that fits unchanged; a longer name is
    cut to exactly maxLen bytes, the last two being dots once maxLen is at
    least three, the rest a prefix of the name.  It panics exactly when
    maxLen is negative. *)
Theorem truncateName_spec (name : string) (maxLen : Z) :
  (strlen name <= maxLen -> truncateName name maxLen = Ok name)
  /\ (maxLen < 0 <-> exists e, truncateName name maxLen = Err e)
  /\ (forall r, truncateName name maxLen = Ok r
        -> strlen r <= Z.max maxLen (strlen name)
           /\ (maxLen < strlen name -> strlen r = maxLen)
           /\ (3 <= maxLen < strlen name
               -> exists kept rest, r = kept ++ ".." /\ name = kept ++ rest)).
Proof.
  unfold truncateName, strlen, slice_to.
  assert (P : 0 <= Z.of_nat (String.length name)) by lia.
  destruct (Z.leb_spec (Z.of_nat (String.length name)) maxLen) as [L|L].
  - split; [reflexivity|]. split.
    + split; [lia | intros [e H]; discriminate H].
    + intros r H. injection H as <-. split; [lia|]. split; lia.
  - split; [lia|].
    destruct (Z.ltb_spec maxLen 3) as [S|S].
    + destruct (Z.ltb_spec maxLen 0) as [Ng|Ng].
      * split; [split; [intros _; eexists; reflexivity | lia] | discriminate].
      * split; [split; [lia | intros [e H]; discriminate H]|].
        intros r H. injection H as <-.
        rewrite substring_length by lia. rewrite Z2Nat.id by lia.
        split; [lia|]. split; [reflexivity | lia].
    + split; [split; [lia | intros [e H]; discriminate H]|].
      intros r H. injection H as <-.
      rewrite append_length, substring_length by lia.
      simpl String.length. rewrite Nat2Z.inj_add, Z2Nat.id by lia.
      split; [lia|]. split; [intros _; simpl; lia|].
      intros _. destruct (substring_prefix name (Z.to_nat (maxLen - 2)) ltac:(lia)) as [rest E].
      eexists. exists rest. split; [reflexivity | exact E].
Qed.

Lemma truncateName_spec_witness :
  truncateName "payments-api-7d9f" 40 = Ok "payments-api-7d9f"
  /\ exists kept rest,
       "payments-api.." = kept ++ ".." /\ "payments-api-7d9f" = kept ++ rest.
Proof.
  split.
  - apply (proj1 (truncateName_spec "payments-api-7d9f" 40)). vm_compute. discriminate.
  - apply (proj2 (proj2 (truncateName_spec "payments-api-7d9f" 14)) "payments-api.." eq_refl).
    split; [vm_compute; discriminate | reflexivity].
Defined.

(** X9. pathsOverlap holds exactly when one of the two paths is a string
    prefix of the other (equal paths included), and does not depend on the
    order of its arguments. *)
Theorem pathsOverlap_spec (a b : string) :
  (pathsOverlap a b = true
   <-> (exists rest, a = b ++ rest) \/ (exists rest, b = a ++ rest))
  /\ pathsOverlap a b = pathsOverlap b a.
Proof.
  assert (C : forall x y, pathsOverlap x y = true
                          <-> (exists rest, x = y ++ rest) \/ (exists rest, y = x ++ rest)).
  { intros x y. unfold pathsOverlap.
    destruct (String.eqb_spec x y) as [->|NE].
    - split; [intros _; left; exists ""; clear; induction y; simpl; congruence | reflexivity].
    - destruct (strings.HasPrefix x y) eqn:P1; simpl.
      + split; [intros _; left; now apply HasPrefix_iff | reflexivity].
      + destruct (strings.HasPrefix y x) eqn:P2.
        * split; [intros _; right; now apply HasPrefix_iff | reflexivity].
        * split; [discriminate|].
          intros [H|H]; apply HasPrefix_iff in H; congruence. }
  split; [apply C|].
  destruct (pathsOverlap a b) eqn:E1; destruct (pathsOverlap b a) eqn:E2; try reflexivity.
  - apply C in E1. assert (X : pathsOverlap b a = true) by (apply C; tauto). congruence.
  - apply C in E2. assert (X : pathsOverlap a b = true) by (apply C; tauto). congruence.
Qed.

Lemma truncateToMax_firstn {A : Type} (max : Z) (items : list A) :
  0 <= max -> truncateToMax max items = firstn (Z.to_nat max) items.
Proof.
  intros M. unfold truncateToMax, len.
  destruct (Z.gtb_spec (Z.of_nat (List.length items)) max); [reflexivity|].
  rewrite firstn_all2; [reflexivity | lia].
Qed.

(** X10. ListPods hands on an error of the API unchanged; otherwise it
    returns the first MaxPods pods of the list the API returned, in the
    same order: never more than MaxPods, and the whole list when that has
    at most MaxPods pods. *)
Theorem ListPods_truncates (MaxPods : Z) (listed : result (list Pod)) :
  0 <= MaxPods
  -> match listed with
     | Err e => ListPodsResult MaxPods listed = Err e
     | Ok items =>
         exists pods dropped,
           ListPodsResult MaxPods listed = Ok pods
           /\ items = (pods ++ dropped)%list
           /\ len pods <= MaxPods
           /\ (len items <= MaxPods -> pods = items)
           /\ (MaxPods < len items -> len pods = MaxPods)
     end.
Proof.
  intros M. destruct listed as [items|e]; [|reflexivity].
  unfold ListPodsResult. rewrite truncateToMax_firstn by exact M.
  exists (firstn (Z.to_nat MaxPods) items), (skipn (Z.to_nat MaxPods) items).
  split; [reflexivity|]. split; [now rewrite firstn_skipn|].
  unfold len. rewrite length_firstn. split; [lia|]. split.
  - intros L. apply firstn_all2. lia.
  - intros L. lia.
Qed.

Lemma ListPods_truncates_witness :
  ListPodsResult 1 (Ok SampleRequestPath.pods) = Ok [SampleRequestPath.apiPod "api-0"].
Proof.
  pose proof (ListPods_truncates 1 (Ok SampleRequestPath.pods) ltac:(discriminate)) as H.
  cbv beta iota in H. destruct H as (pods & dropped & E & _). reflexivity.
Defined.

Lemma extractPath_fold (ps : list HTTPIngressPath) (paths backends : list string) :
  NoDup backends
  -> exists backends',
       fold_left extractPath ps (paths, backends) = ((paths ++ map Path ps)%list, backends')
       /\ NoDup backends'
       /\ (forall n, In n backends' <-> In n backends \/ In n (pathBackends ps)).
Proof.
  revert paths backends. induction ps as [|p ps IH]; intros paths backends ND.
  - exists backends. simpl. rewrite app_nil_r. repeat split; auto. tauto.
  - cbn [fold_left map]. unfold extractPath at 2.
    unfold pathBackends. cbn [flat_map]. fold (pathBackends ps).
    destruct (BackendService p) as [b|].
    + destruct (existsb (String.eqb (BackendServiceName b)) backends) eqn:X; simpl negb; cbv iota.
      * destruct (IH (paths ++ [Path p])%list backends ND) as (b' & E & ND' & M).
        exists b'. rewrite E, <- app_assoc. split; [reflexivity|]. split; [exact ND'|].
        intros n. rewrite M. simpl.
        apply existsb_exists in X as (x & Ix & Ex). apply String.eqb_eq in Ex. subst x.
        split; [tauto|]. intros [H|[H|H]]; [tauto | subst; tauto | tauto].
      * assert (NI : ~ In (BackendServiceName b) backends).
        { intros I. assert (Y : existsb (String.eqb (BackendServiceName b)) backends = true).
          { apply existsb_exists. exists (BackendServiceName b). split; [exact I|].
            apply String.eqb_refl. }
          congruence. }
        assert (ND2 : NoDup (backends ++ [BackendServiceName b])).
        { apply NoDup_app; [exact ND | repeat constructor; intros [] |].
          intros x Ix [<-|[]]. contradiction. }
        destruct (IH (paths ++ [Path p])%list (backends ++ [BackendServiceName b])%list ND2)
          as (b' & E & ND' & M).
        exists b'. rewrite E, <- app_assoc. split; [reflexivity|]. split; [exact ND'|].
        intros n. rewrite M, in_app_iff. simpl. tauto.
    + destruct (IH (paths ++ [Path p])%list backends ND) as (b' & E & ND' & M).
      exists b'. rewrite E, <- app_assoc. split; [reflexivity|]. split; [exact ND'|].
      intros n. rewrite M. simpl. tauto.
Qed.

Lemma extractRule_fold (rules : list IngressRule) (hosts paths backends : list string) :
  NoDup backends
  -> exists backends',
       fold_left extractRule rules (hosts, paths, backends)
       = ((hosts ++ namedHosts {| ingName := ""; ingNamespace := ""; Annotations := [];
                                  IngressClassName := None; TLS := []; Rules := rules |})%list,
          (paths ++ allPaths {| ingName := ""; ingNamespace := ""; Annotations := [];
                                IngressClassName := None; TLS := []; Rules := rules |})%list,
          backends')
       /\ NoDup backends'
       /\ (forall n, In n backends'
                     <-> In n backends
                         \/ In n (backendNames {| ingName := ""; ingNamespace := "";
                                                  Annotations := []; IngressClassName := None;
                                                  TLS := []; Rules := rules |})).
Proof.
  unfold namedHosts, allPaths, backendNames. cbn [Rules].
  revert hosts paths backends. induction rules as [|r rules IH]; intros hosts paths backends ND.
  - exists backends. simpl. rewrite !app_nil_r. repeat split; auto. tauto.
  - cbn [fold_left map filter flat_map]. unfold extractRule at 2.
    fold (pathBackends).
    set (hosts' := if negb (String.eqb (Host r) "") then (hosts ++ [Host r])%list else hosts).
    assert (EH : forall tl : list string,
               (hosts' ++ tl)%list
               = (hosts ++ (if negb (String.eqb (Host r) "") then Host r :: tl else tl))%list).
    { intros tl. unfold hosts'. destruct (negb (String.eqb (Host r) ""));
        [now rewrite <- app_assoc | reflexivity]. }
    destruct (HTTP r) as [ps|].
    + destruct (extractPath_fold ps paths backends ND) as (b1 & E1 & ND1 & M1).
      rewrite E1.
      destruct (IH hosts' (paths ++ map Path ps)%list b1 ND1) as (b' & E & ND' & M).
      exists b'. rewrite E, EH, <- app_assoc. split; [reflexivity|]. split; [exact ND'|].
      intros n. rewrite M, M1, in_app_iff.
      change (flat_map (fun p => match BackendService p with
                                 | Some b => [BackendServiceName b]
                                 | None => []
                                 end) ps) with (pathBackends ps).
      tauto.
    + destruct (IH hosts' paths backends ND) as (b' & E & ND' & M).
      exists b'. rewrite E, EH. split; [reflexivity|]. split; [exact ND'|].
      intros n. rewrite M. simpl. tauto.
Qed.

(** X11. extractIngressDetails returns the non-empty hosts of the rules
    and the paths of all HTTP path entries, both in order and with
    repetitions, and the backend service names without repetition: every
    backend service of a path entry is listed, once. *)
Theorem extractIngressDetails_spec (ing : Ingress) :
  exists backends,
    extractIngressDetails ing = (namedHosts ing, allPaths ing, backends)
    /\ NoDup backends
    /\ (forall n, In n backends <-> In n (backendNames ing)).
Proof.
  unfold extractIngressDetails.
  destruct (extractRule_fold (Rules ing) [] [] [] (NoDup_nil _)) as (b & E & ND & M).
  exists b. split; [exact E|]. split; [exact ND|].
  intros n. rewrite M. simpl. tauto.
Qed.

(* ===================================================================== *)
(** ** Further properties: diagram emitter *)
(* ===================================================================== *)

Lemma replaceUnsafe_length (s : string) :
  forall skip, (String.length (mermaid.replaceUnsafe skip s) <= String.length s)%nat.
Proof.
  induction s as [|c rest IH]; intros skip; simpl; [lia|].
  destruct skip as [|k].
  - destruct (mermaid.isIDByte c); simpl.
    + specialize (IH 0%nat). lia.
    + specialize (IH (mermaid.runeWidth c rest - 1)%nat). lia.
  - specialize (IH k). lia.
Qed.

(** X12. SafeID is idempotent, and its result is never empty and at most
    one byte longer than its argument. *)
Theorem SafeID_idempotent (s : string) :
  mermaid.SafeID (mermaid.SafeID s) = mermaid.SafeID s
  /\ (1 <= String.length (mermaid.SafeID s) <= String.length s + 1)%nat.
Proof.
  split.
  - apply SafeID_fixed, SafeID_isSafeID.
  - unfold mermaid.SafeID. pose proof (replaceUnsafe_length s 0) as L.
    destruct (mermaid.replaceUnsafe 0 s) as [|c rest]; simpl in *; [lia|].
    destruct (mermaid.isDigit c); simpl; lia.
Qed.

Lemma ReplaceAllByte_quote (s : string) :
  hasQuote (mermaid.EscapeLabel s) = false.
Proof.
  unfold mermaid.EscapeLabel. induction s as [|c rest IH]; simpl; [reflexivity|].
  destruct (Ascii.eqb c "034"%char) eqn:E.
  - simpl. exact IH.
  - simpl. rewrite E. exact IH.
Qed.

(** X13. EscapeLabel leaves no double quote in a label, replaces each one
    by the six bytes #quot; and changes nothing else: a label without
    double quote comes back unchanged, and escaping commutes with
    concatenation. *)
Theorem EscapeLabel_spec (s t : string) :
  hasQuote (mermaid.EscapeLabel s) = false
  /\ (hasQuote s = false -> mermaid.EscapeLabel s = s)
  /\ mermaid.EscapeLabel (s ++ t) = mermaid.EscapeLabel s ++ mermaid.EscapeLabel t
  /\ mermaid.EscapeLabel (String "034"%char s) = "#quot;" ++ mermaid.EscapeLabel s.
Proof.
  split; [apply ReplaceAllByte_quote|]. split; [|split; [|reflexivity]].
  - unfold mermaid.EscapeLabel. induction s as [|c rest IH]; simpl; [reflexivity|].
    destruct (Ascii.eqb c "034"%char); simpl; [discriminate|].
    intros H. now rewrite IH.
  - unfold mermaid.EscapeLabel. induction s as [|c rest IH]; simpl; [reflexivity|].
    rewrite IH. destruct (Ascii.eqb c "034"%char); simpl; reflexivity.
Qed.

Lemma EscapeLabel_spec_witness : mermaid.EscapeLabel "api v1" = "api v1".
Proof. apply (proj1 (proj2 (EscapeLabel_spec "api v1" ""))). reflexivity. Defined.

Lemma severityStyles_known (sev : mermaid.Severity) :
  (exists style, mermaid.severityStyles sev = Some style) <-> knownSeverity sev.
Proof.
  unfold mermaid.severityStyles, knownSeverity.
  destruct (String.eqb_spec sev mermaid.SeverityCritical) as [E1|N1].
  { split; [intros _; now left | intros _; eexists; reflexivity]. }
  destruct (String.eqb_spec sev mermaid.SeverityWarning) as [E2|N2].
  { split; [intros _; right; now left | intros _; eexists; reflexivity]. }
  destruct (String.eqb_spec sev mermaid.SeverityHealthy) as [E3|N3].
  { split; [intros _; right; right; now left | intros _; eexists; reflexivity]. }
  destruct (String.eqb_spec sev mermaid.SeverityInfo) as [E4|N4].
  { split; [intros _; right; right; now right | intros _; eexists; reflexivity]. }
  split; [intros [st H]; discriminate H | intros [H|[H|[H|H]]]; contradiction].
Qed.

(** X14. AddStyle with one of the four known severities appends exactly
    one style line for the node; with any other severity it leaves the
    flowchart as it is.  It never touches the node and edge lines, and the
    styles are rendered after all lines whatever the order of the calls:
    adding a node or an edge commutes with adding a style. *)
Theorem AddStyle_spec (nodeID : string) (sev : mermaid.Severity) (f : mermaid.Flowchart) :
  (knownSeverity sev
   -> exists style,
        mermaid.styles (mermaid.AddStyle nodeID sev f)
        = List.app (mermaid.styles f) ["    style " ++ nodeID ++ " " ++ style])
  /\ (~ knownSeverity sev -> mermaid.AddStyle nodeID sev f = f)
  /\ mermaid.lines (mermaid.AddStyle nodeID sev f) = mermaid.lines f
  /\ (forall id label shape,
         mermaid.AddNode id label shape (mermaid.AddStyle nodeID sev f)
         = mermaid.AddStyle nodeID sev (mermaid.AddNode id label shape f))
  /\ (forall from to label style,
         mermaid.AddEdge from to label style (mermaid.AddStyle nodeID sev f)
         = mermaid.AddStyle nodeID sev (mermaid.AddEdge from to label style f)).
Proof.
  unfold mermaid.AddStyle.
  destruct (mermaid.severityStyles sev) as [st|] eqn:S.
  - split; [intros _; exists st; reflexivity|].
    split; [|split; [reflexivity | split; reflexivity]].
    intros N. exfalso. apply N. apply severityStyles_known. now exists st.
  - split; [|split; [reflexivity | split; [reflexivity | split; reflexivity]]].
    intros K. apply severityStyles_known in K as [st H]. congruence.
Qed.

Lemma AddStyle_spec_witness :
  mermaid.AddStyle "svc" "degraded" (mermaid.NewFlowchart mermaid.DirectionTB)
  = mermaid.NewFlowchart mermaid.DirectionTB.
Proof.
  apply (proj1 (proj2 (AddStyle_spec "svc" "degraded"
                         (mermaid.NewFlowchart mermaid.DirectionTB)))).
  intros [H|[H|[H|H]]]; discriminate H.
Defined.

(* ===================================================================== *)
(** ** Further properties: diagnose_request_path *)
(* ===================================================================== *)

Lemma existsb_eqb_In (a : string) (l : list string) :
  existsb (String.eqb a) l = true <-> In a l.
Proof.
  rewrite existsb_exists. split.
  - intros (x & I & E). apply String.eqb_eq in E. now subst.
  - intros I. exists a. split; [exact I | apply String.eqb_refl].
Qed.

Lemma keptActions_spec (actions seen : list string) :
  NoDup (keptActions actions seen)
  /\ (forall a, In a (keptActions actions seen) <-> In a actions /\ ~ In a seen).
Proof.
  revert seen. induction actions as [|x rest IH]; intros seen; simpl.
  - split; [constructor | intros a; tauto].
  - destruct (existsb (String.eqb x) seen) eqn:X.
    + apply existsb_eqb_In in X. destruct (IH seen) as [ND M]. split; [exact ND|].
      intros a. rewrite M. split; [tauto|]. intros [[<-|I] N]; [contradiction | tauto].
    + assert (NX : ~ In x seen) by (rewrite <- existsb_eqb_In; congruence).
      destruct (IH (x :: seen)) as [ND M]. split.
      * constructor; [|exact ND]. rewrite M. simpl. tauto.
      * intros a. simpl. rewrite M. simpl. split.
        -- intros [<-|[I N]]; [tauto|]. split; [tauto|]. tauto.
        -- intros [[<-|I] N]; [tauto|].
           destruct (string_dec x a) as [->|NE]; [tauto|]. right. split; [exact I|]. tauto.
Qed.

Lemma dedupActions_numberFrom (actions seen : list string) (num : Z) :
  0 <= num -> num + len actions <= MaxInt
  -> dedupActions actions seen num = numberFrom num (keptActions actions seen).
Proof.
  unfold len, MaxInt. revert seen num.
  induction actions as [|a rest IH]; intros seen num P B; simpl; [reflexivity|].
  cbn [List.length] in B. rewrite Nat2Z.inj_succ in B.
  destruct (existsb (String.eqb a) seen).
  - apply IH; lia.
  - simpl. f_equal. rewrite incr_small by lia. apply IH; lia.
Qed.

(** X15. The SUGGESTED ACTIONS list of the request-path trace holds every
    suggested action exactly once, however often it was suggested, in the
    order of first suggestion, numbered from one without gap. *)
Theorem suggested_actions_once (actions : list string) :
  len actions < MaxInt
  -> dedupActions actions [] 1 = numberFrom 1 (keptActions actions [])
     /\ NoDup (keptActions actions [])
     /\ (forall a, In a (keptActions actions []) <-> In a actions)
     /\ (forall a rest, actions = a :: rest -> exists kept, keptActions actions [] = a :: kept).
Proof.
  intros B. split; [apply dedupActions_numberFrom; lia|].
  destruct (keptActions_spec actions []) as [ND M]. split; [exact ND|]. split.
  - intros a. rewrite M. simpl. tauto.
  - intros a rest ->. simpl. eexists. reflexivity.
Qed.

Lemma suggested_actions_once_witness :
  dedupActions ["Configure TLS for api.example.com"; "Add readiness probe to container 'app'";
                "Add readiness probe to container 'app'"] [] 1
  = [util.Text ("1. Configure TLS for api.example.com" ++ LF);
     util.Text ("2. Add readiness probe to container 'app'" ++ LF)].
Proof.
  apply (proj1 (suggested_actions_once
                  ["Configure TLS for api.example.com";
                   "Add readiness probe to container 'app'";
                   "Add readiness probe to container 'app'"]
                  ltac:(vm_compute; reflexivity))).
Defined.

(** X16. Whenever the ingress lookup fails, be it that nothing matches or
    that the API call fails, diagnose_request_path reports one Critical
    finding No Ingress found for the host and path, with two suggested
    actions, and runs no stage; an empty path is traced as a slash. *)
Theorem request_path_no_ingress
  (FormatAge : Z -> string) (FormatLabels : option (list (string * string)) -> string)
  (HighRestartThreshold : Z)
  (usageBlock : list PodMetrics -> list Pod -> list util.Out * nat * list string)
  (client : ClusterClient) (input : diagnoseRequestPathInput) (e : string) :
  k8s.FindIngressForHostPath client (inputNamespace input) (Hostname input) (tracedPath input)
  = Err e
  -> diagnose_request_path FormatAge FormatLabels HighRestartThreshold usageBlock client input
     = util.SuccessResult (noIngressReport (Hostname input) (tracedPath input))
     /\ util.findingsOf (noIngressReport (Hostname input) (tracedPath input))
        = [("CRITICAL", "No Ingress found for " ++ Hostname input ++ tracedPath input)]
     /\ (inputPath input = "" -> tracedPath input = "/").
Proof.
  intros F. unfold diagnose_request_path. fold (tracedPath input). rewrite F.
  split; [reflexivity|]. split; [reflexivity|].
  intros E. unfold tracedPath. now rewrite E.
Qed.

Lemma request_path_no_ingress_witness :
  diagnose_request_path SampleServices.age SampleServices.labels 5
    SampleServices.noUsageBlock SampleEndpoints.emptyClient
    {| Hostname := "shop.example.com"; inputPath := ""; inputNamespace := "" |}
  = util.SuccessResult (noIngressReport "shop.example.com" "/").
Proof.
  apply (request_path_no_ingress SampleServices.age SampleServices.labels 5
           SampleServices.noUsageBlock SampleEndpoints.emptyClient
           {| Hostname := "shop.example.com"; inputPath := ""; inputNamespace := "" |}
           "no ingress found for shop.example.com/").
  reflexivity.
Defined.

Lemma numberedActions_numberFrom (actions : list string) (i : Z) :
  0 <= i -> i + len actions < MaxInt
  -> numberedActions i actions = numberFrom (i + 1) actions.
Proof.
  unfold len, MaxInt. revert i. induction actions as [|a rest IH]; intros i P B; simpl;
    [reflexivity|].
  cbn [List.length] in B. rewrite Nat2Z.inj_succ in B.
  rewrite wrap64_small by lia. f_equal. rewrite incr_small by lia. apply IH; lia.
Qed.

Lemma findingsOf_app (a b : list util.Out) :
  util.findingsOf (a ++ b) = (util.findingsOf a ++ util.findingsOf b)%list.
Proof.
  induction a as [|o a IH]; simpl; [reflexivity|].
  destruct o; simpl; now rewrite ?IH.
Qed.

Lemma findingsOf_numberFrom (actions : list string) (num : Z) :
  util.findingsOf (numberFrom num actions) = [].
Proof. revert num. induction actions as [|a rest IH]; intros num; simpl; auto. Qed.

Lemma ingressStage_writes (P : util.Out -> Prop) (client : ClusterClient) (hostname : string)
  (ing : Ingress) (rule : IngressRule) (matchedPath : HTTPIngressPath) :
  (forall t, P (util.Text (String " "%char t))) -> P (util.Text ("[1] INGRESS" ++ LF))
  -> P (util.Text LF) -> (forall sev msg, P (util.FormatFinding sev msg))
  -> writes P (ingressStage client hostname ing rule matchedPath).
Proof.
  intros T H L F. unfold ingressStage, tlsLines.
  repeat writes_step; auto; apply T.
Qed.

(** X17. When the matched ingress path names no backend service, or names
    one that cannot be fetched, diagnose_request_path stops after the
    INGRESS stage with a Critical finding: in the first case the finding
    ends the report; in the second the report goes on with the suggested
    actions gathered so far, numbered, the last one being to create the
    service.  In both cases the ENDPOINTS stage is not run. *)
Theorem request_path_backend_missing
  (FormatAge : Z -> string) (FormatLabels : option (list (string * string)) -> string)
  (HighRestartThreshold : Z)
  (usageBlock : list PodMetrics -> list Pod -> list util.Out * nat * list string)
  (client : ClusterClient) (input : diagnoseRequestPathInput)
  (ing : Ingress) (rule : IngressRule) (matchedPath : HTTPIngressPath) :
  k8s.FindIngressForHostPath client (inputNamespace input) (Hostname input) (tracedPath input)
  = Ok (ing, rule, matchedPath)
  -> let s1 := afterIngressStage client input ing rule matchedPath in
     let notFound :=
       "Backend service '" ++ backendSvcName matchedPath ++ "' not found in namespace '"
       ++ ingNamespace ing ++ "'" in
     let create :=
       "Create service '" ++ backendSvcName matchedPath ++ "' in namespace '"
       ++ ingNamespace ing ++ "'" in
     (backendSvcName matchedPath = ""
      -> diagnose_request_path FormatAge FormatLabels HighRestartThreshold usageBlock
           client input
         = util.SuccessResult
             (sb s1 ++ [util.FormatFinding "CRITICAL"
                          "No backend service configured in Ingress path";
                        util.Text LF])%list)
     /\ (forall e,
            backendSvcName matchedPath <> ""
            -> GetService client (ingNamespace ing) (backendSvcName matchedPath) = Err e
            -> len (actions s1) + 1 < MaxInt
            -> diagnose_request_path FormatAge FormatLabels HighRestartThreshold usageBlock
                 client input
               = util.SuccessResult
                   (sb s1
                    ++ [util.Text ("[2] SERVICE" ++ LF); util.Text "    ";
                        util.FormatFinding "CRITICAL" notFound; util.Text LF;
                        util.Text (LF ++ "SUGGESTED ACTIONS:" ++ LF)]
                    ++ numberFrom 1 (actions s1 ++ [create]))%list)
     /\ Forall notEndpointsStage (sb s1).
Proof.
  intros F s1 notFound create. split; [|split].
  - intros B. unfold diagnose_request_path. fold (tracedPath input). rewrite F, B. simpl.
    unfold s1, afterIngressStage. now rewrite <- app_assoc.
  - intros e B G L. unfold diagnose_request_path. fold (tracedPath input). rewrite F.
    destruct (String.eqb_spec (backendSvcName matchedPath) ""); [contradiction|].
    rewrite G. f_equal.
    rewrite sb_WriteAll. unfold andThen. cbn [actions appendAction WriteString findingsInc
      writeFindingLine andThen sb].
    unfold writeFindingLine, andThen. cbn [actions appendAction WriteString findingsInc sb].
    change (ingressStage client (Hostname input) ing rule matchedPath _) with s1.
    clearbody s1. rewrite numberedActions_numberFrom.
    + fold notFound. fold create. rewrite <- !app_assoc. reflexivity.
    + lia.
    + unfold len in *. rewrite length_app, Nat2Z.inj_add.
      cbn [List.length]. change (Z.of_nat 1) with 1. lia.
  - unfold s1, afterIngressStage.
    match goal with
    | |- Forall _ (sb (ingressStage ?c ?h ?i ?r ?m ?s0)) =>
        destruct (ingressStage_writes notEndpointsStage c h i r m
                    ltac:(intros; discriminate) ltac:(discriminate) ltac:(discriminate)
                    ltac:(intros; discriminate) s0) as (out & E & Fo)
    end.
    rewrite E. apply Forall_app. split; [|exact Fo].
    repeat constructor; discriminate.
Qed.

Lemma request_path_backend_missing_witness :
  exists report,
    diagnose_request_path SampleServices.age SampleServices.labels 5
      SampleServices.noUsageBlock SampleRequestPath.noServiceClient SampleRequestPath.input
    = util.SuccessResult report
    /\ util.findingsOf report
       = [("CRITICAL", "Backend service 'api' not found in namespace 'default'")].
Proof.
  eexists. split.
  - apply (proj1 (proj2 (request_path_backend_missing SampleServices.age
                           SampleServices.labels 5 SampleServices.noUsageBlock
                           SampleRequestPath.noServiceClient
                           SampleRequestPath.input SampleRequestPath.apiIngress
                           SampleRequestPath.apiRule SampleRequestPath.apiPath eq_refl))
             "services api not found").
    + discriminate.
    + reflexivity.
    + vm_compute. reflexivity.
  - vm_compute. reflexivity.
Defined.

(* ===================================================================== *)
(** ** Further properties: check_dns_health and analyze_network_policies *)
(* ===================================================================== *)

Lemma len_nil_iff {A : Type} (l : list A) : (len l =? 0) = true <-> l = [].
Proof.
  destruct l as [|x l]; [split; reflexivity|].
  split; [|discriminate]. unfold len. cbn [List.length]. rewrite Nat2Z.inj_succ.
  rewrite Z.eqb_eq. lia.
Qed.

Lemma len_cons_eqb {A : Type} (l : list A) : l <> [] -> (len l =? 0) = false.
Proof.
  intros N. destruct (len l =? 0) eqn:E; [|reflexivity].
  apply len_nil_iff in E. contradiction.
Qed.

(** X18. CoreDNS discovery falls back in order: the pods labelled
    k8s-app=kube-dns if there are any, else the pods labelled
    app.kubernetes.io/name=coredns if there are any, else the pods of
    kube-system whose name starts with coredns-.  A failure of the first
    lookup, or of the second when it is consulted, fails check_dns_health
    with that error; a failure of the third is swallowed and no other
    lookup failure reaches the result. *)
Theorem findCoreDNSPods_fallback (FormatAge : Z -> string) (HighRestartThreshold : Z)
  (client : ClusterClient) :
  let byLabel := ListPods client "kube-system" "k8s-app=kube-dns" in
  let byName := ListPods client "kube-system" "app.kubernetes.io/name=coredns" in
  let all := ListPods client "kube-system" "" in
  (forall e, byLabel = Err e -> findCoreDNSPods client = Err e)
  /\ (forall pods, byLabel = Ok pods -> pods <> [] -> findCoreDNSPods client = Ok pods)
  /\ (forall e, byLabel = Ok [] -> byName = Err e -> findCoreDNSPods client = Err e)
  /\ (forall pods, byLabel = Ok [] -> byName = Ok pods -> pods <> []
                   -> findCoreDNSPods client = Ok pods)
  /\ (forall pods, byLabel = Ok [] -> byName = Ok [] -> all = Ok pods
                   -> findCoreDNSPods client = Ok (corednsByName pods))
  /\ (forall e, byLabel = Ok [] -> byName = Ok [] -> all = Err e
                -> findCoreDNSPods client = Ok [])
  /\ (forall action e,
         check_dns_health FormatAge HighRestartThreshold client
         = util.HandleK8sError action e
         <-> action = "listing CoreDNS pods" /\ findCoreDNSPods client = Err e).
Proof.
  cbv zeta. unfold findCoreDNSPods.
  repeat match goal with |- _ /\ _ => split end.
  - intros e ->. reflexivity.
  - intros pods -> N. cbv beta iota zeta. rewrite (len_cons_eqb pods N).
    cbv beta iota zeta. now rewrite (len_cons_eqb pods N).
  - intros e -> ->. reflexivity.
  - intros pods -> -> N. cbn [len List.length Z.of_nat Z.eqb]. cbv beta iota zeta.
    now rewrite (len_cons_eqb pods N).
  - intros pods -> -> ->. reflexivity.
  - intros e -> -> ->. reflexivity.
  - intros action e. unfold check_dns_health. fold (findCoreDNSPods client).
    destruct (findCoreDNSPods client) as [pods|e'].
    + destruct (len pods =? 0); split; try discriminate; intros [_ D]; discriminate D.
    + split.
      * intros E. injection E as <- <-. split; reflexivity.
      * intros [-> E]. injection E as <-. reflexivity.
Qed.

Lemma findCoreDNSPods_fallback_witness :
  findCoreDNSPods SampleDNS.noDNSClient
  = Ok (corednsByName [Samples.pod "kube-proxy-x7k" PodRunning []]).
Proof.
  apply (proj1 (proj2 (proj2 (proj2 (proj2
           (findCoreDNSPods_fallback SampleServices.age 5 SampleDNS.noDNSClient))))));
    reflexivity.
Defined.

(** X19. A policy's match labels match a service selector exactly when
    the selector gives every label key of the policy the policy's value,
    a key missing from the selector counting as the empty value.  So a
    policy without match labels matches every service, and a nil selector
    is matched exactly by the policies whose label values are all empty. *)
Theorem matchesSvcSelector_spec (policyLabels : list (string * string))
  (svcLabels : option (list (string * string))) :
  (matchesSvcSelector policyLabels svcLabels = true
   <-> forall k v, In (k, v) policyLabels -> selectorValue svcLabels k = v)
  /\ matchesSvcSelector [] svcLabels = true
  /\ (matchesSvcSelector policyLabels None = true
      <-> forall k v, In (k, v) policyLabels -> v = "").
Proof.
  assert (G : forall sl,
             matchesSvcSelector policyLabels sl = true
             <-> forall k v, In (k, v) policyLabels -> selectorValue sl k = v).
  { intros sl. unfold matchesSvcSelector, selectorValue.
    destruct (len policyLabels =? 0) eqn:L.
    - apply len_nil_iff in L. subst. split; [intros _ k v []|reflexivity].
    - rewrite forallb_forall. split.
      + intros H k v I. apply String.eqb_eq. exact (H (k, v) I).
      + intros H [k v] I. apply String.eqb_eq. exact (H k v I). }
  split; [apply G|]. split; [reflexivity|].
  rewrite G. unfold selectorValue. simpl. split; intros H k v I; symmetry; eauto.
Qed.

(* ===================================================================== *)
(** ** Further properties: pod coverage of the network policy audit *)
(* ===================================================================== *)

Lemma isActive_iff (pod : Pod) : isActive pod = true <-> ~ completed pod.
Proof.
  unfold isActive, completed.
  rewrite negb_true_iff, orb_false_iff, !String.eqb_neq. tauto.
Qed.

Lemma len_pos_iff {A : Type} (l : list A) : (len l >? 0) = true <-> l <> [].
Proof.
  destruct l as [|x l]; [split; [discriminate | congruence]|].
  split; [discriminate|]. intros _. unfold len. cbn [List.length].
  rewrite Nat2Z.inj_succ. apply Z.gtb_lt. lia.
Qed.

Lemma len_zero_gtb {A : Type} (l : list A) : (len l =? 0) = negb (len l >? 0).
Proof.
  destruct l as [|x l]; [reflexivity|].
  rewrite (proj2 (len_pos_iff (x :: l))) by discriminate.
  apply len_cons_eqb. discriminate.
Qed.

Lemma NoDup_map_inj {A B : Type} (h : A -> B) (l : list A) (x y : A) :
  NoDup (map h l) -> In x l -> In y l -> h x = h y -> x = y.
Proof.
  induction l as [|a l IH]; simpl; intros ND Ix Iy E; [contradiction|].
  inversion ND as [|? ? N ND']; subst.
  destruct Ix as [<-|Ix], Iy as [<-|Iy]; auto.
  - exfalso. apply N. rewrite E. now apply in_map.
  - exfalso. apply N. rewrite <- E. now apply in_map.
Qed.

Lemma NoDup_map_filter {A B : Type} (h : A -> B) (p : A -> bool) (l : list A) :
  NoDup (map h l) -> NoDup (map h (filter p l)).
Proof.
  induction l as [|a l IH]; simpl; intros ND; [constructor|].
  inversion ND as [|? ? N ND']; subst.
  destruct (p a); simpl; [constructor|]; auto.
  intros I. apply N. apply in_map_iff in I as (x & E & I).
  apply filter_In in I as [I _]. rewrite <- E. now apply in_map.
Qed.

Lemma In_map_filter {A B : Type} (h : A -> B) (p : A -> bool) (l : list A) (x : A) :
  NoDup (map h l) -> In x l -> (In (h x) (map h (filter p l)) <-> p x = true).
Proof.
  intros ND I. split.
  - intros M. apply in_map_iff in M as (y & E & M). apply filter_In in M as [M P].
    now rewrite <- (NoDup_map_inj h l y x ND M I E).
  - intros P. apply in_map. apply filter_In. now split.
Qed.

Section Coverage.

Variable LabelSelectorAsSelector : LabelSelector -> result (list (string * string) -> bool).
Variable policies : list NetworkPolicy.

Lemma matchingPolicies_covered (pod : Pod) :
  matchingPolicies LabelSelectorAsSelector policies pod <> []
  <-> covered LabelSelectorAsSelector policies pod.
Proof.
  unfold covered, selects, matchingPolicies. split.
  - intros N.
    destruct (filter _ policies) as [|np l] eqn:M; [contradiction|].
    assert (I : In np (np :: l)) by now left.
    rewrite <- M in I. apply filter_In in I as [I T].
    exists np. split; [exact I|].
    destruct (LabelSelectorAsSelector (PodSelector np)) as [m|e]; [|discriminate].
    now exists m.
  - intros (np & I & m & E & T) N.
    assert (F : In np (filter
                         (fun np0 => match LabelSelectorAsSelector (PodSelector np0) with
                                     | Ok matches => matches (podLabels pod)
                                     | Err _ => false
                                     end) policies))
      by (apply filter_In; split; [exact I | now rewrite E]).
    now rewrite N in F.
Qed.

Lemma coverage_lengths (pods : list Pod) :
  Nat.add
    (List.length
       (filter (fun pod => isActive pod
                           && (len (matchingPolicies LabelSelectorAsSelector policies pod) >? 0))
          pods))
    (List.length
       (filter (fun pod => isActive pod
                           && (len (matchingPolicies LabelSelectorAsSelector policies pod) =? 0))
          pods))
  = List.length (filter isActive pods).
Proof.
  induction pods as [|pod pods IH]; [reflexivity|].
  cbn [filter]. rewrite len_zero_gtb.
  destruct (isActive pod); cbn [andb];
    [destruct (len (matchingPolicies LabelSelectorAsSelector policies pod) >? 0);
     cbn [negb List.length]; lia | exact IH].
Qed.

End Coverage.

Lemma activeCount_filter (pods : list Pod) (n : Z) :
  0 <= n -> n + len pods <= MaxInt
  -> fold_left (fun n pod => if isActive pod then incr n else n) pods n
     = n + len (filter isActive pods).
Proof.
  unfold len, MaxInt. revert n. induction pods as [|pod pods IH]; intros n P B.
  - simpl. lia.
  - cbn [List.length] in B. rewrite Nat2Z.inj_succ in B.
    cbn [fold_left filter]. destruct (isActive pod).
    + rewrite incr_small by lia. rewrite IH by lia.
      cbn [List.length]. rewrite Nat2Z.inj_succ. lia.
    + apply IH; lia.
Qed.

(** X20. In the coverage report of analyze_network_policies, pod names
    being unique in the namespace: a pod is counted as covered exactly when
    it has not completed and the selector of some policy converts and
    matches its labels; it is listed as having no policy match exactly when
    it has not completed and no policy selects it; a Succeeded or Failed
    pod is in neither list; and Active Pods is the sum of Covered by Policy
    and No Policy Match. *)
Theorem pod_coverage_partition
  (LabelSelectorAsSelector : LabelSelector -> result (list (string * string) -> bool))
  (policies : list NetworkPolicy) (pods : list Pod) :
  NoDup (map podName pods) -> len pods <= MaxInt
  -> (forall pod, In pod pods ->
        (In (podName pod) (coveredPods LabelSelectorAsSelector policies pods)
         <-> ~ completed pod /\ covered LabelSelectorAsSelector policies pod)
        /\ (In (podName pod) (uncoveredPods LabelSelectorAsSelector policies pods)
            <-> ~ completed pod /\ ~ covered LabelSelectorAsSelector policies pod))
     /\ activePodCount pods
        = len (coveredPods LabelSelectorAsSelector policies pods)
          + len (uncoveredPods LabelSelectorAsSelector policies pods).
Proof.
  intros ND B. split.
  - intros pod I. unfold coveredPods, uncoveredPods. rewrite nodup_In.
    rewrite !(In_map_filter podName _ pods pod ND I).
    rewrite len_zero_gtb, !andb_true_iff, negb_true_iff, isActive_iff.
    rewrite <- not_true_iff_false, len_pos_iff, matchingPolicies_covered.
    split; [tauto|]. split; [tauto|]. intros [C N]. split; [exact C|]. tauto.
  - unfold activePodCount. rewrite activeCount_filter by lia.
    pose proof (coverage_lengths LabelSelectorAsSelector policies pods) as CL.
    unfold coveredPods, uncoveredPods.
    rewrite (nodup_fixed_point string_dec) by (apply NoDup_map_filter; exact ND).
    unfold len in *. rewrite !length_map. lia.
Qed.

Lemma pod_coverage_partition_witness :
  activePodCount [Samples.pendingPod; Samples.evictedPod]
  = len (coveredPods SamplePolicies.asSelector [SamplePolicies.denyIngress]
           [Samples.pendingPod; Samples.evictedPod])
    + len (uncoveredPods SamplePolicies.asSelector [SamplePolicies.denyIngress]
             [Samples.pendingPod; Samples.evictedPod]).
Proof.
  apply (pod_coverage_partition SamplePolicies.asSelector [SamplePolicies.denyIngress]
           [Samples.pendingPod; Samples.evictedPod]).
  - repeat constructor; simpl; intuition discriminate.
  - vm_compute. discriminate.
Defined.

(** X21. analyze_network_policies lists the policies first and the pods
    second: a failure of the first call is reported as listing network
    policies whatever the second would give, a failure of the second as
    listing pods.  In a namespace without policies the report has the one
    Warning finding that all traffic is allowed, no section, the number of
    listed pods, completed ones included, and the default-allow diagram. *)
Theorem analyze_network_policies_edges (client : ClusterClient)
  (formatLabelSelector : LabelSelector -> string)
  (LabelSelectorAsSelector : LabelSelector -> result (list (string * string) -> bool))
  (ns : string) :
  let result := analyze_network_policies client formatLabelSelector LabelSelectorAsSelector ns in
  (forall e, ListNetworkPolicies client ns = Err e
             -> result = util.HandleK8sError "listing network policies" e)
  /\ (forall policies e,
         ListNetworkPolicies client ns = Ok policies -> ListPods client ns "" = Err e
         -> result = util.HandleK8sError "listing pods" e)
  /\ (forall pods,
         ListNetworkPolicies client ns = Ok [] -> ListPods client ns "" = Ok pods
         -> exists report,
             result = util.SuccessResult report
             /\ util.findingsOf report
                = [("WARNING",
                    "No network policies found in this namespace — all traffic is allowed by default")]
             /\ util.subHeadersOf report = []
             /\ In (util.Text ("  " ++ itoa (len pods)
                               ++ " pods are running without any network policy protection."
                               ++ LF)) report
             /\ In (util.Text (mermaid.RenderBlock (defaultAllowDiagram ns))) report).
Proof.
  cbv zeta. unfold analyze_network_policies. split; [|split].
  - intros e ->. reflexivity.
  - intros policies e -> ->. reflexivity.
  - intros pods -> ->. eexists. split; [reflexivity|].
    cbn [len List.length Z.of_nat Z.eqb]. cbv beta iota.
    unfold writeFinding, andThen, WriteString. cbn [sb St0 List.app].
    split; [reflexivity|]. split; [reflexivity|].
    split; simpl; tauto.
Qed.

Lemma analyze_network_policies_edges_witness :
  analyze_network_policies SampleEndpoints.emptyClient SamplePolicies.formatSelector
    SamplePolicies.asSelector "default"
  = util.SuccessResult
      (sb ((WriteString (util.FormatHeader "Network Policy Analysis (namespace: default)")
            >> WriteString (util.Text (LF ++ LF))
            >> writeFinding "WARNING"
                 "No network policies found in this namespace — all traffic is allowed by default"
            >> WriteString (util.Text
                 ("  0 pods are running without any network policy protection." ++ LF))
            >> WriteString (util.Text (LF ++ "NETWORK FLOW DIAGRAM:" ++ LF))
            >> WriteString (util.Text (mermaid.RenderBlock (defaultAllowDiagram "default")))
            >> WriteString (util.Text LF)) St0)).
Proof.
  destruct (proj2 (proj2 (analyze_network_policies_edges SampleEndpoints.emptyClient
                            SamplePolicies.formatSelector SamplePolicies.asSelector "default"))
              [] eq_refl eq_refl) as (report & E & _).
  rewrite E. apply f_equal. 
  vm_compute in E. injection E as <-. vm_compute. reflexivity.
Defined.

(* ===================================================================== *)
(** ** Further properties: findings and actions of the request-path stages *)
(* ===================================================================== *)

Lemma emits_eq (fs fs' : list (string * string)) (acts acts' : list string) (f : St -> St) :
  emits fs acts f -> fs = fs' -> acts = acts' -> emits fs' acts' f.
Proof. now intros H <- <-. Qed.

Lemma emits_Text (t : string) : emits [] [] (WriteString (util.Text t)).
Proof.
  intros s. split; simpl; [now rewrite app_nil_r|].
  rewrite findingsOf_app. reflexivity.
Qed.

Lemma emits_Finding (sev msg : string) :
  emits [(sev, msg)] [] (WriteString (util.FormatFinding sev msg)).
Proof.
  intros s. split; simpl; [now rewrite app_nil_r|].
  rewrite findingsOf_app. reflexivity.
Qed.

Lemma emits_findingsInc : emits [] [] findingsInc.
Proof. intros s. split; simpl; now rewrite app_nil_r. Qed.

Lemma emits_appendAction (a : string) : emits [] [a] (appendAction a).
Proof. intros s. split; simpl; [reflexivity | now rewrite app_nil_r]. Qed.

Lemma emits_skip : emits [] [] skip.
Proof. intros s. unfold skip. split; now rewrite app_nil_r. Qed.

Lemma emits_andThen (f1 f2 : list (string * string)) (a1 a2 : list string) (f g : St -> St) :
  emits f1 a1 f -> emits f2 a2 g -> emits (f1 ++ f2)%list (a1 ++ a2)%list (f >> g).
Proof.
  intros Hf Hg s. unfold andThen.
  destruct (Hf s) as [A1 F1]. destruct (Hg (f s)) as [A2 F2].
  rewrite A2, F2, A1, F1, !app_assoc. split; reflexivity.
Qed.

Lemma emits_andThen_quiet (f g : St -> St) :
  emits [] [] f -> emits [] [] g -> emits [] [] (f >> g).
Proof. intros Hf Hg. exact (emits_andThen [] [] [] [] f g Hf Hg). Qed.

Lemma emits_when (b : bool) (fs : list (string * string)) (acts : list string) (f : St -> St) :
  emits fs acts f -> emits (if b then fs else []) (if b then acts else []) (when b f).
Proof. intros H. destruct b; [exact H | apply emits_skip]. Qed.

Lemma emits_when_quiet (b : bool) (f : St -> St) : emits [] [] f -> emits [] [] (when b f).
Proof. intros H. destruct b; [exact H | apply emits_skip]. Qed.

Lemma emits_forEach {A : Type} (l : list A) (body : A -> St -> St) :
  (forall x, emits [] [] (body x)) -> emits [] [] (forEach l body).
Proof.
  intros H. unfold forEach. induction l as [|x l IH]; intros s; simpl.
  - split; now rewrite app_nil_r.
  - destruct (IH (body x s)) as [Ea Ef]. destruct (H x s) as [Ea' Ef'].
    rewrite Ea, Ef, Ea', Ef', !app_nil_r. split; reflexivity.
Qed.

Lemma emits_writeFinding (sev msg : string) : emits [(sev, msg)] [] (writeFinding sev msg).
Proof.
  unfold writeFinding.
  exact (emits_andThen _ _ _ _ _ _ (emits_Finding sev msg) (emits_Text LF)).
Qed.

Lemma emits_writeFindingLine (indent sev msg : string) :
  emits [(sev, msg)] [] (writeFindingLine indent sev msg).
Proof.
  unfold writeFindingLine.
  exact (emits_andThen _ _ _ _ _ _
           (emits_andThen _ _ _ _ _ _ (emits_Text indent) (emits_Finding sev msg))
           (emits_Text LF)).
Qed.

Ltac emits_step :=
  match goal with
  | |- emits [] [] (_ >> _) => apply emits_andThen_quiet
  | |- emits [] [] (when _ _) => apply emits_when_quiet
  | |- emits _ _ (_ >> _) => eapply emits_andThen
  | |- emits _ _ (when _ _) => eapply emits_when
  | |- emits _ _ (WriteString (util.Text _)) => apply emits_Text
  | |- emits _ _ (WriteString (util.FormatFinding _ _)) => apply emits_Finding
  | |- emits _ _ findingsInc => apply emits_findingsInc
  | |- emits _ _ (appendAction _) => apply emits_appendAction
  | |- emits _ _ skip => apply emits_skip
  | |- emits _ _ (forEach _ _) => apply emits_forEach; intros
  | |- emits _ _ (writeFinding _ _) => apply emits_writeFinding
  | |- emits _ _ (writeFindingLine _ _ _) => apply emits_writeFindingLine
  end.

Lemma In_andThen_l (f g : St -> St) (o : util.Out) (s : St) :
  writes anyOut g -> In o (sb (f s)) -> In o (sb ((f >> g) s)).
Proof.
  intros W I. unfold andThen. destruct (W (f s)) as (out & E & _).
  rewrite E. apply in_or_app. now left.
Qed.

Lemma In_andThen_r (f g : St -> St) (o : util.Out) (s : St) :
  (forall s', In o (sb (g s'))) -> In o (sb ((f >> g) s)).
Proof. intros H. apply H. Qed.

Lemma extends_In (s s' : St) (o : util.Out) : extends s s' -> In o (sb s) -> In o (sb s').
Proof. intros [out E] I. rewrite E. apply in_or_app. now left. Qed.

Lemma hasTLS_iff (ing : Ingress) (hostname : string) :
  hasTLS ing hostname = true <-> tlsListed ing hostname.
Proof.
  unfold hasTLS, tlsListed. rewrite existsb_exists. split.
  - intros (tls & I & E). apply existsb_exists in E as (h & Ih & E).
    apply String.eqb_eq in E. subst. now exists tls.
  - intros (tls & I & Ih). exists tls. split; [exact I|].
    apply existsb_exists. exists hostname. split; [exact Ih | apply String.eqb_refl].
Qed.

Lemma tlsLines_line (ing : Ingress) (hostname : string) (tls : IngressTLS) (s : St) :
  In tls (TLS ing) -> In hostname (Hosts tls)
  -> In (util.Text ("    TLS: " ++ SecretName tls ++ LF)) (sb (tlsLines ing hostname s)).
Proof.
  intros I Ih. unfold tlsLines.
  match goal with
  | |- In _ (sb (forEach _ ?body s)) =>
      destruct (forEach_In (TLS ing) body tls s) as (before & _ & X);
        [intros; repeat writes_step; exact Logic.I | exact I |]
  end.
  eapply extends_In; [exact X|]. cbv beta.
  match goal with
  | |- In _ (sb (forEach _ ?body before)) =>
      destruct (forEach_In (Hosts tls) body hostname before) as (before' & _ & Y);
        [intros; repeat writes_step; exact Logic.I | exact Ih |]
  end.
  eapply extends_In; [exact Y|]. cbv beta.
  rewrite String.eqb_refl. simpl. apply in_or_app. right. now left.
Qed.

Lemma ingressStage_emits (client : ClusterClient) (hostname : string) (ing : Ingress)
  (rule : IngressRule) (matchedPath : HTTPIngressPath) :
  emits ((if hasTLS ing hostname then []
          else [("WARNING", "No TLS configured for this host")])
         ++ ingressEventFindings client ing)%list
        (if hasTLS ing hostname then [] else ["Configure TLS for " ++ hostname])
        (ingressStage client hostname ing rule matchedPath).
Proof.
  unfold ingressStage, ingressEventFindings, tlsLines. cbv zeta.
  remember (len (k8s.ParseAGICAnnotations ing) >? 0) as agic eqn:Ea. clear Ea.
  remember (countWarnings
              (orNil (GetEventsForObject client (ingNamespace ing) (ingName ing))) >? 0)
    as ev eqn:Ee. clear Ee.
  destruct (PathTypeOf matchedPath), (IngressClassName ing);
    (eapply emits_eq; [repeat emits_step | |]);
    destruct (hasTLS ing hostname), agic, ev; reflexivity.
Qed.

(** X22. The INGRESS stage of the request-path trace warns No TLS
    configured for this host, and suggests configuring TLS for the host,
    exactly when no TLS entry of the ingress lists the traced host; when
    one does, the secret of every such entry is printed and no action is
    suggested.  The only other finding of the stage is the count of
    warning events on the ingress. *)
Theorem ingressStage_tls (client : ClusterClient) (hostname : string) (ing : Ingress)
  (rule : IngressRule) (matchedPath : HTTPIngressPath) :
  (tlsListed ing hostname
   -> emits (ingressEventFindings client ing) []
        (ingressStage client hostname ing rule matchedPath)
      /\ forall tls s,
           In tls (TLS ing) -> In hostname (Hosts tls)
           -> In (util.Text ("    TLS: " ++ SecretName tls ++ LF))
                (sb (ingressStage client hostname ing rule matchedPath s)))
  /\ (~ tlsListed ing hostname
      -> emits (("WARNING", "No TLS configured for this host")
                :: ingressEventFindings client ing)
           ["Configure TLS for " ++ hostname]
           (ingressStage client hostname ing rule matchedPath)).
Proof.
  pose proof (ingressStage_emits client hostname ing rule matchedPath) as E.
  split.
  - intros L. apply hasTLS_iff in L. rewrite L in E. split; [exact E|].
    intros tls s I Ih. unfold ingressStage. cbv zeta.
    do 3 (apply In_andThen_l; [repeat writes_step; exact Logic.I|]).
    apply In_andThen_r. intros s'. now apply tlsLines_line.
  - intros N. rewrite <- hasTLS_iff in N. apply not_true_is_false in N.
    now rewrite N in E.
Qed.

Lemma ingressStage_tls_witness :
  emits [] []
    (ingressStage SampleRequestPath.client "api.example.com" SampleRequestPath.apiIngress
       SampleRequestPath.apiRule SampleRequestPath.apiPath).
Proof.
  refine (proj1 (proj1 (ingressStage_tls SampleRequestPath.client "api.example.com"
                          SampleRequestPath.apiIngress SampleRequestPath.apiRule
                          SampleRequestPath.apiPath) _)).
  apply hasTLS_iff. reflexivity.
Defined.

Lemma actions_forEach_WriteString {A : Type} (l : list A) (piece : A -> util.Out) (s : St) :
  actions (forEach l (fun x => WriteString (piece x)) s) = actions s.
Proof.
  unfold forEach. revert s. induction l as [|x l IH]; intros s; simpl; [reflexivity|].
  now rewrite IH.
Qed.

(** X23. The ENDPOINTS stage of the request-path trace, composed with
    GetServiceEndpointHealth: it prints the ready count over the total of
    the addresses of all subsets; no address at all is one Critical finding
    with the suggestion to check the pods behind the selector; some
    not-ready address is one Warning finding carrying their number, even
    when ready addresses exist; only ready addresses give no finding.  A
    failed lookup of the Endpoints object is one Critical finding carrying
    the error. *)
Theorem endpointsStage_findings
  (FormatLabels : option (list (string * string)) -> string) (client : ClusterClient)
  (ing : Ingress) (matchedPath : HTTPIngressPath) (svc : Service) :
  let stage := endpointsStage FormatLabels client ing matchedPath svc in
  match Endpoints_Get client (ingNamespace ing) (backendSvcName matchedPath) with
  | Err e => emits [("CRITICAL", "Could not get endpoints: " ++ e)] [] stage
  | Ok ep =>
      let r := readyAddressCount ep in
      let n := notReadyAddressCount ep in
      r + n <= MaxInt
      -> (forall s, In (util.Text ("    Ready: " ++ itoa r ++ "/" ++ itoa (r + n) ++ LF))
                      (sb (stage s)))
         /\ (r + n = 0
             -> emits [("CRITICAL", "Service has 0 endpoints — no pods match the selector")]
                  ["Check that pods with labels " ++ FormatLabels (Selector svc)
                   ++ " exist in namespace " ++ ingNamespace ing]
                  stage)
         /\ (0 < n -> emits [("WARNING", itoa n ++ " endpoint(s) not ready")] [] stage)
         /\ (0 < r -> n = 0 -> emits [] [] stage)
  end.
Proof.
  cbv zeta.
  destruct (Endpoints_Get client (ingNamespace ing) (backendSvcName matchedPath))
    as [ep|e] eqn:G.
  - intros B.
    destruct (k8s.GetServiceEndpointHealth client (ingNamespace ing)
                (backendSvcName matchedPath)) as [h|e] eqn:E;
      [|unfold k8s.GetServiceEndpointHealth in E; rewrite G in E; discriminate E].
    destruct (EndpointHealth_total_facts client _ _ ep h G B E)
      as (T & P1 & P2 & HR & HN & _ & _).
    rewrite HR, HN in T. rewrite HR in P1. rewrite HN in P2.
    unfold endpointsStage. rewrite E. unfold endpointsReport. rewrite T, HR, HN.
    split; [|split; [|split]].
    + intros s. apply In_andThen_r. intros s'. apply In_andThen_l.
      * destruct (_ =? 0); [|destruct (_ >? 0)]; repeat writes_step; exact Logic.I.
      * simpl. apply in_or_app. right. now left.
    + intros Z0. rewrite (proj2 (Z.eqb_eq _ _) Z0).
      eapply emits_eq; [repeat emits_step | reflexivity | reflexivity].
    + intros Pn.
      rewrite (proj2 (Z.eqb_neq _ _)) by lia. rewrite (proj2 (Z.gtb_lt _ _) Pn).
      eapply emits_eq; [repeat emits_step | reflexivity | reflexivity].
    + intros Pr Zn.
      rewrite (proj2 (Z.eqb_neq _ _)) by lia. rewrite Zn. cbn [Z.gtb Z.compare].
      eapply emits_eq; [repeat emits_step | reflexivity | reflexivity].
  - unfold endpointsStage, k8s.GetServiceEndpointHealth. rewrite G. unfold endpointsReport.
    eapply emits_eq; [repeat emits_step | reflexivity | reflexivity].
Qed.

Lemma endpointsStage_findings_witness :
  emits [("WARNING", "1 endpoint(s) not ready")] []
    (endpointsStage SampleServices.labels
       (SampleEndpoints.withEndpoints SampleEndpoints.mixed SampleEndpoints.emptyClient)
       SampleRequestPath.apiIngress SampleRequestPath.apiPath SampleRequestPath.apiService).
Proof.
  pose proof (endpointsStage_findings SampleServices.labels
                (SampleEndpoints.withEndpoints SampleEndpoints.mixed
                   SampleEndpoints.emptyClient)
                SampleRequestPath.apiIngress SampleRequestPath.apiPath
                SampleRequestPath.apiService) as H.
  hnf in H.
  destruct (H ltac:(vm_compute; discriminate)) as (_ & _ & W & _).
  exact (W eq_refl).
Defined.

(* ===================================================================== *)
(** ** Properties: the request-path scenario with not-ready endpoints *)
(* ===================================================================== *)

Lemma GetServiceEndpointHealth_notReady (c : ClusterClient) (namespace serviceName : string)
  (ep : Endpoints) (h : k8s.EndpointHealth) :
  Endpoints_Get c namespace serviceName = Ok ep
  -> k8s.GetServiceEndpointHealth c namespace serviceName = Ok h
  -> k8s.NotReadyPods h = map k8s.toAddress (allNotReady ep).
Proof.
  intros G E. unfold k8s.GetServiceEndpointHealth in E. rewrite G in E.
  injection E as <-.
  match goal with
  | |- context [fold_left k8s.addSubset _ ?h0] =>
      destruct (addSubset_lists (Subsets ep) h0) as [_ E2]
  end.
  cbn [k8s.setTotal k8s.NotReadyPods]. unfold allNotReady.
  simpl in E2. rewrite E2. reflexivity.
Qed.

Lemma addPodNode_style_lines (pods : list Pod) (fc : mermaid.Flowchart) :
  mermaid.styles (fold_left (fun fc p => addPodNode p fc) pods fc)
  = (mermaid.styles fc ++ map podStyleLine pods)%list.
Proof.
  revert fc. induction pods as [|p pods IH]; intros fc; simpl.
  - now rewrite app_nil_r.
  - rewrite IH. unfold addPodNode, podStyleLine.
    destruct (isPodHealthy p); simpl; now rewrite <- app_assoc.
Qed.

Lemma requestPathTopology_style_lines (ing : Ingress) (rule : IngressRule)
  (matchedPath : HTTPIngressPath) (svc : Service) (pods : list Pod) :
  mermaid.styles (requestPathTopology ing rule matchedPath svc pods)
  = ingressStyleLine :: map podStyleLine pods.
Proof. unfold requestPathTopology. rewrite addPodNode_style_lines. reflexivity. Qed.

Lemma findingsOf_notReadyLines (addresses : list k8s.EndpointAddress) :
  util.findingsOf (map notReadyLine addresses) = [].
Proof. induction addresses as [|a l IH]; simpl; auto. Qed.

Lemma endpointsStage_emits_notReady
  (FormatLabels : option (list (string * string)) -> string) (client : ClusterClient)
  (ing : Ingress) (matchedPath : HTTPIngressPath) (svc : Service) (ep : Endpoints) :
  Endpoints_Get client (ingNamespace ing) (backendSvcName matchedPath) = Ok ep
  -> readyAddressCount ep = 0 -> notReadyAddressCount ep = 2
  -> emits [("WARNING", "2 endpoint(s) not ready")] []
       (endpointsStage FormatLabels client ing matchedPath svc).
Proof.
  intros G R N.
  destruct (k8s.GetServiceEndpointHealth client (ingNamespace ing)
              (backendSvcName matchedPath)) as [h|e] eqn:E;
    [|unfold k8s.GetServiceEndpointHealth in E; rewrite G in E; discriminate E].
  destruct (EndpointHealth_total_facts client _ _ ep h G
              ltac:(rewrite R, N; discriminate) E) as (T & _ & _ & HR & HN & _ & _).
  unfold endpointsStage. rewrite E. unfold endpointsReport.
  rewrite HR, HN, R, N in T. rewrite T, HR, HN, R, N.
  change (0 + 2 =? 0) with false. change (2 >? 0) with true. cbv iota.
  eapply emits_eq; [repeat emits_step | reflexivity | reflexivity].
Qed.

(** C1, as the code has it.  When the traced host and path match an
    ingress path whose backend service exists and has no ready and two
    not-ready endpoint addresses, the ENDPOINTS stage of the report is the
    line Ready: 0/2, exactly one finding, the Warning saying that
    2 endpoint(s) are not ready, and one line per not-ready address of the
    Endpoints object, in order; the stage suggests no action.  The
    topology flowchart is in the report, and its style lines are exactly
    the fixed raw style of the ingress node followed by one style per pod
    node, critical or healthy: none is about the service node. *)
Theorem request_path_not_ready_endpoints
  (FormatAge : Z -> string) (FormatLabels : option (list (string * string)) -> string)
  (HighRestartThreshold : Z)
  (usageBlock : list PodMetrics -> list Pod -> list util.Out * nat * list string)
  (client : ClusterClient) (input : diagnoseRequestPathInput)
  (ing : Ingress) (rule : IngressRule) (matchedPath : HTTPIngressPath)
  (svc : Service) (ep : Endpoints) :
  k8s.FindIngressForHostPath client (inputNamespace input) (Hostname input) (tracedPath input)
  = Ok (ing, rule, matchedPath)
  -> backendSvcName matchedPath <> ""
  -> GetService client (ingNamespace ing) (backendSvcName matchedPath) = Ok svc
  -> Endpoints_Get client (ingNamespace ing) (backendSvcName matchedPath) = Ok ep
  -> readyAddressCount ep = 0
  -> notReadyAddressCount ep = 2
  -> let pods := orNil (k8s.GetPodsForService client svc) in
     let topology := requestPathTopology ing rule matchedPath svc pods in
     let addresses := map k8s.toAddress (allNotReady ep) in
     exists pre post,
       diagnose_request_path FormatAge FormatLabels HighRestartThreshold usageBlock
         client input
       = util.SuccessResult
           (pre ++ notReadyEndpointsPieces ++ map notReadyLine addresses ++ post)%list
       /\ List.length addresses = 2%nat
       /\ (forall s,
              sb (endpointsStage FormatLabels client ing matchedPath svc s)
              = (sb s ++ notReadyEndpointsPieces ++ map notReadyLine addresses)%list)
       /\ emits [("WARNING", "2 endpoint(s) not ready")] []
            (endpointsStage FormatLabels client ing matchedPath svc)
       /\ util.findingsOf (notReadyEndpointsPieces ++ map notReadyLine addresses)%list
          = [("WARNING", "2 endpoint(s) not ready")]
       /\ In (util.Text (mermaid.RenderBlock topology)) post
       /\ mermaid.styles topology = ingressStyleLine :: map podStyleLine pods
       /\ Forall (notStyleOf "svc") (mermaid.styles topology).
Proof.
  intros F B G E R N pods topology addresses.
  destruct (endpointsStage_notReady FormatLabels client ing matchedPath svc ep E R N)
    as (h & Eh & L & S).
  rewrite (GetServiceEndpointHealth_notReady client _ _ ep h E Eh) in L, S.
  fold addresses in L, S.
  unfold diagnose_request_path. fold (tracedPath input). rewrite F.
  destruct (String.eqb_spec (backendSvcName matchedPath) "") as [X|_]; [contradiction|].
  rewrite G. unfold requestPathStages.
  rewrite !sb_andThen, !sb_WriteString.
  match goal with
  | |- context [summaryStage (resourceUsageStage ?u ?c ?i ?p (podsStage ?a ?t ?r ?s1))] =>
      destruct (summaryStage_writes (resourceUsageStage u c i p (podsStage a t r s1)))
        as (o3 & E3 & _);
      destruct (resourceUsageStage_writes u c i p (podsStage a t r s1)) as (o2 & E2 & _);
      destruct (podsStage_writes a t r s1) as (o1 & E1 & _);
      rewrite E3, E2, E1
  end.
  rewrite S.
  eexists. eexists.
  split; [|split; [exact L|split; [exact S|split; [|split; [|split; [|split]]]]]].
  - f_equal. norm_lhs. reflexivity.
  - exact (endpointsStage_emits_notReady FormatLabels client ing matchedPath svc ep E R N).
  - rewrite findingsOf_app, findingsOf_notReadyLines. reflexivity.
  - fold pods. fold topology. apply in_or_app. right. apply in_or_app. right.
    apply in_or_app. right. simpl. right. left. reflexivity.
  - apply requestPathTopology_style_lines.
  - apply requestPathTopology_styles.
Qed.

Lemma request_path_not_ready_endpoints_witness :
  exists pre post,
    diagnose_request_path SampleServices.age SampleServices.labels 5
      SampleServices.noUsageBlock SampleRequestPath.client SampleRequestPath.input
    = util.SuccessResult
        (pre ++ notReadyEndpointsPieces
         ++ map notReadyLine (map k8s.toAddress (allNotReady SampleEndpoints.notReady2))
         ++ post)%list
    /\ mermaid.styles SampleRequestPath.topology
       = ingressStyleLine :: map podStyleLine SampleRequestPath.pods.
Proof.
  destruct (request_path_not_ready_endpoints SampleServices.age SampleServices.labels 5
              SampleServices.noUsageBlock SampleRequestPath.client SampleRequestPath.input
              SampleRequestPath.apiIngress SampleRequestPath.apiRule
              SampleRequestPath.apiPath SampleRequestPath.apiService
              SampleEndpoints.notReady2
              eq_refl ltac:(discriminate) eq_refl eq_refl eq_refl eq_refl)
    as (pre & post & E & _ & _ & _ & _ & _ & St & _).
  exists pre, post. split; [exact E | exact St].
Defined.
